(** * Push-manifest generation of polymer-build (src/push-manifest.ts)

  A shallow embedding of the push-manifest stage: resource-type
  classification, per-entry resolution of import edges, assembly of the
  manifest for the shell and the fragments, URL normalization, and the
  stream adapter that appends the serialized manifest to the files it
  forwards.

  Conventions of the embedding.
  - JavaScript strings are [string]; only the bytes of '/', '.', the
    double quote, the backslash and the control characters are ever
    inspected.
  - A plain JavaScript object used as a dictionary is the list of its own
    properties in the order [Object.keys] enumerates them: array-index
    keys first, by ascending numeric value, then the other keys in order of
    creation.  Its prototype is [Object.prototype]: reading a name that
    [Object.prototype] defines and the object does not yields the inherited
    member, and assigning to "__proto__" calls the inherited setter, which
    replaces the prototype and creates no property.  The stage reads
    nothing through a prototype it has replaced, and reads such a prototype
    itself only in the statement that follows the assignment (line 204), so
    the representation does not keep it.
  - An [async] function that may throw returns a [Result].
  - The analyzer (package polymer-analyzer) and [urlFromPath]
    (./path-transformers) are parameters of the development. *)

From Stdlib Require Import List String Ascii Bool Arith NArith ZArith Lia.
From Stdlib Require Import Sorting.Sorted Numbers.DecimalString.
Import ListNotations.
Open Scope string_scope.

(** ** The parts of the JavaScript runtime the stage relies on *)

Module JS.

(** *** Characters and strings *)

Definition slash : ascii := ascii_of_nat 47.
Definition dot : ascii := ascii_of_nat 46.
Definition dquote : ascii := ascii_of_nat 34.
Definition backslash : ascii := ascii_of_nat 92.
Definition newline : ascii := ascii_of_nat 10.

Definition is_slash (c : ascii) : bool := Ascii.eqb c slash.
Definition is_dot (c : ascii) : bool := Ascii.eqb c dot.

(** [s.charCodeAt(0) === 47] *)
Definition starts_with_slash (s : string) : bool :=
  match s with
  | String c _ => is_slash c
  | EmptyString => false
  end.

(** [s.charCodeAt(s.length - 1) === 47] *)
Fixpoint ends_with_slash (s : string) : bool :=
  match s with
  | EmptyString => false
  | String c EmptyString => is_slash c
  | String _ s' => ends_with_slash s'
  end.

(** [s.replace(/^\/+/, '')]: every leading slash is removed. *)
Fixpoint strip_leading_slashes (s : string) : string :=
  match s with
  | String c s' => if is_slash c then strip_leading_slashes s' else s
  | EmptyString => EmptyString
  end.

(** No character of [s] is a slash. *)
Fixpoint no_slash (s : string) : bool :=
  match s with
  | EmptyString => true
  | String c s' => negb (is_slash c) && no_slash s'
  end.

(** [s.split('/')] *)
Fixpoint split_slash (s : string) : list string :=
  match s with
  | EmptyString => [EmptyString]
  | String c s' =>
      if is_slash c then EmptyString :: split_slash s'
      else match split_slash s' with
           | seg :: segs => String c seg :: segs
           | [] => [String c EmptyString]
           end
  end.

(** [a || b] on strings: the empty string is falsy. *)
Definition or_string (a : option string) (b : string) : string :=
  match a with
  | Some s => if String.eqb s "" then b else s
  | None => b
  end.

(** *** Results of functions that may throw *)

Inductive Result (A : Type) : Type :=
| Ok (a : A)
| Throw (message : string).
Arguments Ok {A} a.
Arguments Throw {A} message.

Definition bind {A B} (r : Result A) (k : A -> Result B) : Result B :=
  match r with
  | Ok a => k a
  | Throw e => Throw e
  end.

End JS.

(** ** Node's [path] module, POSIX flavour *)

Module Path.
Import JS.

(** One step of [normalizeString]: [res] is the stack of the segments kept
    so far, the last one first. *)
Definition normalize_step (allowAboveRoot : bool)
           (res : list string) (seg : string) : list string :=
  if String.eqb seg "" || String.eqb seg "." then res
  else if String.eqb seg ".." then
    match res with
    | [] => if allowAboveRoot then [".."] else []
    | top :: below =>
        if String.eqb top ".."
        then (if allowAboveRoot then ".." :: res else res)
        else below
    end
  else seg :: res.

Definition normalize_segments (allowAboveRoot : bool) (path : string)
  : list string :=
  rev (fold_left (normalize_step allowAboveRoot) (split_slash path) []).

(** [normalizeString(path, allowAboveRoot, '/', isPosixPathSeparator)] *)
Definition normalizeString (allowAboveRoot : bool) (path : string) : string :=
  String.concat "/" (normalize_segments allowAboveRoot path).

(** [path.posix.normalize] *)
Definition normalize (path : string) : string :=
  if String.eqb path "" then "."
  else
    let isAbsolute := starts_with_slash path in
    let trailingSeparator := ends_with_slash path in
    let p := normalizeString (negb isAbsolute) path in
    if String.eqb p "" then
      if isAbsolute then "/"
      else if trailingSeparator then "./" else "."
    else
      (if isAbsolute then "/" else "") ++ p
        ++ (if trailingSeparator then "/" else "").

(** [path.posix.join(...args)] *)
Definition join (args : list string) : string :=
  match filter (fun a => negb (String.eqb a "")) args with
  | [] => "."
  | parts => normalize (String.concat "/" parts)
  end.

(** [path.extname], by a scan from the end of the path: trailing slashes
    are skipped, the last component is cut at its last dot, and a
    component that starts with its only dot, or is exactly "..", has no
    extension. *)
Fixpoint drop_slashes (r : list ascii) : list ascii :=
  match r with
  | c :: r' => if is_slash c then drop_slashes r' else r
  | [] => []
  end.

Fixpoint until_slash (r : list ascii) : list ascii :=
  match r with
  | c :: r' => if is_slash c then [] else c :: until_slash r'
  | [] => []
  end.

Fixpoint cut_at_dot (r : list ascii) : option (list ascii * list ascii) :=
  match r with
  | [] => None
  | c :: r' =>
      if is_dot c then Some ([], r')
      else match cut_at_dot r' with
           | Some (ext, pre) => Some (c :: ext, pre)
           | None => None
           end
  end.

Definition extname_rev (r : list ascii) : list ascii :=
  match cut_at_dot (until_slash (drop_slashes r)) with
  | None => []
  | Some (ext, pre) =>
      match pre, ext with
      | [], _ => []
      | [c], [] => if is_dot c then [] else [dot]
      | _, _ => dot :: rev ext
      end
  end.

Definition extname (path : string) : string :=
  string_of_list_ascii (extname_rev (rev (list_ascii_of_string path))).

(** The characters an extension is made of after its dot. *)
Definition plain (c : ascii) : bool := negb (is_slash c) && negb (is_dot c).

(** A segment that stays on the stack: free of slashes, not empty, not a
    single dot. *)
Definition segment (s : string) : bool :=
  no_slash s && negb (String.eqb s "") && negb (String.eqb s ".").

(** A stack as [normalizeString] builds them, last segment first: names
    above, and below them nothing but "..". *)
Fixpoint kept (res : list string) : bool :=
  match res with
  | [] => true
  | top :: below =>
      if String.eqb top ".." then forallb (String.eqb "..") below
      else segment top && kept below
  end.

(** A segment that is a name: neither empty, nor "." nor "..". *)
Definition named (s : string) : bool :=
  segment s && negb (String.eqb s "..").

(** A text made of slashes alone. *)
Definition only_slashes (s : string) : bool :=
  forallb is_slash (list_ascii_of_string s).

(** The text of a normalized relative path. *)
Definition relative_text (segs : list string) (trailing : bool) : string :=
  String.concat "/" segs ++ (if trailing then "/" else "").

End Path.

(** ** Plain objects used as dictionaries *)

Module Obj.

(** The own enumerable properties, in the order of [Object.keys]. *)
Definition t (V : Type) : Type := list (string * V).

Definition digit_value (c : ascii) : option N :=
  let n := N_of_ascii c in
  if ((48 <=? n) && (n <=? 57))%N then Some (n - 48)%N else None.

Fixpoint parse_digits (s : string) (acc : N) : option N :=
  match s with
  | EmptyString => Some acc
  | String c s' =>
      match digit_value c with
      | Some d => parse_digits s' (10 * acc + d)%N
      | None => None
      end
  end.

(** A key is an array index when it is the canonical decimal form of an
    integer below 2^32 - 1. *)
Definition array_index (k : string) : option N :=
  match k with
  | EmptyString => None
  | String c rest =>
      if Ascii.eqb c "0" then
        (if String.eqb rest "" then Some 0%N else None)
      else
        match parse_digits k 0 with
        | Some n => if (n <? 4294967295)%N then Some n else None
        | None => None
        end
  end.

(** [key_before k k']: a new key [k] is enumerated before the existing key
    [k']. *)
Definition key_before (k k' : string) : bool :=
  match array_index k, array_index k' with
  | Some a, Some b => (a <? b)%N
  | Some _, None => true
  | None, _ => false
  end.

(** [{}] *)
Definition empty {V} : t V := [].

(** [Object.keys(o)] *)
Definition keys {V} (o : t V) : list string := map fst o.

(** The own property [k] of [o], if [o] has one. *)
Fixpoint get {V} (o : t V) (k : string) : option V :=
  match o with
  | [] => None
  | (k', v) :: o' => if String.eqb k k' then Some v else get o' k
  end.

(** The names of the properties of [Object.prototype], which an object
    literal inherits. *)
Definition prototype_names : list string :=
  [ "constructor"; "__defineGetter__"; "__defineSetter__"; "hasOwnProperty";
    "__lookupGetter__"; "__lookupSetter__"; "isPrototypeOf";
    "propertyIsEnumerable"; "toString"; "valueOf"; "__proto__";
    "toLocaleString" ].

Definition inherited (k : string) : bool :=
  existsb (String.eqb k) prototype_names.

(** What [o[k]] evaluates to, for [o] with the prototype [Object.prototype]:
    an own property, a member of [Object.prototype], or [undefined]. *)
Inductive Value (V : Type) : Type :=
| Undefined
| Property (v : V)
| Inherited.

Arguments Undefined {V}.
Arguments Property {V} v.
Arguments Inherited {V}.

(** [o[k]] *)
Definition read {V} (o : t V) (k : string) : Value V :=
  match get o k with
  | Some v => Property v
  | None => if inherited k then Inherited else Undefined
  end.

(** The own data property [k] created or updated with [v]. *)
Fixpoint define {V} (o : t V) (k : string) (v : V) : t V :=
  match o with
  | [] => [(k, v)]
  | (k', v') :: o' =>
      if String.eqb k k' then (k, v) :: o'
      else if key_before k k' then (k, v) :: o
      else (k', v') :: define o' k v
  end.

(** [o[k] = v], for [v] an object.  Under "__proto__" the assignment calls
    the setter inherited from [Object.prototype]: [v] becomes the prototype
    of [o], and [o] gets no property.  Under any other name, inherited or
    not, [o] gets an own property. *)
Definition set {V} (o : t V) (k : string) (v : V) : t V :=
  if String.eqb k "__proto__" then o else define o k v.

(** The lists that are objects: no key twice, and no key enumerated after
    one it should precede. *)
Definition precedes (k k' : string) : Prop :=
  k <> k' /\ key_before k' k = false.

Definition wf {V} (o : t V) : Prop := StronglySorted precedes (keys o).

(** The loop [for (const k of Object.keys(o)) { acc[rename(k)] = f(o[k]); }] *)
Definition rekey {V W} (rename : string -> string) (f : V -> W)
           (o : t V) (acc : t W) : t W :=
  fold_left (fun a kv => set a (rename (fst kv)) (f (snd kv))) o acc.

End Obj.

(** ** [Map] *)

Module JSMap.

(** The entries of a [Map], in order of insertion. *)
Definition t (V : Type) : Type := list (string * V).

Definition empty {V} : t V := [].

(** [m.set(k, v)] *)
Fixpoint set {V} (m : t V) (k : string) (v : V) : t V :=
  match m with
  | [] => [(k, v)]
  | (k', v') :: m' =>
      if String.eqb k k' then (k, v) :: m' else (k', v') :: set m' k v
  end.

(** [m.get(k)] *)
Fixpoint get {V} (m : t V) (k : string) : option V :=
  match m with
  | [] => None
  | (k', v) :: m' => if String.eqb k k' then Some v else get m' k
  end.

End JSMap.

(** ** [JSON.stringify(value, undefined, '  ')] on the shapes of a manifest *)

Module JSON.
Import JS.

Definition gap : string := "  ".

Definition hex_digit (n : N) : ascii :=
  nth (N.to_nat n) (list_ascii_of_string "0123456789abcdef") "0"%char.

(** [QuoteJSONString], one character at a time. *)
Definition quote_char (c : ascii) : string :=
  let n := N_of_ascii c in
  if Ascii.eqb c dquote then String backslash (String dquote "")
  else if Ascii.eqb c backslash then String backslash (String backslash "")
  else if (n =? 8)%N then String backslash "b"
  else if (n =? 9)%N then String backslash "t"
  else if (n =? 10)%N then String backslash "n"
  else if (n =? 12)%N then String backslash "f"
  else if (n =? 13)%N then String backslash "r"
  else if (n <? 32)%N then
    String backslash
      (String "u" (String "0" (String "0"
         (String (hex_digit (n / 16)) (String (hex_digit (n mod 16)) "")))))
  else String c "".

Fixpoint quote_body (s : string) : string :=
  match s with
  | EmptyString => EmptyString
  | String c s' => quote_char c ++ quote_body s'
  end.

Definition quote (s : string) : string :=
  String dquote (quote_body s ++ String dquote "").

(** An integer as JSON text. *)
Definition number (z : Z) : string := NilZero.string_of_int (Z.to_int z).

(** [SerializeJSONProperty] of a defined value under a key. *)
Definition property (key text : string) : string := quote key ++ ": " ++ text.

(** [SerializeJSONObject]: [indent] is the indentation of the enclosing
    level, [props] the serialized properties. *)
Definition object (indent : string) (props : list string) : string :=
  match props with
  | [] => "{}"
  | _ =>
      let inner := String newline (indent ++ gap) in
      "{" ++ inner ++ String.concat ("," ++ inner) props
          ++ String newline indent ++ "}"
  end.

End JSON.

(** ** The push manifest (src/push-manifest.ts) *)

Import JS.

(** *** Data *)

Inductive ResourceType : Type :=
| document | script | style | image | font.


(** The string a [ResourceType] is. *)
Definition ResourceType_text (t : ResourceType) : string :=
  match t with
  | document => "document"
  | script => "script"
  | style => "style"
  | image => "image"
  | font => "font"
  end.

(** [interface PushManifestEntry {type?: ResourceType; weight?: 1}]; an
    absent property is [None]. *)
Record PushManifestEntry : Type := {
  type : option ResourceType;
  weight : option Z
}.

Definition PushManifestEntryCollection : Type := Obj.t PushManifestEntry.
Definition PushManifest : Type := Obj.t PushManifestEntryCollection.

(** What the stage reads of an analyzer [Import]: its URL and its set of
    kinds. *)
Record Import : Type := {
  url : string;
  kinds : list string
}.

(** [importKinds.has(kind)] *)
Definition has (importKinds : list string) (kind : string) : bool :=
  existsb (String.eqb kind) importKinds.

(** What [analysis.getDocument(url)] gives back: a [Document], reduced to
    the features that
    [getFeatures({kind: 'import', externalPackages: true, imported: true})]
    returns on it; or a descriptor of the failure, reduced to its [message]
    property; or [undefined]. *)
Inductive AnalyzedDocument : Type :=
| IsDocument (analyzedImports : list Import)
| IsWarning (message : option string)
| IsUndefined.

(** [analyzer.analyze([url])] followed by [getDocument(url)]. *)
Definition Analyzer : Type := string -> AnalyzedDocument.

(** A vinyl [File]. *)
Record File : Type := {
  path : string;
  contents : string
}.

(** What the stage reads of the [ProjectConfig]. *)
Record ProjectConfig : Type := {
  root : string;
  entrypoint : string;
  shell : option string;
  fragments : list string
}.

(** *** Classification *)

(** [extensionToTypeMapping.get(ext)] *)
Definition extensionToTypeMapping : list (string * ResourceType) :=
  [ (".css", style);
    (".gif", image);
    (".html", document);
    (".png", image);
    (".jpg", image);
    (".js", script);
    (".json", script);
    (".svg", image);
    (".webp", image);
    (".woff", font);
    (".woff2", font) ].

Definition extensionToTypeMapping_get (ext : string) : option ResourceType :=
  JSMap.get extensionToTypeMapping ext.

Definition getResourceTypeFromUrl (url : string) : option ResourceType :=
  extensionToTypeMapping_get (Path.extname url).

Definition getResourceTypeFromImport (importFeature : Import)
  : option ResourceType :=
  let importKinds := kinds importFeature in
  if has importKinds "css-import" || has importKinds "html-style" then
    Some style
  else if has importKinds "html-import" then
    Some document
  else if has importKinds "html-script" then
    Some script
  else
    getResourceTypeFromUrl (url importFeature).

Definition createPushEntryFromImport (importFeature : Import)
  : PushManifestEntry :=
  {| type := getResourceTypeFromImport importFeature;
     weight := Some 1%Z |}.

(** *** Resolution of one entry *)

(** [ignoreUrls && ignoreUrls.indexOf(url) > -1] *)
Definition shouldIgnoreFile (ignoreUrls : option (list string)) (url : string)
  : bool :=
  match ignoreUrls with
  | Some urls => existsb (String.eqb url) urls
  | None => false
  end.

(** Whether a value read from an object is truthy: the entries are objects,
    the members of [Object.prototype] are functions and, under "__proto__",
    an object. *)
Definition truthy {V} (v : Obj.Value V) : bool :=
  match v with
  | Obj.Undefined => false
  | Obj.Property _ => true
  | Obj.Inherited => true
  end.

(** The body of the loop over the analyzed imports. *)
Definition addImport (ignoreUrls : option (list string))
           (pushManifestEntries : PushManifestEntryCollection)
           (analyzedImport : Import) : PushManifestEntryCollection :=
  let analyzedImportUrl := url analyzedImport in
  let analyzedImportEntry := Obj.read pushManifestEntries analyzedImportUrl in
  if negb (shouldIgnoreFile ignoreUrls analyzedImportUrl)
     && negb (truthy analyzedImportEntry)
  then Obj.set pushManifestEntries analyzedImportUrl
               (createPushEntryFromImport analyzedImport)
  else pushManifestEntries.

(** [analyzedDocument && analyzedDocument.message || 'unknown'] *)
Definition failureMessage (analyzedDocument : AnalyzedDocument) : string :=
  match analyzedDocument with
  | IsWarning message => or_string message "unknown"
  | _ => "unknown"
  end.

Definition generatePushManifestEntryForUrl
           (analyzer : Analyzer) (url : string)
           (ignoreUrls : option (list string))
  : Result PushManifestEntryCollection :=
  match analyzer url with
  | IsDocument analyzedImports =>
      Ok (fold_left (addImport ignoreUrls) analyzedImports Obj.empty)
  | analyzedDocument =>
      Throw ("Unable to get document " ++ url ++ ": "
               ++ failureMessage analyzedDocument)
  end.

(** *** Normalization *)

(** [path.posix.join(this.basePath, p).replace(/^\/+/, '')] *)
Definition normalize (basePath p : string) : string :=
  strip_leading_slashes (Path.join [basePath; p]).

(** The inner loop: the targets of one source. *)
Definition normalizeTargets (basePath : string)
           (entries : PushManifestEntryCollection)
  : PushManifestEntryCollection :=
  fold_left
    (fun targets '(target, entry) =>
       Obj.set targets (normalize basePath target) entry)
    entries Obj.empty.

(** The outer loop: [normalized]. *)
Definition normalizeManifest (basePath : string) (pushManifest : PushManifest)
  : PushManifest :=
  fold_left
    (fun normalized '(source, entries) =>
       Obj.set normalized (normalize basePath source)
               (normalizeTargets basePath entries))
    pushManifest Obj.empty.

(** *** Serialization of a manifest *)

Definition stringifyEntry (indent : string) (e : PushManifestEntry) : string :=
  JSON.object indent
    ((match type e with
      | Some t => [JSON.property "type" (JSON.quote (ResourceType_text t))]
      | None => []
      end)
     ++ (match weight e with
         | Some w => [JSON.property "weight" (JSON.number w)]
         | None => []
         end))%list.

Definition stringifyCollection (indent : string)
           (c : PushManifestEntryCollection) : string :=
  JSON.object indent
    (map (fun '(k, e) =>
            JSON.property k (stringifyEntry (indent ++ JSON.gap) e)) c).

(** [JSON.stringify(pushManifest, undefined, '  ')] *)
Definition stringify (m : PushManifest) : string :=
  JSON.object ""
    (map (fun '(k, c) => JSON.property k (stringifyCollection JSON.gap c)) m).

(** *** Reading a serialized manifest *)

(** The part of [JSON.parse] that the text of a manifest needs: objects,
    strings, and the integers that weights are.  The stage itself never
    parses; the reader states what a serialized manifest holds. *)
Module Reader.

(** JSON whitespace: space, tab, line feed, carriage return. *)
Definition is_space (c : ascii) : bool :=
  let n := N_of_ascii c in
  ((n =? 32) || (n =? 9) || (n =? 10) || (n =? 13))%N.

Fixpoint skip (s : string) : string :=
  match s with
  | String c s' => if is_space c then skip s' else s
  | EmptyString => EmptyString
  end.

(** [expect token s]: [s] without [token] at its start. *)
Fixpoint expect (token s : string) : option string :=
  match token, s with
  | EmptyString, _ => Some s
  | String a token', String b s' =>
      if Ascii.eqb a b then expect token' s' else None
  | String _ _, EmptyString => None
  end.

Definition hex_value (c : ascii) : option N :=
  let n := N_of_ascii c in
  if ((48 <=? n) && (n <=? 57))%N then Some (n - 48)%N
  else if ((97 <=? n) && (n <=? 102))%N then Some (n - 87)%N
  else if ((65 <=? n) && (n <=? 70))%N then Some (n - 55)%N
  else None.

(** The character that a backslash and [c] stand for. *)
Definition escaped (c : ascii) : option ascii :=
  let n := N_of_ascii c in
  if Ascii.eqb c dquote then Some dquote
  else if Ascii.eqb c backslash then Some backslash
  else if Ascii.eqb c slash then Some slash
  else if (n =? 98)%N then Some (ascii_of_N 8)
  else if (n =? 116)%N then Some (ascii_of_N 9)
  else if (n =? 110)%N then Some (ascii_of_N 10)
  else if (n =? 102)%N then Some (ascii_of_N 12)
  else if (n =? 114)%N then Some (ascii_of_N 13)
  else None.

Definition prepend (c : ascii) (r : option (string * string))
  : option (string * string) :=
  match r with
  | Some (text, rest) => Some (String c text, rest)
  | None => None
  end.

(** A string after its opening quote: its characters, and what follows
    its closing quote. *)
Fixpoint unquote_body (s : string) : option (string * string) :=
  match s with
  | EmptyString => None
  | String c s' =>
      if Ascii.eqb c dquote then Some (EmptyString, s')
      else if Ascii.eqb c backslash then
        match s' with
        | String e s'' =>
            if (N_of_ascii e =? 117)%N then
              match s'' with
              | String h1 (String h2 (String h3 (String h4 s3))) =>
                  match hex_value h1, hex_value h2,
                        hex_value h3, hex_value h4 with
                  | Some 0%N, Some 0%N, Some a, Some b =>
                      prepend (ascii_of_N (16 * a + b)) (unquote_body s3)
                  | _, _, _, _ => None
                  end
              | _ => None
              end
            else
              match escaped e with
              | Some c' => prepend c' (unquote_body s'')
              | None => None
              end
        | EmptyString => None
        end
      else if (N_of_ascii c <? 32)%N then None
      else prepend c (unquote_body s')
  end.

Definition unquote (s : string) : option (string * string) :=
  match s with
  | String c s' => if Ascii.eqb c dquote then unquote_body s' else None
  | EmptyString => None
  end.

Fixpoint read_digits (s : string) (acc : N) : N * string :=
  match s with
  | String c s' =>
      match Obj.digit_value c with
      | Some d => read_digits s' (10 * acc + d)%N
      | None => (acc, s)
      end
  | EmptyString => (acc, EmptyString)
  end.

(** A weight: digits, other than a zero followed by more. *)
Definition read_number (s : string) : option (Z * string) :=
  match s with
  | String c s' =>
      match Obj.digit_value c with
      | Some 0%N =>
          match s' with
          | String c' _ =>
              match Obj.digit_value c' with
              | Some _ => None
              | None => Some (0%Z, s')
              end
          | EmptyString => Some (0%Z, s')
          end
      | Some _ => let (n, rest) := read_digits s 0 in Some (Z.of_N n, rest)
      | None => None
      end
  | EmptyString => None
  end.

Section Objects.

Context {V : Type}.

(** How the value under a key is read. *)
Variable read_value : string -> string -> option (V * string).

(** The properties of an object, from its first key to its closing
    brace. *)
Fixpoint read_properties (fuel : nat) (s : string)
  : option (list (string * V) * string) :=
  match fuel with
  | O => None
  | S fuel' =>
      match unquote s with
      | None => None
      | Some (k, s1) =>
          match expect ":" (skip s1) with
          | None => None
          | Some s2 =>
              match read_value k (skip s2) with
              | None => None
              | Some (v, s3) =>
                  let s4 := skip s3 in
                  match expect "," s4 with
                  | Some s5 =>
                      match read_properties fuel' (skip s5) with
                      | Some (rest, s6) => Some ((k, v) :: rest, s6)
                      | None => None
                      end
                  | None =>
                      match expect "}" s4 with
                      | Some s5 => Some ([(k, v)], s5)
                      | None => None
                      end
                  end
              end
          end
      end
  end.

(** An object: its properties in the order of the text, and what follows
    its closing brace. *)
Definition read_object (s : string) : option (list (string * V) * string) :=
  match expect "{" s with
  | None => None
  | Some s1 =>
      let s2 := skip s1 in
      match expect "}" s2 with
      | Some s3 => Some ([], s3)
      | None => read_properties (String.length s2) s2
      end
  end.

End Objects.

Inductive Field : Type :=
| TypeField (t : ResourceType)
| WeightField (w : Z).

Definition type_of_text (text : string) : option ResourceType :=
  find (fun t => String.eqb (ResourceType_text t) text)
       [document; script; style; image; font].

Definition read_field (key s : string) : option (Field * string) :=
  if String.eqb key "type" then
    match unquote s with
    | Some (text, rest) =>
        match type_of_text text with
        | Some t => Some (TypeField t, rest)
        | None => None
        end
    | None => None
    end
  else if String.eqb key "weight" then
    match read_number s with
    | Some (w, rest) => Some (WeightField w, rest)
    | None => None
    end
  else None.

Definition entry_of_fields (fields : list (string * Field))
  : option PushManifestEntry :=
  match map snd fields with
  | [] => Some {| type := None; weight := None |}
  | [TypeField t] => Some {| type := Some t; weight := None |}
  | [WeightField w] => Some {| type := None; weight := Some w |}
  | [TypeField t; WeightField w] | [WeightField w; TypeField t] =>
      Some {| type := Some t; weight := Some w |}
  | _ => None
  end.

Definition read_entry (s : string) : option (PushManifestEntry * string) :=
  match read_object read_field s with
  | Some (fields, rest) =>
      match entry_of_fields fields with
      | Some e => Some (e, rest)
      | None => None
      end
  | None => None
  end.

Definition read_collection (s : string)
  : option (PushManifestEntryCollection * string) :=
  read_object (fun _ => read_entry) s.

(** The manifest that a text holds, when the text is a manifest and
    nothing else. *)
Definition read (text : string) : option PushManifest :=
  match read_object (fun _ => read_collection) (skip text) with
  | Some (m, rest) =>
      match skip rest with
      | EmptyString => Some m
      | String _ _ => None
      end
  | None => None
  end.

(** The properties of an entry as [JSON.stringify] finds them, and their
    texts. *)
Definition fields_of (e : PushManifestEntry) : list (string * Field) :=
  ((match type e with
    | Some t => [("type", TypeField t)]
    | None => []
    end)
   ++ (match weight e with
       | Some w => [("weight", WeightField w)]
       | None => []
       end))%list.

Definition field_text (f : Field) : string :=
  match f with
  | TypeField t => JSON.quote (ResourceType_text t)
  | WeightField w => JSON.number w
  end.

(** Spaces alone. *)
Definition only_spaces (s : string) : bool :=
  forallb (fun c => Ascii.eqb c " ") (list_ascii_of_string s).

(** The text of a property whose value has the text [ser v]. *)
Definition prop_text {V} (ser : V -> string) (kv : string * V) : string :=
  JSON.property (fst kv) (ser (snd kv)).

End Reader.

(** *** The stream *)

Section AddPushManifest.

(** [urlFromPath], imported from ./path-transformers: from the root and a
    path to the URL of the file. *)
Variable urlFromPath : string -> string -> string.

(** The state of an [AddPushManifest].  The analyzer loads documents from
    the very map [files] that the stream fills, so it is kept as a function
    of that map and applied to the map as it stands at each use. *)
Record AddPushManifest : Type := {
  files : JSMap.t File;
  outPath : string;
  config : ProjectConfig;
  analyzer : JSMap.t File -> Analyzer;
  basePath : string
}.

(** The constructor; [newAnalyzer files] stands for
    [new Analyzer({urlLoader: new FileMapUrlLoader(files)})]. *)
Definition new (newAnalyzer : JSMap.t File -> Analyzer)
           (config : ProjectConfig) (outPath basePath : option string)
  : AddPushManifest :=
  {| files := JSMap.empty;
     config := config;
     analyzer := newAnalyzer;
     outPath := Path.join [root config; or_string outPath "push-manifest.json"];
     basePath := or_string basePath "" |}.

(** The loop over [this.config.fragments]. *)
Fixpoint addFragments (analyzer : Analyzer) (root : string)
         (fragmentIgnoreUrls : list string) (fragments : list string)
         (pushManifest : PushManifest) : Result PushManifest :=
  match fragments with
  | [] => Ok pushManifest
  | fragment :: rest =>
      let absoluteFragmentUrl := urlFromPath root fragment in
      bind (generatePushManifestEntryForUrl
              analyzer absoluteFragmentUrl (Some fragmentIgnoreUrls))
           (fun entries =>
              addFragments analyzer root fragmentIgnoreUrls rest
                           (Obj.set pushManifest absoluteFragmentUrl entries))
  end.

(** [this.config.shell || this.config.entrypoint] *)
Definition mainPushEntrypoint (this : AddPushManifest) : string :=
  or_string (shell (config this)) (entrypoint (config this)).

(** [urlFromPath(this.config.root, mainPushEntrypoint)] *)
Definition absoluteShellUrl (this : AddPushManifest) : string :=
  urlFromPath (root (config this)) (mainPushEntrypoint this).

(** [this.analyzer], loading from [this.files] as they stand. *)
Definition currentAnalyzer (this : AddPushManifest) : Analyzer :=
  analyzer this (files this).

(** The manifest before normalization: the first half of
    [generatePushManifest]. *)
Definition rawPushManifest (this : AddPushManifest) : Result PushManifest :=
  let pushManifest : PushManifest := Obj.empty in
  let absoluteShellUrl := absoluteShellUrl this in
  bind (generatePushManifestEntryForUrl
          (currentAnalyzer this) absoluteShellUrl None)
       (fun entries =>
          let pushManifest := Obj.set pushManifest absoluteShellUrl entries in
          (* [pushManifest[absoluteShellUrl]] is the collection just
             assigned: the own property or, under "__proto__", the prototype
             that the assignment has set. *)
          let shellEntries := entries in
          let shellImportUrls := Obj.keys shellEntries in
          let fragmentIgnoreUrls := absoluteShellUrl :: shellImportUrls in
          addFragments (currentAnalyzer this) (root (config this))
                       fragmentIgnoreUrls (fragments (config this))
                       pushManifest).

Definition generatePushManifest (this : AddPushManifest)
  : Result PushManifest :=
  bind (rawPushManifest this)
       (fun pushManifest =>
          Ok (normalizeManifest (basePath this) pushManifest)).

(** [this.files.set(urlFromPath(this.config.root, file.path), file)] *)
Definition addFile (this : AddPushManifest) (file : File) : AddPushManifest :=
  {| files := JSMap.set (files this)
                        (urlFromPath (root (config this)) (path file)) file;
     outPath := outPath this;
     config := config this;
     analyzer := analyzer this;
     basePath := basePath this |}.

(** The first loop of [_transformIter]: each file is registered, then
    yielded.  The state carries the stream and what was yielded so far. *)
Definition forwardFile (state : AddPushManifest * list File) (file : File)
  : AddPushManifest * list File :=
  (addFile (fst state) file, (snd state ++ [file])%list).

(** [_transformIter]: the files yielded, in order, and how the generator
    ends. *)
Definition _transformIter (this : AddPushManifest) (input : list File)
  : list File * Result unit :=
  let '(this, yielded) := fold_left forwardFile input (this, []) in
  match generatePushManifest this with
  | Throw e => (yielded, Throw e)
  | Ok pushManifest =>
      let pushManifestContents := stringify pushManifest in
      ((yielded ++ [ {| path := outPath this;
                        contents := pushManifestContents |} ])%list,
       Ok tt)
  end.

(** What the stream has registered once it has read [input]. *)
Definition registerAll (this : AddPushManifest) (input : list File)
  : AddPushManifest :=
  fold_left addFile input this.

(** The URLs a build resolves, in the order it resolves them. *)
Definition requestedUrls (this : AddPushManifest) : list string :=
  absoluteShellUrl this
  :: map (urlFromPath (root (config this))) (fragments (config this)).

(** The stream with another list of fragments in its configuration. *)
Definition withFragments (this : AddPushManifest) (fragments : list string)
  : AddPushManifest :=
  {| files := files this;
     outPath := outPath this;
     config := {| root := root (config this);
                  entrypoint := entrypoint (config this);
                  shell := shell (config this);
                  fragments := fragments |};
     analyzer := analyzer this;
     basePath := basePath this |}.

(** The stream with another analyzer. *)
Definition withAnalyzer (this : AddPushManifest)
           (other : JSMap.t File -> Analyzer) : AddPushManifest :=
  {| files := files this;
     outPath := outPath this;
     config := config this;
     analyzer := other;
     basePath := basePath this |}.

End AddPushManifest.

(** [analyzedDocument instanceof Document] *)
Definition isDocument (d : AnalyzedDocument) : bool :=
  match d with
  | IsDocument _ => true
  | _ => false
  end.

(** The first of the analyzed imports that points to [target]. *)
Definition firstImportOf (target : string) (analyzedImports : list Import)
  : option Import :=
  find (fun analyzedImport => String.eqb (url analyzedImport) target)
       analyzedImports.

(** The URLs of a list in order, each at its first occurrence; [seen] holds
    the URLs met before. *)
Fixpoint firstOccurrences (seen urls : list string) : list string :=
  match urls with
  | [] => []
  | u :: rest =>
      if existsb (String.eqb u) seen then firstOccurrences seen rest
      else u :: firstOccurrences (u :: seen) rest
  end.

(** Whether a property of a collection is kept by an ignore list. *)
Definition notIgnored (ignoreUrls : list string)
           (property : string * PushManifestEntry) : bool :=
  negb (existsb (String.eqb (fst property)) ignoreUrls).

(** ** A sample project *)

Module Sample.

Fixpoint strip_prefix (pre s : string) : option string :=
  match pre, s with
  | EmptyString, _ => Some s
  | String a pre', String b s' =>
      if Ascii.eqb a b then strip_prefix pre' s' else None
  | String _ _, EmptyString => None
  end.

(** Modelled from the spec: [urlFromPath] of ./path-transformers, "a pure
    function pathToUrl(root, path) -> absoluteUrl".  This instance cuts the
    root off a path under it. *)
Definition urlFromPath (root path : string) : string :=
  match strip_prefix root path with
  | Some rest => strip_leading_slashes rest
  | None => path
  end.

(** A table-driven analyzer: a document is found only once its file is in
    the map, and its imports are read off the table. *)
Definition analyzer (table : list (string * list Import))
           (files : JSMap.t File) : Analyzer :=
  fun url =>
    match JSMap.get files url with
    | None => IsWarning (Some "not found")
    | Some _ =>
        match JSMap.get table url with
        | Some imports => IsDocument imports
        | None => IsUndefined
        end
    end.

Definition file (path : string) : File :=
  {| path := path; contents := "" |}.

Definition edge (url : string) (kinds : list string) : Import :=
  {| url := url; kinds := kinds |}.

(** An edge that is both an HTML import and a CSS import. *)
Definition mixedEdge : Import :=
  edge "elements/my-app.html" ["html-import"; "css-import"].

(** A shell and a fragment that both import [polymer.html]; the fragment
    imports it twice, and imports the shell as well. *)
Definition imports : list (string * list Import) :=
  [ ("shell.html",
     [ edge "polymer.html" ["html-import"];
       edge "shell.js" ["html-script"] ]);
    ("view.html",
     [ edge "polymer.html" ["html-import"];
       edge "shell.html" ["html-import"];
       edge "view.css" ["css-import"];
       edge "polymer.html" ["html-script"] ]);
    ("index.html",
     [ edge "css/app.css" ["css-import"];
       edge "js/app.js" ["html-script"] ]) ].

Definition input : list File :=
  [ file "/app/index.html"; file "/app/shell.html"; file "/app/view.html";
    file "/app/manifest.json" ].

Definition withShell : ProjectConfig :=
  {| root := "/app";
     entrypoint := "/app/index.html";
     shell := Some "/app/shell.html";
     fragments := ["/app/view.html"] |}.

Definition entrypointOnly : ProjectConfig :=
  {| root := "/app";
     entrypoint := "/app/index.html";
     shell := None;
     fragments := [] |}.

Definition missingFragment : ProjectConfig :=
  {| root := "/app";
     entrypoint := "/app/index.html";
     shell := None;
     fragments := ["/app/lost.html"] |}.

(** The shell listed among the fragments as well. *)
Definition shellAsFragment : ProjectConfig :=
  {| root := "/app";
     entrypoint := "/app/index.html";
     shell := Some "/app/shell.html";
     fragments := ["/app/shell.html"; "/app/view.html"] |}.

Definition entry (t : ResourceType) : PushManifestEntry :=
  {| type := Some t; weight := Some 1%Z |}.

(** A manifest with one key that is not yet under the base path. *)
Definition small : PushManifest := [ ("a", []) ].

(** A collection with two URLs for one file. *)
Definition twice : PushManifestEntryCollection :=
  [ ("/a.css", entry style); ("a.css", entry document) ].

(** A collection with two URLs for one file named "__proto__". *)
Definition hidden : PushManifestEntryCollection :=
  [ ("/__proto__", entry style); ("//__proto__", entry document) ].

(** An analyzer whose document imports a file named "__proto__" under two
    URLs. *)
Definition protoFile : Analyzer :=
  fun _ =>
    IsDocument [ edge "/__proto__" ["css-import"];
                 edge "//__proto__" ["html-import"] ].

(** An analyzer whose document imports, among others, URLs that are names
    of members of [Object.prototype]. *)
Definition inheritedNames : Analyzer :=
  fun _ =>
    IsDocument [ edge "constructor" ["html-script"];
                 edge "__proto__" ["html-import"];
                 edge "css/app.css" ["css-import"];
                 edge "toString" ["html-script"] ].

(** The text of the manifest of the sample project built from its
    entrypoint alone, line by line. *)
Definition quoted (s : string) : string :=
  String "034"%char (s ++ String "034"%char "").

Definition manifestText : string :=
  String.concat
    (String "010"%char "")
    [ "{";
      "  " ++ quoted "index.html" ++ ": {";
      "    " ++ quoted "css/app.css" ++ ": {";
      "      " ++ quoted "type" ++ ": " ++ quoted "style" ++ ",";
      "      " ++ quoted "weight" ++ ": 1";
      "    },";
      "    " ++ quoted "js/app.js" ++ ": {";
      "      " ++ quoted "type" ++ ": " ++ quoted "script" ++ ",";
      "      " ++ quoted "weight" ++ ": 1";
      "    }";
      "  }";
      "}" ].

(** The stream of the sample project once it has read its input. *)
Definition stream (config : ProjectConfig) : AddPushManifest :=
  registerAll urlFromPath (new (analyzer imports) config None None) input.

(** Its analyzer, on the files registered. *)
Definition loaded : Analyzer := analyzer imports (files (stream withShell)).

End Sample.

(** * Properties *)

(** ** Objects *)

Module ObjFacts.
Import Obj.

Lemma key_before_irrefl (k : string) : key_before k k = false.
Proof.
  unfold key_before. destruct (array_index k); auto using N.ltb_irrefl.
Qed.

Lemma key_before_asym (k k' : string) :
  key_before k k' = true -> key_before k' k = false.
Proof.
  unfold key_before.
  destruct (array_index k), (array_index k'); try discriminate; auto.
  rewrite !N.ltb_lt, N.ltb_ge. lia.
Qed.

(** A key that must come before [k'] must come before whatever may follow
    [k']. *)
Lemma key_before_precedes (k k' x : string) :
  key_before k k' = true -> precedes k' x -> precedes k x.
Proof.
  unfold precedes, key_before. intros Hk [Hne Hx]. split.
  - intros ->. rewrite Hk in Hx. discriminate.
  - destruct (array_index k), (array_index k'), (array_index x);
      try discriminate; auto.
    apply N.ltb_lt in Hk. apply N.ltb_ge in Hx. apply N.ltb_ge. lia.
Qed.

Lemma get_define {V} (o : t V) (k k' : string) (v : V) :
  get (define o k v) k' = if String.eqb k' k then Some v else get o k'.
Proof.
  induction o as [|[k0 v0] o IH]; simpl.
  - reflexivity.
  - destruct (String.eqb_spec k k0) as [->|Hk].
    + simpl. destruct (String.eqb k' k0); reflexivity.
    + destruct (key_before k k0); simpl.
      * destruct (String.eqb_spec k' k); reflexivity.
      * rewrite IH. destruct (String.eqb_spec k' k0) as [->|]; auto.
        destruct (String.eqb_spec k0 k); congruence.
Qed.

Lemma keys_define {V} (o : t V) (k k' : string) (v : V) :
  In k' (keys (define o k v)) <-> k' = k \/ In k' (keys o).
Proof.
  unfold keys. induction o as [|[k0 v0] o IH]; simpl.
  - intuition.
  - destruct (String.eqb_spec k k0) as [->|Hk]; simpl.
    + intuition.
    + destruct (key_before k k0); simpl; intuition.
Qed.

(** An assignment under "__proto__" leaves the properties as they are. *)
Lemma set_proto {V} (o : t V) (v : V) : set o "__proto__" v = o.
Proof. reflexivity. Qed.

Lemma set_define {V} (o : t V) (k : string) (v : V) :
  k <> "__proto__" -> set o k v = define o k v.
Proof.
  intros H. unfold set. destruct (String.eqb_spec k "__proto__"); congruence.
Qed.

Lemma get_set {V} (o : t V) (k k' : string) (v : V) :
  get (set o k v) k'
  = if String.eqb k "__proto__" then get o k'
    else if String.eqb k' k then Some v else get o k'.
Proof.
  unfold set. destruct (String.eqb k "__proto__"); [reflexivity|].
  apply get_define.
Qed.

Lemma get_set_same {V} (o : t V) (k : string) (v : V) :
  k <> "__proto__" -> get (set o k v) k = Some v.
Proof.
  intros H. rewrite get_set, String.eqb_refl.
  destruct (String.eqb_spec k "__proto__"); congruence.
Qed.

Lemma keys_set {V} (o : t V) (k k' : string) (v : V) :
  In k' (keys (set o k v))
  <-> (k' = k /\ k <> "__proto__") \/ In k' (keys o).
Proof.
  unfold set. destruct (String.eqb_spec k "__proto__") as [->|H].
  - intuition.
  - rewrite keys_define. intuition.
Qed.

Lemma get_None {V} (o : t V) (k : string) :
  get o k = None <-> ~ In k (keys o).
Proof.
  unfold keys. induction o as [|[k0 v0] o IH]; simpl.
  - intuition.
  - destruct (String.eqb_spec k k0) as [->|Hk].
    + split; [discriminate | intuition].
    + rewrite IH. intuition.
Qed.

Lemma get_Some_In {V} (o : t V) (k : string) (v : V) :
  get o k = Some v -> In (k, v) o.
Proof.
  induction o as [|[k0 v0] o IH]; simpl; [discriminate|].
  destruct (String.eqb_spec k k0) as [->|Hk]; intros H.
  - injection H as ->. auto.
  - auto.
Qed.

Lemma In_keys {V} (o : t V) (k : string) (v : V) :
  In (k, v) o -> In k (keys o).
Proof. intros H. apply (in_map fst) in H. exact H. Qed.

Lemma get_Some_keys {V} (o : t V) (k : string) (v : V) :
  get o k = Some v -> In k (keys o).
Proof. intros H. eapply In_keys, get_Some_In, H. Qed.

Lemma wf_nil {V} : wf (@empty V).
Proof. constructor. Qed.

Lemma wf_define {V} (o : t V) (k : string) (v : V) :
  wf o -> wf (define o k v).
Proof.
  unfold wf, keys.
  induction o as [|[k0 v0] o IH]; simpl; intros Hwf.
  - repeat constructor.
  - inversion Hwf as [|? ? Hs Hall]; subst.
    destruct (String.eqb_spec k k0) as [->|Hk]; simpl.
    + exact Hwf.
    + destruct (key_before k k0) eqn:Hb; simpl.
      * constructor; [exact Hwf|]. constructor.
        -- split; [exact Hk | apply key_before_asym, Hb].
        -- rewrite Forall_forall in *. intros x Hx.
           eapply key_before_precedes; eauto.
      * constructor; [auto|].
        rewrite Forall_forall in *. intros x Hx.
        apply (keys_define o k x v) in Hx. destruct Hx as [->|Hx]; [|auto].
        split; [congruence | exact Hb].
Qed.

Lemma wf_set {V} (o : t V) (k : string) (v : V) : wf o -> wf (set o k v).
Proof.
  unfold set. destruct (String.eqb k "__proto__"); [auto|].
  apply wf_define.
Qed.

Lemma wf_NoDup {V} (o : t V) : wf o -> NoDup (keys o).
Proof.
  unfold wf. generalize (keys o). intros l Hl.
  induction Hl as [|a l Hs IH Hall]; constructor; auto.
  intros Hin. rewrite Forall_forall in Hall.
  destruct (Hall _ Hin) as [Hne _]. congruence.
Qed.

Lemma In_get {V} (o : t V) (k : string) (v : V) :
  wf o -> In (k, v) o -> get o k = Some v.
Proof.
  intros Hwf. apply wf_NoDup in Hwf. unfold keys in Hwf.
  induction o as [|[k0 v0] o IH]; simpl; [tauto|].
  inversion Hwf; subst. intros [Heq|Hin].
  - injection Heq as -> ->. rewrite String.eqb_refl. reflexivity.
  - destruct (String.eqb_spec k k0) as [->|Hk]; [|auto].
    exfalso. apply (in_map fst) in Hin. auto.
Qed.

(** Assigning a key that belongs at the very end appends it. *)
Lemma define_last {V} (o : t V) (k : string) (v : V) :
  wf (o ++ [(k, v)])%list -> define o k v = (o ++ [(k, v)])%list.
Proof.
  unfold wf, keys.
  induction o as [|[k0 v0] o IH]; simpl; intros Hwf; [reflexivity|].
  inversion Hwf as [|? ? Hs Hall]; subst.
  rewrite Forall_forall in Hall.
  destruct (Hall k) as [Hne Hb].
  { rewrite map_app, in_app_iff. right. simpl. auto. }
  destruct (String.eqb_spec k k0) as [->|_]; [congruence|].
  rewrite Hb, IH; auto.
Qed.

Lemma set_last {V} (o : t V) (k : string) (v : V) :
  k <> "__proto__" ->
  wf (o ++ [(k, v)])%list -> set o k v = (o ++ [(k, v)])%list.
Proof. intros H Hwf. rewrite set_define by exact H. apply define_last, Hwf. Qed.

Lemma wf_app_l {V} (o o' : t V) : wf (o ++ o')%list -> wf o.
Proof.
  unfold wf, keys. rewrite map_app.
  induction (map fst o) as [|a l IH]; simpl; intros H.
  - constructor.
  - inversion H as [|? ? Hs Hall]; subst. constructor; auto.
    rewrite Forall_app in Hall. tauto.
Qed.

(** Copying an object property by property, under the same keys, gives the
    object back. *)
Lemma rebuild {V W} (f : V -> W) (o : t V) (acc : t W) :
  wf (acc ++ map (fun kv => (fst kv, f (snd kv))) o)%list ->
  ~ In "__proto__" (keys o) ->
  fold_left (fun a kv => set a (fst kv) (f (snd kv))) o acc
  = (acc ++ map (fun kv => (fst kv, f (snd kv))) o)%list.
Proof.
  revert acc. induction o as [|[k v] o IH]; simpl; intros acc Hwf Hno.
  - rewrite app_nil_r. reflexivity.
  - assert (Hcut : (acc ++ (k, f v) :: map (fun kv => (fst kv, f (snd kv))) o
                    = (acc ++ [(k, f v)])
                        ++ map (fun kv => (fst kv, f (snd kv))) o)%list).
    { rewrite <- app_assoc. reflexivity. }
    rewrite Hcut in *.
    rewrite set_last; [| intros ->; auto | eapply wf_app_l; exact Hwf].
    apply IH; [exact Hwf | auto].
Qed.

End ObjFacts.

(** ** Extensions *)

Module PathFacts.
Import Path.

Lemma chars_app (a b : string) :
  list_ascii_of_string (a ++ b)
  = (list_ascii_of_string a ++ list_ascii_of_string b)%list.
Proof. induction a; simpl; congruence. Qed.

Lemma drop_slashes_plain (c : ascii) (r : list ascii) :
  is_slash c = false -> drop_slashes (c :: r) = c :: r.
Proof. intros H. simpl. rewrite H. reflexivity. Qed.

Lemma until_slash_app (l r : list ascii) :
  forallb plain l = true ->
  until_slash (l ++ r) = (l ++ until_slash r)%list.
Proof.
  induction l as [|c l IH]; simpl; [reflexivity|].
  unfold plain at 1. rewrite !andb_true_iff, !negb_true_iff.
  intros [[Hs _] Hl]. rewrite Hs, IH by assumption. reflexivity.
Qed.

Lemma cut_at_dot_app (l r : list ascii) :
  forallb plain l = true ->
  cut_at_dot (l ++ dot :: r) = Some (l, r).
Proof.
  induction l as [|c l IH]; simpl; [reflexivity|].
  unfold plain at 1. rewrite !andb_true_iff, !negb_true_iff.
  intros [[_ Hd] Hl]. rewrite Hd, IH by assumption. reflexivity.
Qed.

Lemma forallb_rev {A} (p : A -> bool) (l : list A) :
  forallb p (rev l) = forallb p l.
Proof.
  induction l as [|a l IH]; simpl; [reflexivity|].
  rewrite forallb_app, IH. simpl. rewrite andb_true_r, andb_comm. reflexivity.
Qed.

Lemma extname_rev_named (le rp : list ascii) (c : ascii) :
  is_slash c = false -> le <> [] -> forallb plain le = true ->
  extname_rev (rev le ++ dot :: c :: rp) = dot :: le.
Proof.
  intros Hc Hne Hle. unfold extname_rev.
  assert (Hrev : forallb plain (rev le) = true)
    by (rewrite forallb_rev; exact Hle).
  assert (Hdrop : drop_slashes (rev le ++ dot :: c :: rp)
                  = (rev le ++ dot :: c :: rp)%list).
  { destruct (rev le) as [|x r] eqn:E.
    - apply (f_equal (@rev ascii)) in E. rewrite rev_involutive in E.
      contradiction.
    - simpl in Hrev. unfold plain at 1 in Hrev.
      rewrite !andb_true_iff, !negb_true_iff in Hrev.
      simpl. replace (is_slash x) with false by (symmetry; tauto).
      reflexivity. }
  rewrite Hdrop, until_slash_app by exact Hrev.
  simpl until_slash. replace (is_slash dot) with false by reflexivity.
  rewrite Hc, cut_at_dot_app by exact Hrev.
  destruct (rev le) as [|x r] eqn:E.
  - apply (f_equal (@rev ascii)) in E. rewrite rev_involutive in E.
    contradiction.
  - rewrite <- E, rev_involutive.
    destruct (until_slash rp); reflexivity.
Qed.

(** A file name with at least one character that is not a slash before
    its last dot has the text from that dot on as its extension. *)
Lemma extname_named (pre : string) (c a : ascii) (e : string) :
  is_slash c = false ->
  forallb plain (list_ascii_of_string (String a e)) = true ->
  extname (pre ++ String c (String dot (String a e))) = String dot (String a e).
Proof.
  intros Hc He. unfold extname.
  rewrite chars_app.
  change (list_ascii_of_string (String c (String dot (String a e))))
    with ([c] ++ [dot] ++ list_ascii_of_string (String a e))%list.
  rewrite !rev_app_distr, <- !app_assoc.
  change (rev [dot] ++ rev [c] ++ rev (list_ascii_of_string pre))%list
    with (dot :: c :: rev (list_ascii_of_string pre)).
  rewrite extname_rev_named; [| exact Hc | discriminate | exact He].
  change (dot :: list_ascii_of_string (String a e))
    with (list_ascii_of_string (String dot (String a e))).
  apply string_of_list_ascii_of_string.
Qed.

(** A path without a dot has no extension. *)
Lemma cut_at_dot_none (l : list ascii) :
  forallb (fun c => negb (is_dot c)) l = true -> cut_at_dot l = None.
Proof.
  induction l as [|c l IH]; simpl; [reflexivity|].
  rewrite andb_true_iff, negb_true_iff. intros [-> Hl].
  rewrite IH by exact Hl. reflexivity.
Qed.

Lemma forallb_drop_slashes (p : ascii -> bool) (l : list ascii) :
  forallb p l = true -> forallb p (drop_slashes l) = true.
Proof.
  induction l as [|c l IH]; simpl; [reflexivity|].
  rewrite andb_true_iff. intros [Hc Hl].
  destruct (is_slash c); simpl; auto. rewrite Hc, Hl. reflexivity.
Qed.

Lemma forallb_until_slash (p : ascii -> bool) (l : list ascii) :
  forallb p l = true -> forallb p (until_slash l) = true.
Proof.
  induction l as [|c l IH]; simpl; [reflexivity|].
  rewrite andb_true_iff. intros [Hc Hl].
  destruct (is_slash c); simpl; auto. rewrite Hc. auto.
Qed.

Lemma extname_no_dot (p : string) :
  forallb (fun c => negb (is_dot c)) (list_ascii_of_string p) = true ->
  extname p = "".
Proof.
  intros H. unfold extname, extname_rev.
  rewrite cut_at_dot_none; [reflexivity|].
  apply forallb_until_slash, forallb_drop_slashes.
  rewrite forallb_rev. exact H.
Qed.

End PathFacts.

(** ** Classification *)

Lemma extensionToTypeMapping_get_other (ext : string) :
  ~ In ext [".css"; ".gif"; ".png"; ".jpg"; ".svg"; ".webp"; ".html";
            ".js"; ".json"; ".woff"; ".woff2"] ->
  extensionToTypeMapping_get ext = None.
Proof.
  intros H. unfold extensionToTypeMapping_get, extensionToTypeMapping.
  simpl.
  repeat match goal with
         | |- context [String.eqb ext ?e] =>
             destruct (String.eqb_spec ext e) as [->|_];
             [exfalso; apply H; simpl; tauto|]
         end.
  reflexivity.
Qed.

(** The table, read on what [path.extname] returns: .css is a style;
    .gif, .png, .jpg, .svg, .webp are images; .html is a document; .js,
    .json are scripts; .woff, .woff2 are fonts; anything else has no
    type. *)
Lemma getResourceTypeFromUrl_table (url : string) :
  (Path.extname url = ".css" -> getResourceTypeFromUrl url = Some style)
  /\ (In (Path.extname url) [".gif"; ".png"; ".jpg"; ".svg"; ".webp"] ->
      getResourceTypeFromUrl url = Some image)
  /\ (Path.extname url = ".html" ->
      getResourceTypeFromUrl url = Some document)
  /\ (In (Path.extname url) [".js"; ".json"] ->
      getResourceTypeFromUrl url = Some script)
  /\ (In (Path.extname url) [".woff"; ".woff2"] ->
      getResourceTypeFromUrl url = Some font)
  /\ (~ In (Path.extname url)
           [".css"; ".gif"; ".png"; ".jpg"; ".svg"; ".webp"; ".html";
            ".js"; ".json"; ".woff"; ".woff2"] ->
      getResourceTypeFromUrl url = None).
Proof.
  unfold getResourceTypeFromUrl. generalize (Path.extname url) as ext.
  intros ext. repeat split; simpl; intros H.
  - subst. reflexivity.
  - repeat (destruct H as [<-|H]; [reflexivity|]). contradiction.
  - subst. reflexivity.
  - repeat (destruct H as [<-|H]; [reflexivity|]). contradiction.
  - repeat (destruct H as [<-|H]; [reflexivity|]). contradiction.
  - apply extensionToTypeMapping_get_other. exact H.
Qed.

(** The table read on file names: whatever the directories, a name with a
    character before its extension is classified by that extension. *)
Lemma getResourceTypeFromUrl_named (pre : string) (c : ascii)
      (ext : string) (t : ResourceType) :
  is_slash c = false ->
  In (ext, t) extensionToTypeMapping ->
  getResourceTypeFromUrl (pre ++ String c ext) = Some t.
Proof.
  intros Hc Hin. unfold getResourceTypeFromUrl.
  unfold extensionToTypeMapping in Hin. simpl in Hin.
  repeat (destruct Hin as [Heq|Hin];
          [injection Heq as <- <-;
           rewrite (PathFacts.extname_named pre c) by (exact Hc || reflexivity);
           reflexivity|]).
  contradiction.
Qed.

Lemma getResourceTypeFromUrl_no_dot (url : string) :
  forallb (fun c => negb (is_dot c)) (list_ascii_of_string url) = true ->
  getResourceTypeFromUrl url = None.
Proof.
  intros H. unfold getResourceTypeFromUrl.
  rewrite PathFacts.extname_no_dot by exact H. reflexivity.
Qed.

Lemma getResourceTypeFromUrl_table_sample :
  getResourceTypeFromUrl "css/app.css" = Some style
  /\ getResourceTypeFromUrl "fonts/roboto.woff2" = Some font
  /\ getResourceTypeFromUrl "bower_components/LICENSE" = None.
Proof.
  split; [|split].
  - apply (proj1 (getResourceTypeFromUrl_table "css/app.css")).
    reflexivity.
  - apply (proj1 (proj2 (proj2 (proj2 (proj2
             (getResourceTypeFromUrl_table "fonts/roboto.woff2")))))).
    vm_compute. tauto.
  - apply (proj2 (proj2 (proj2 (proj2 (proj2
             (getResourceTypeFromUrl_table "bower_components/LICENSE")))))).
    vm_compute. intuition discriminate.
Defined.

(** C3, as the code has it: an edge tagged html-import that is tagged
    neither css-import nor html-style is a document, whatever the extension
    of its URL and whatever its other tags. *)
Theorem getResourceTypeFromImport_html_import (importFeature : Import) :
  has (kinds importFeature) "html-import" = true ->
  has (kinds importFeature) "css-import" = false ->
  has (kinds importFeature) "html-style" = false ->
  getResourceTypeFromImport importFeature = Some document.
Proof.
  intros Himport Hcss Hstyle. unfold getResourceTypeFromImport.
  rewrite Hcss, Hstyle, Himport. reflexivity.
Qed.

Lemma getResourceTypeFromImport_html_import_sample :
  getResourceTypeFromImport
    (Sample.edge "lib/widget.js" ["html-import"; "html-script"])
  = Some document.
Proof.
  apply getResourceTypeFromImport_html_import; reflexivity.
Defined.

(** An edge tagged html-import and css-import is a style. *)
Lemma html_import_tagged_css_import_is_style :
  has (kinds Sample.mixedEdge) "html-import" = true
  /\ getResourceTypeFromImport Sample.mixedEdge = Some style
  /\ getResourceTypeFromImport Sample.mixedEdge <> Some document.
Proof. repeat split. discriminate. Qed.

(** The style tags come first, whatever else the edge is tagged. *)
Lemma getResourceTypeFromImport_style (importFeature : Import) :
  has (kinds importFeature) "css-import" = true
  \/ has (kinds importFeature) "html-style" = true ->
  getResourceTypeFromImport importFeature = Some style.
Proof.
  unfold getResourceTypeFromImport. intros [-> | ->]; simpl;
    [|rewrite orb_true_r]; reflexivity.
Qed.

(** ** Resolution of one entry *)

Module ObjMore.
Import Obj ObjFacts.

Lemma define_In {V} (o : t V) (k k' : string) (v v' : V) :
  In (k, v) (define o k' v') -> (k, v) = (k', v') \/ In (k, v) o.
Proof.
  induction o as [|[k0 v0] o IH]; simpl.
  - intuition.
  - destruct (String.eqb k' k0); [simpl; intuition|].
    destruct (key_before k' k0); simpl; intuition.
Qed.

Lemma set_In {V} (o : t V) (k k' : string) (v v' : V) :
  In (k, v) (set o k' v') -> (k, v) = (k', v') \/ In (k, v) o.
Proof.
  unfold set. destruct (String.eqb k' "__proto__"); [auto|].
  apply define_In.
Qed.

Lemma Forall_set {V} (P : string * V -> Prop) (o : t V) (k : string) (v : V) :
  P (k, v) -> Forall P o -> Forall P (set o k v).
Proof.
  intros Hv Ho. rewrite Forall_forall in *. intros [k0 v0] Hin.
  apply set_In in Hin. destruct Hin as [->|Hin]; auto.
Qed.

Lemma rekey_wf {V W} (rename : string -> string) (f : V -> W)
      (o : t V) (acc : t W) :
  wf acc -> wf (rekey rename f o acc).
Proof.
  unfold rekey. revert acc. induction o as [|[k v] o IH]; simpl; auto.
  intros acc Hacc. apply IH, wf_set, Hacc.
Qed.

Lemma rekey_Forall {V W} (rename : string -> string) (f : V -> W)
      (P : V -> Prop) (Q : string * W -> Prop) (o : t V) (acc : t W) :
  (forall k v, P v -> Q (rename k, f v)) ->
  Forall (fun kv => P (snd kv)) o -> Forall Q acc ->
  Forall Q (rekey rename f o acc).
Proof.
  intros HPQ. unfold rekey. revert acc.
  induction o as [|[k v] o IH]; simpl; auto.
  intros acc Ho Hacc. inversion Ho; subst.
  apply IH; [assumption|]. apply Forall_set; auto.
Qed.

End ObjMore.

Lemma truthy_read {V} (o : Obj.t V) (k : string) :
  truthy (Obj.read o k)
  = match Obj.get o k with
    | Some _ => true
    | None => Obj.inherited k
    end.
Proof.
  unfold Obj.read. destruct (Obj.get o k); [reflexivity|].
  destruct (Obj.inherited k); reflexivity.
Qed.

Lemma inherited_proto (k : string) :
  Obj.inherited k = false -> k <> "__proto__".
Proof. intros H ->. discriminate. Qed.

Lemma addImport_wf (ignoreUrls : option (list string))
      (entries : PushManifestEntryCollection) (analyzedImport : Import) :
  Obj.wf entries -> Obj.wf (addImport ignoreUrls entries analyzedImport).
Proof.
  intros H. unfold addImport.
  destruct (_ && _); [apply ObjFacts.wf_set|]; exact H.
Qed.

Lemma resolve_wf (ignoreUrls : option (list string))
      (analyzedImports : list Import) (entries : PushManifestEntryCollection) :
  Obj.wf entries ->
  Obj.wf (fold_left (addImport ignoreUrls) analyzedImports entries).
Proof.
  revert entries. induction analyzedImports as [|i l IH]; simpl; auto.
  intros entries H. apply IH, addImport_wf, H.
Qed.

(** What the loop leaves under a URL: what was there already, else nothing
    for an ignored URL, else the entry of the first import of that URL. *)
Lemma resolve_get (ignoreUrls : option (list string))
      (analyzedImports : list Import) (entries : PushManifestEntryCollection)
      (target : string) :
  Obj.get (fold_left (addImport ignoreUrls) analyzedImports entries) target
  = match Obj.get entries target with
    | Some e => Some e
    | None =>
        if shouldIgnoreFile ignoreUrls target || Obj.inherited target
        then None
        else option_map createPushEntryFromImport
                        (firstImportOf target analyzedImports)
    end.
Proof.
  revert entries. induction analyzedImports as [|i l IH]; simpl; intros entries.
  - destruct (Obj.get entries target),
      (shouldIgnoreFile ignoreUrls target || Obj.inherited target);
      reflexivity.
  - rewrite IH. unfold addImport. rewrite truthy_read.
    destruct (String.eqb_spec (url i) target) as [Heq|Hne].
    + rewrite Heq.
      destruct (Obj.get entries target) eqn:Hget; simpl.
      * rewrite andb_false_r, Hget. reflexivity.
      * destruct (shouldIgnoreFile ignoreUrls target) eqn:Hign; simpl.
        -- rewrite Hget. reflexivity.
        -- destruct (Obj.inherited target) eqn:Hin; simpl.
           ++ rewrite Hget. reflexivity.
           ++ rewrite ObjFacts.get_set_same by (apply inherited_proto, Hin).
              reflexivity.
    + destruct (_ && _); [|reflexivity].
      rewrite ObjFacts.get_set.
      destruct (String.eqb (url i) "__proto__"); [reflexivity|].
      destruct (String.eqb_spec target (url i)); [congruence|reflexivity].
Qed.

Lemma resolve_weight (ignoreUrls : option (list string))
      (analyzedImports : list Import) (entries : PushManifestEntryCollection) :
  Forall (fun ke => weight (snd ke) = Some 1%Z) entries ->
  Forall (fun ke => weight (snd ke) = Some 1%Z)
         (fold_left (addImport ignoreUrls) analyzedImports entries).
Proof.
  revert entries. induction analyzedImports as [|i l IH]; simpl; auto.
  intros entries H. apply IH. unfold addImport.
  destruct (_ && _); [|exact H].
  apply ObjMore.Forall_set; [reflexivity | exact H].
Qed.

Lemma resolve_Ok (analyzer : Analyzer) (url : string)
      (ignoreUrls : option (list string)) (c : PushManifestEntryCollection) :
  generatePushManifestEntryForUrl analyzer url ignoreUrls = Ok c ->
  exists analyzedImports,
    analyzer url = IsDocument analyzedImports
    /\ c = fold_left (addImport ignoreUrls) analyzedImports Obj.empty.
Proof.
  unfold generatePushManifestEntryForUrl.
  destruct (analyzer url) as [l| |]; try discriminate.
  intros H. injection H as <-. eauto.
Qed.

Lemma resolve_Ok_wf (analyzer : Analyzer) (url : string)
      (ignoreUrls : option (list string)) (c : PushManifestEntryCollection) :
  generatePushManifestEntryForUrl analyzer url ignoreUrls = Ok c -> Obj.wf c.
Proof.
  intros H. apply resolve_Ok in H. destruct H as (l & _ & ->).
  apply resolve_wf, ObjFacts.wf_nil.
Qed.

Lemma resolve_Ok_weight (analyzer : Analyzer) (url : string)
      (ignoreUrls : option (list string)) (c : PushManifestEntryCollection) :
  generatePushManifestEntryForUrl analyzer url ignoreUrls = Ok c ->
  Forall (fun ke => weight (snd ke) = Some 1%Z) c.
Proof.
  intros H. apply resolve_Ok in H. destruct H as (l & _ & ->).
  apply resolve_weight. constructor.
Qed.

(** C6, as the code has it: when the analyzed imports of an entry point to
    a URL that is not in the ignore list and is not the name of a member of
    [Object.prototype], once or several times, the resolution succeeds, its
    collection has exactly one entry under that URL, and that entry carries
    the classification of the first of those imports, with weight 1. *)
Theorem first_import_wins (analyzer : Analyzer) (url : string)
        (ignoreUrls : option (list string)) (analyzedImports : list Import)
        (target : string) (first : Import) :
  analyzer url = IsDocument analyzedImports ->
  firstImportOf target analyzedImports = Some first ->
  shouldIgnoreFile ignoreUrls target = false ->
  Obj.inherited target = false ->
  exists entries,
    generatePushManifestEntryForUrl analyzer url ignoreUrls = Ok entries
    /\ count_occ string_dec (Obj.keys entries) target = 1
    /\ Obj.get entries target
       = Some {| type := getResourceTypeFromImport first;
                 weight := Some 1%Z |}.
Proof.
  intros Hdoc Hfirst Hign Hown.
  exists (fold_left (addImport ignoreUrls) analyzedImports Obj.empty).
  assert (Hget : Obj.get (fold_left (addImport ignoreUrls) analyzedImports
                                    Obj.empty) target
                 = Some (createPushEntryFromImport first)).
  { rewrite resolve_get. simpl. rewrite Hign, Hown, Hfirst. reflexivity. }
  split; [|split].
  - unfold generatePushManifestEntryForUrl. rewrite Hdoc. reflexivity.
  - apply NoDup_count_occ'.
    + apply ObjFacts.wf_NoDup, resolve_wf, ObjFacts.wf_nil.
    + eapply ObjFacts.get_Some_keys, Hget.
  - exact Hget.
Qed.

Lemma first_import_wins_sample :
  exists entries,
    generatePushManifestEntryForUrl Sample.loaded "view.html" None
    = Ok entries
    /\ count_occ string_dec (Obj.keys entries) "polymer.html" = 1
    /\ Obj.get entries "polymer.html"
       = Some {| type := Some document; weight := Some 1%Z |}.
Proof.
  apply (first_import_wins Sample.loaded "view.html" None
           [ Sample.edge "polymer.html" ["html-import"];
             Sample.edge "shell.html" ["html-import"];
             Sample.edge "view.css" ["css-import"];
             Sample.edge "polymer.html" ["html-script"] ]
           "polymer.html"
           (Sample.edge "polymer.html" ["html-import"]));
    reflexivity.
Defined.

(** Two imports of a URL that is in the ignore list leave no entry for
    it. *)
Lemma ignored_duplicates_leave_no_entry :
  Sample.loaded "view.html"
  = IsDocument [ Sample.edge "polymer.html" ["html-import"];
                 Sample.edge "shell.html" ["html-import"];
                 Sample.edge "view.css" ["css-import"];
                 Sample.edge "polymer.html" ["html-script"] ]
  /\ generatePushManifestEntryForUrl
       Sample.loaded "view.html"
       (Some ["shell.html"; "polymer.html"; "shell.js"])
     = Ok [("view.css", Sample.entry style)]
  /\ count_occ string_dec (Obj.keys [("view.css", Sample.entry style)])
               "polymer.html" <> 1.
Proof. repeat split. discriminate. Qed.

(** An ignored URL never gets an entry. *)
Lemma ignored_import_has_no_entry (analyzer : Analyzer) (url : string)
      (ignoreUrls : option (list string)) (target : string)
      (entries : PushManifestEntryCollection) :
  generatePushManifestEntryForUrl analyzer url ignoreUrls = Ok entries ->
  shouldIgnoreFile ignoreUrls target = true ->
  Obj.get entries target = None.
Proof.
  intros H Hign. apply resolve_Ok in H. destruct H as (l & _ & ->).
  rewrite resolve_get. simpl. rewrite Hign. reflexivity.
Qed.

(** C10. When the analyzer's result for the URL is not a [Document], and
    it is [undefined] or a descriptor whose message is missing or empty,
    the error thrown reads "Unable to get document <url>: unknown". *)
Theorem unknown_failure_message (analyzer : Analyzer) (url : string)
        (ignoreUrls : option (list string)) :
  analyzer url = IsUndefined
  \/ analyzer url = IsWarning None
  \/ analyzer url = IsWarning (Some "") ->
  generatePushManifestEntryForUrl analyzer url ignoreUrls
  = Throw ("Unable to get document " ++ url ++ ": unknown").
Proof.
  unfold generatePushManifestEntryForUrl.
  intros [-> | [-> | ->]]; reflexivity.
Qed.

Lemma unknown_failure_message_sample :
  generatePushManifestEntryForUrl Sample.loaded "manifest.json" None
  = Throw "Unable to get document manifest.json: unknown".
Proof.
  apply (unknown_failure_message Sample.loaded "manifest.json" None).
  left. reflexivity.
Defined.

(** ** The manifest before normalization *)

Lemma resolve_fails (analyzer : Analyzer) (url : string)
      (ignoreUrls : option (list string)) :
  isDocument (analyzer url) = false ->
  generatePushManifestEntryForUrl analyzer url ignoreUrls
  = Throw ("Unable to get document " ++ url ++ ": "
             ++ failureMessage (analyzer url)).
Proof.
  unfold generatePushManifestEntryForUrl.
  destruct (analyzer url); [discriminate | reflexivity | reflexivity].
Qed.

Lemma resolve_succeeds (analyzer : Analyzer) (url : string)
      (ignoreUrls : option (list string)) :
  isDocument (analyzer url) = true ->
  exists entries,
    generatePushManifestEntryForUrl analyzer url ignoreUrls = Ok entries.
Proof.
  unfold generatePushManifestEntryForUrl.
  destruct (analyzer url); try discriminate. eauto.
Qed.

Lemma resolve_Ok_isDocument (analyzer : Analyzer) (url : string)
      (ignoreUrls : option (list string)) (c : PushManifestEntryCollection) :
  generatePushManifestEntryForUrl analyzer url ignoreUrls = Ok c ->
  isDocument (analyzer url) = true.
Proof.
  intros H. apply resolve_Ok in H. destruct H as (l & -> & _). reflexivity.
Qed.

(** With an ignore list, the collection is the one without it, less the
    ignored URLs. *)
Lemma resolve_ignoring (analyzer : Analyzer) (url : string)
      (ignoreUrls : list string) (all entries : PushManifestEntryCollection) :
  generatePushManifestEntryForUrl analyzer url None = Ok all ->
  generatePushManifestEntryForUrl analyzer url (Some ignoreUrls) = Ok entries ->
  forall target,
    Obj.get entries target
    = if existsb (String.eqb target) ignoreUrls then None
      else Obj.get all target.
Proof.
  intros Hall Hentries target.
  apply resolve_Ok in Hall. destruct Hall as (l & Hl & ->).
  apply resolve_Ok in Hentries. destruct Hentries as (l' & Hl' & ->).
  assert (l' = l) by congruence. subst l'.
  rewrite !resolve_get. simpl.
  destruct (existsb (String.eqb target) ignoreUrls); reflexivity.
Qed.

Lemma existsb_eqb_In (x : string) (l : list string) :
  existsb (String.eqb x) l = true <-> In x l.
Proof.
  rewrite existsb_exists. split.
  - intros (y & Hy & Heq). apply String.eqb_eq in Heq. congruence.
  - intros H. exists x. split; [exact H | apply String.eqb_refl].
Qed.


(** An ignore list that covers every import leaves nothing. *)
Lemma resolve_ignoring_all (analyzer : Analyzer) (url : string)
      (ignoreUrls : list string) (all : PushManifestEntryCollection) :
  generatePushManifestEntryForUrl analyzer url None = Ok all ->
  (forall target, In target (Obj.keys all) -> In target ignoreUrls) ->
  generatePushManifestEntryForUrl analyzer url (Some ignoreUrls) = Ok [].
Proof.
  intros Hall Hcover.
  destruct (resolve_succeeds analyzer url (Some ignoreUrls)) as (entries & He).
  { eapply resolve_Ok_isDocument, Hall. }
  rewrite He. f_equal.
  destruct entries as [|[k e] entries]; [reflexivity|]. exfalso.
  pose proof (resolve_ignoring _ _ _ _ _ Hall He k) as Hk.
  rewrite (ObjFacts.In_get _ _ e) in Hk;
    [| eapply resolve_Ok_wf, He | simpl; auto].
  destruct (existsb (String.eqb k) ignoreUrls) eqn:E; [discriminate|].
  symmetry in Hk. apply ObjFacts.get_Some_keys, Hcover in Hk.
  apply existsb_eqb_In in Hk. congruence.
Qed.

Section Manifest.

Variable urlFromPath : string -> string -> string.

(** What holds of the manifest and is kept by every assignment of a
    resolved fragment holds of the manifest after the loop. *)
Lemma addFragments_invariant (P : PushManifest -> Prop)
      (analyzer : Analyzer) (root : string) (ignoreUrls : list string) :
  (forall pushManifest fragment entries,
      P pushManifest ->
      generatePushManifestEntryForUrl
        analyzer (urlFromPath root fragment) (Some ignoreUrls) = Ok entries ->
      P (Obj.set pushManifest (urlFromPath root fragment) entries)) ->
  forall fragments pushManifest result,
    P pushManifest ->
    addFragments urlFromPath analyzer root ignoreUrls fragments pushManifest = Ok result ->
    P result.
Proof.
  intros Hstep fragments.
  induction fragments as [|f rest IH]; simpl; intros pm result HP H.
  - injection H as <-. exact HP.
  - destruct (generatePushManifestEntryForUrl _ _ _) as [c|e] eqn:Hc;
      simpl in H; [|discriminate].
    eapply IH; [|exact H]. apply Hstep; assumption.
Qed.

(** After the loop, a fragment URL other than "__proto__" holds the
    fragment's collection, and every other key what it held before. *)
Lemma addFragments_get (analyzer : Analyzer) (root : string)
      (ignoreUrls : list string) (fragments : list string)
      (pushManifest result : PushManifest) (key : string) :
  addFragments urlFromPath analyzer root ignoreUrls fragments pushManifest = Ok result ->
  Obj.get result key
  = if existsb (String.eqb key) (map (urlFromPath root) fragments)
       && negb (String.eqb key "__proto__")
    then match generatePushManifestEntryForUrl
                 analyzer key (Some ignoreUrls) with
         | Ok entries => Some entries
         | Throw _ => None
         end
    else Obj.get pushManifest key.
Proof.
  revert pushManifest. induction fragments as [|f rest IH]; simpl; intros pm H.
  - injection H as <-. reflexivity.
  - destruct (generatePushManifestEntryForUrl _ (urlFromPath root f) _)
      as [c|e] eqn:Hc; simpl in H; [|discriminate].
    rewrite (IH _ H), ObjFacts.get_set.
    destruct (String.eqb_spec key "__proto__") as [Hp|Hp]; simpl.
    + rewrite !andb_false_r.
      destruct (String.eqb_spec (urlFromPath root f) "__proto__") as [|Hf];
        [reflexivity|].
      destruct (String.eqb_spec key (urlFromPath root f)); [congruence|].
      reflexivity.
    + rewrite !andb_true_r.
      destruct (String.eqb_spec (urlFromPath root f) "__proto__") as [Hf|Hf].
      * destruct (String.eqb_spec key (urlFromPath root f)); [congruence|].
        reflexivity.
      * destruct (String.eqb_spec key (urlFromPath root f)) as [->|Hne];
          simpl; [|reflexivity].
        rewrite Hc. destruct (existsb _ _); reflexivity.
Qed.

Lemma addFragments_keys (analyzer : Analyzer) (root : string)
      (ignoreUrls : list string) (fragments : list string)
      (pushManifest result : PushManifest) (key : string) :
  addFragments urlFromPath analyzer root ignoreUrls fragments pushManifest = Ok result ->
  In key (Obj.keys result) <->
  In key (Obj.keys pushManifest)
  \/ (key <> "__proto__" /\ In key (map (urlFromPath root) fragments)).
Proof.
  revert pushManifest. induction fragments as [|f rest IH]; simpl; intros pm H.
  - injection H as <-. tauto.
  - destruct (generatePushManifestEntryForUrl _ (urlFromPath root f) _)
      as [c|e] eqn:Hc; simpl in H; [|discriminate].
    rewrite (IH _ H), ObjFacts.keys_set. intuition congruence.
Qed.

(** The loop stops at the first fragment without a document. *)
Lemma addFragments_fails (analyzer : Analyzer) (root : string)
      (ignoreUrls : list string) (fragments : list string)
      (pushManifest : PushManifest) (failing : string) :
  find (fun u => negb (isDocument (analyzer u)))
       (map (urlFromPath root) fragments) = Some failing ->
  addFragments urlFromPath analyzer root ignoreUrls fragments pushManifest
  = Throw ("Unable to get document " ++ failing ++ ": "
             ++ failureMessage (analyzer failing)).
Proof.
  revert pushManifest. induction fragments as [|f rest IH]; simpl;
    intros pm H; [discriminate|].
  destruct (isDocument (analyzer (urlFromPath root f))) eqn:Hdoc;
    simpl in H.
  - destruct (resolve_succeeds analyzer _ (Some ignoreUrls) Hdoc) as (c & ->).
    simpl. apply IH, H.
  - injection H as <-. rewrite resolve_fails by exact Hdoc. reflexivity.
Qed.

Lemma addFragments_succeeds (analyzer : Analyzer) (root : string)
      (ignoreUrls : list string) (fragments : list string)
      (pushManifest : PushManifest) :
  forallb (fun u => isDocument (analyzer u))
          (map (urlFromPath root) fragments) = true ->
  exists result,
    addFragments urlFromPath analyzer root ignoreUrls fragments pushManifest = Ok result.
Proof.
  revert pushManifest. induction fragments as [|f rest IH]; simpl;
    intros pm H; [eauto|].
  apply andb_true_iff in H. destruct H as [Hdoc Hrest].
  destruct (resolve_succeeds analyzer _ (Some ignoreUrls) Hdoc) as (c & ->).
  simpl. apply IH, Hrest.
Qed.

(** [rawPushManifest], unfolded. *)
Lemma rawPushManifest_eq (this : AddPushManifest) :
  rawPushManifest urlFromPath this
  = bind (generatePushManifestEntryForUrl
            (currentAnalyzer this) (absoluteShellUrl urlFromPath this) None)
         (fun entries =>
            addFragments urlFromPath (currentAnalyzer this)
                         (root (config this))
                         (absoluteShellUrl urlFromPath this
                            :: Obj.keys entries)
                         (fragments (config this))
                         (Obj.set Obj.empty
                                  (absoluteShellUrl urlFromPath this)
                                  entries)).
Proof. reflexivity. Qed.

End Manifest.

(** ** Paths *)

Module JoinFacts.
Import Path.

#[local] Arguments String.eqb : simpl never.

Lemma strip_leading_slashes_relative (s : string) :
  starts_with_slash (strip_leading_slashes s) = false.
Proof.
  induction s as [|c s IH]; simpl; [reflexivity|].
  destruct (is_slash c) eqn:E; [exact IH | simpl; exact E].
Qed.

Lemma strip_leading_slashes_id (s : string) :
  starts_with_slash s = false -> strip_leading_slashes s = s.
Proof. destruct s as [|c s]; simpl; [reflexivity | intros ->; reflexivity]. Qed.

Lemma append_nil_r (s : string) : s ++ "" = s.
Proof. induction s; simpl; congruence. Qed.

Lemma append_assoc (a b c : string) : (a ++ b) ++ c = a ++ (b ++ c).
Proof. induction a; simpl; congruence. Qed.

Lemma kept_dots (res : list string) :
  forallb (String.eqb "..") res = true -> kept res = true.
Proof.
  induction res as [|s res IH]; simpl; [reflexivity|].
  rewrite andb_true_iff. intros [Hs Hres].
  rewrite String.eqb_sym, Hs. exact Hres.
Qed.

Lemma kept_below (top : string) (below : list string) :
  kept (top :: below) = true -> kept below = true.
Proof.
  simpl. destruct (String.eqb top "..").
  - apply kept_dots.
  - rewrite andb_true_iff. tauto.
Qed.

Lemma kept_segments (res : list string) :
  kept res = true -> forallb segment res = true.
Proof.
  induction res as [|s res IH]; simpl; [reflexivity|].
  destruct (String.eqb_spec s "..") as [->|Hs].
  - intros H. rewrite IH by (apply kept_dots, H). reflexivity.
  - rewrite !andb_true_iff. intuition.
Qed.

Lemma normalize_step_kept (allow : bool) (res : list string) (seg : string) :
  no_slash seg = true -> kept res = true ->
  kept (normalize_step allow res seg) = true.
Proof.
  intros Hseg Hres. unfold normalize_step.
  destruct (String.eqb_spec seg "") as [->|Hne]; [exact Hres|].
  destruct (String.eqb_spec seg ".") as [->|Hdot]; [exact Hres|]. simpl.
  destruct (String.eqb_spec seg "..") as [->|Hdots].
  - destruct res as [|top below]; [destruct allow; reflexivity|].
    destruct (String.eqb top "..") eqn:Htop.
    + destruct allow; [|exact Hres].
      simpl. rewrite String.eqb_sym, Htop. simpl.
      simpl in Hres. rewrite Htop in Hres. exact Hres.
    + eapply kept_below, Hres.
  - simpl. destruct (String.eqb_spec seg ".."); [contradiction|].
    unfold segment. rewrite Hseg, Hres.
    destruct (String.eqb_spec seg ""); [contradiction|].
    destruct (String.eqb_spec seg "."); [contradiction|]. reflexivity.
Qed.

Lemma split_slash_no_slash (p : string) :
  forallb no_slash (split_slash p) = true.
Proof.
  induction p as [|c p IH]; simpl; [reflexivity|].
  destruct (is_slash c) eqn:E; simpl; [exact IH|].
  destruct (split_slash p) as [|seg segs]; simpl in *.
  - rewrite E. reflexivity.
  - rewrite E. exact IH.
Qed.

Lemma fold_normalize_step_kept (allow : bool) (segs res : list string) :
  forallb no_slash segs = true -> kept res = true ->
  kept (fold_left (normalize_step allow) segs res) = true.
Proof.
  revert res. induction segs as [|seg segs IH]; simpl; auto.
  intros res Hsegs Hres. apply andb_true_iff in Hsegs.
  apply IH; [tauto|]. apply normalize_step_kept; tauto.
Qed.

Lemma normalize_segments_kept (allow : bool) (p : string) :
  kept (rev (normalize_segments allow p)) = true.
Proof.
  unfold normalize_segments. rewrite rev_involutive.
  apply fold_normalize_step_kept; [apply split_slash_no_slash | reflexivity].
Qed.

(** Normalizing the segments of a kept stack again, going above the root
    allowed, rebuilds the stack. *)
Lemma replay (res : list string) :
  kept res = true ->
  fold_left (normalize_step true) (rev res) [] = res.
Proof.
  induction res as [|top below IH]; simpl; [reflexivity|].
  intros H. rewrite fold_left_app. simpl.
  rewrite IH by (eapply kept_below; simpl; exact H).
  unfold normalize_step.
  destruct (String.eqb_spec top "..") as [->|Hne].
  - simpl. destruct below as [|b below]; [reflexivity|].
    simpl in H. apply andb_true_iff in H. destruct H as [Hb _].
    rewrite String.eqb_sym, Hb. reflexivity.
  - apply andb_true_iff in H. destruct H as [Hseg _].
    unfold segment in Hseg. rewrite !andb_true_iff, !negb_true_iff in Hseg.
    destruct Hseg as [[_ -> ] ->]. reflexivity.
Qed.

Lemma split_slash_single (s : string) :
  no_slash s = true -> split_slash s = [s].
Proof.
  induction s as [|c s IH]; simpl; [reflexivity|].
  rewrite andb_true_iff, negb_true_iff. intros [-> Hs].
  rewrite IH by exact Hs. reflexivity.
Qed.

Lemma split_slash_app (s r : string) :
  no_slash s = true ->
  split_slash (s ++ String slash r) = s :: split_slash r.
Proof.
  induction s as [|c s IH]; simpl; [reflexivity|].
  rewrite andb_true_iff, negb_true_iff. intros [-> Hs].
  rewrite IH by exact Hs. reflexivity.
Qed.

Lemma concat_cons2 (s s' : string) (r : list string) :
  String.concat "/" (s :: s' :: r)
  = s ++ String slash (String.concat "/" (s' :: r)).
Proof. reflexivity. Qed.

Lemma split_slash_concat (segs : list string) :
  segs <> [] -> forallb no_slash segs = true ->
  split_slash (String.concat "/" segs) = segs.
Proof.
  induction segs as [|s segs IH]; [contradiction|]. intros _ H.
  cbn [forallb] in H. apply andb_true_iff in H. destruct H as [Hs Hsegs].
  destruct segs as [|s' r].
  - apply split_slash_single, Hs.
  - rewrite concat_cons2, split_slash_app by exact Hs.
    rewrite IH by (discriminate || exact Hsegs). reflexivity.
Qed.

Lemma split_slash_concat_trailing (segs : list string) :
  segs <> [] -> forallb no_slash segs = true ->
  split_slash (String.concat "/" segs ++ "/") = (segs ++ [""])%list.
Proof.
  induction segs as [|s segs IH]; [contradiction|]. intros _ H.
  cbn [forallb] in H. apply andb_true_iff in H. destruct H as [Hs Hsegs].
  destruct segs as [|s' r].
  - change (String.concat "/" [s] ++ "/") with (s ++ String slash "").
    rewrite split_slash_app by exact Hs. reflexivity.
  - rewrite concat_cons2, append_assoc.
    change (String slash (String.concat "/" (s' :: r)) ++ "/")
      with (String slash (String.concat "/" (s' :: r) ++ "/")).
    rewrite split_slash_app by exact Hs.
    rewrite IH by (discriminate || exact Hsegs). reflexivity.
Qed.

Lemma segment_head (s : string) :
  segment s = true ->
  exists c rest, s = String c rest /\ is_slash c = false.
Proof.
  unfold segment. rewrite !andb_true_iff, !negb_true_iff.
  intros [[Hs Hne] _]. destruct s as [|c rest]; [discriminate|].
  simpl in Hs. rewrite andb_true_iff, negb_true_iff in Hs.
  exists c, rest. tauto.
Qed.

Lemma segment_no_slash (s : string) : segment s = true -> no_slash s = true.
Proof. unfold segment. rewrite !andb_true_iff. tauto. Qed.

Lemma segments_no_slash (segs : list string) :
  forallb segment segs = true -> forallb no_slash segs = true.
Proof.
  induction segs as [|s segs IH]; simpl; [reflexivity|].
  rewrite !andb_true_iff. intros [Hs Hsegs].
  split; [apply segment_no_slash, Hs | auto].
Qed.

Lemma concat_head (segs : list string) :
  segs <> [] -> forallb segment segs = true ->
  exists c rest,
    String.concat "/" segs = String c rest /\ is_slash c = false.
Proof.
  destruct segs as [|s segs]; [contradiction|]. intros _ H.
  cbn [forallb] in H. apply andb_true_iff in H. destruct H as [Hs _].
  destruct (segment_head s Hs) as (c & rest & -> & Hc).
  destruct segs as [|s' r].
  - exists c, rest. split; [reflexivity | exact Hc].
  - rewrite concat_cons2. simpl. eauto.
Qed.

Lemma ends_with_slash_cons (c : ascii) (s : string) :
  s <> "" -> ends_with_slash (String c s) = ends_with_slash s.
Proof. destruct s; [contradiction | reflexivity]. Qed.

Lemma ends_with_slash_app (a b : string) :
  b <> "" -> ends_with_slash (a ++ b) = ends_with_slash b.
Proof.
  intros Hb. induction a as [|c a IH]; [reflexivity|].
  change (String c a ++ b) with (String c (a ++ b)).
  rewrite ends_with_slash_cons; [exact IH|].
  destruct a; [exact Hb | discriminate].
Qed.

Lemma ends_with_slash_no_slash (s : string) :
  no_slash s = true -> ends_with_slash s = false.
Proof.
  induction s as [|c s IH]; [reflexivity|].
  cbn [no_slash]. rewrite andb_true_iff, negb_true_iff. intros [Hc Hs].
  destruct s; [exact Hc | apply IH, Hs].
Qed.

Lemma ends_with_slash_concat (segs : list string) :
  segs <> [] -> forallb segment segs = true ->
  ends_with_slash (String.concat "/" segs) = false.
Proof.
  induction segs as [|s segs IH]; [contradiction|]. intros _ H.
  pose proof H as Hall.
  cbn [forallb] in H. apply andb_true_iff in H. destruct H as [Hs Hsegs].
  destruct segs as [|s' r].
  - apply ends_with_slash_no_slash, segment_no_slash, Hs.
  - rewrite concat_cons2, ends_with_slash_app by discriminate.
    destruct (concat_head (s' :: r)) as (c & rest & Heq & _);
      [discriminate | exact Hsegs |].
    rewrite ends_with_slash_cons by (rewrite Heq; discriminate).
    apply IH; [discriminate | exact Hsegs].
Qed.

Lemma relative_text_head (segs : list string) (trailing : bool) :
  segs <> [] -> forallb segment segs = true ->
  exists c rest,
    relative_text segs trailing = String c rest /\ is_slash c = false.
Proof.
  intros Hne H. destruct (concat_head segs Hne H) as (c & rest & Heq & Hc).
  unfold relative_text. rewrite Heq. simpl. eauto.
Qed.

(** [path.posix.normalize] leaves a normalized relative path as it is. *)
Lemma normalize_relative_text (segs : list string) (trailing : bool) :
  segs <> [] -> kept (rev segs) = true ->
  Path.normalize (relative_text segs trailing) = relative_text segs trailing.
Proof.
  intros Hne Hkept.
  assert (Hsegs : forallb segment segs = true).
  { rewrite <- (rev_involutive segs), PathFacts.forallb_rev.
    apply kept_segments, Hkept. }
  destruct (relative_text_head segs trailing Hne Hsegs)
    as (c & rest & Heq & Hc).
  destruct (concat_head segs Hne Hsegs) as (c' & rest' & Heq' & _).
  assert (Hsplit : fold_left (normalize_step true)
                             (split_slash (relative_text segs trailing)) []
                   = rev segs).
  { unfold relative_text. destruct trailing.
    - rewrite split_slash_concat_trailing
        by (exact Hne || apply segments_no_slash, Hsegs).
      rewrite fold_left_app. simpl.
      rewrite <- (rev_involutive segs) at 1. rewrite replay by exact Hkept.
      reflexivity.
    - rewrite append_nil_r, split_slash_concat
        by (exact Hne || apply segments_no_slash, Hsegs).
      rewrite <- (rev_involutive segs) at 1. apply replay, Hkept. }
  assert (Htrail : ends_with_slash (relative_text segs trailing) = trailing).
  { unfold relative_text. destruct trailing.
    - apply ends_with_slash_app. discriminate.
    - rewrite append_nil_r. apply ends_with_slash_concat; assumption. }
  assert (Hstart : starts_with_slash (relative_text segs trailing) = false)
    by (rewrite Heq; exact Hc).
  assert (Hfull : String.eqb (relative_text segs trailing) "" = false)
    by (rewrite Heq; reflexivity).
  unfold Path.normalize. rewrite Hfull, Hstart, Htrail. cbn [negb].
  unfold normalizeString, normalize_segments. rewrite Hsplit, rev_involutive.
  rewrite Heq'. replace (String.eqb (String c' rest') "") with false
    by reflexivity.
  rewrite <- Heq'. reflexivity.
Qed.

End JoinFacts.

(** ** Normalization of URLs *)

Module NormalizeFacts.
Import JoinFacts.

#[local] Arguments String.eqb : simpl never.

Lemma join_one (p : string) : Path.join [""; p] = Path.normalize p.
Proof.
  unfold Path.join. cbn [filter].
  replace (String.eqb "" "") with true by reflexivity. cbn [negb].
  destruct (String.eqb_spec p "") as [->|Hne]; reflexivity.
Qed.

(** What [normalize] makes of a URL under the empty base path. *)
Lemma normalize_shape (p : string) :
  normalize "" p = ""
  \/ normalize "" p = "."
  \/ normalize "" p = "./"
  \/ exists segs trailing,
      segs <> [] /\ Path.kept (rev segs) = true
      /\ normalize "" p = Path.relative_text segs trailing.
Proof.
  unfold normalize. rewrite join_one. unfold Path.normalize.
  destruct (String.eqb_spec p "") as [->|Hp]; [right; left; reflexivity|].
  unfold Path.normalizeString.
  pose proof (normalize_segments_kept (negb (starts_with_slash p)) p) as Hk.
  destruct (Path.normalize_segments (negb (starts_with_slash p)) p)
    as [|s segs] eqn:Hsegs.
  - replace (String.eqb (String.concat "/" []) "") with true by reflexivity.
    destruct (starts_with_slash p); [left; reflexivity|].
    destruct (ends_with_slash p); [right; right; left | right; left];
      reflexivity.
  - right; right; right. exists (s :: segs), (ends_with_slash p).
    assert (Hall : forallb Path.segment (s :: segs) = true).
    { rewrite <- (rev_involutive (s :: segs)), PathFacts.forallb_rev.
      apply kept_segments, Hk. }
    destruct (concat_head (s :: segs)) as (c & rest & Heq & Hc);
      [discriminate | exact Hall |].
    destruct (relative_text_head (s :: segs) (ends_with_slash p))
      as (c' & rest' & Heq' & Hc'); [discriminate | exact Hall |].
    split; [discriminate|]. split; [exact Hk|].
    rewrite Heq. replace (String.eqb (String c rest) "") with false
      by reflexivity.
    rewrite <- Heq. fold (Path.relative_text (s :: segs) (ends_with_slash p)).
    destruct (starts_with_slash p).
    + change ("/" ++ Path.relative_text (s :: segs) (ends_with_slash p))
        with (String slash (Path.relative_text (s :: segs) (ends_with_slash p))).
      cbn [strip_leading_slashes].
      replace (is_slash slash) with true by reflexivity.
      apply strip_leading_slashes_id. rewrite Heq'. exact Hc'.
    + apply strip_leading_slashes_id.
      change ("" ++ Path.relative_text (s :: segs) (ends_with_slash p))
        with (Path.relative_text (s :: segs) (ends_with_slash p)).
      rewrite Heq'. exact Hc'.
Qed.

(** Under the empty base path, a URL that normalization does not empty is
    normalized for good. *)
Lemma normalize_twice (p : string) :
  normalize "" p <> "" ->
  normalize "" (normalize "" p) = normalize "" p.
Proof.
  intros Hne.
  destruct (normalize_shape p)
    as [H | [H | [H | (segs & trailing & Hsegs & Hk & H)]]];
    [contradiction | rewrite H; reflexivity | rewrite H; reflexivity |].
  rewrite H. unfold normalize at 1.
  rewrite join_one, normalize_relative_text by assumption.
  apply strip_leading_slashes_id.
  destruct (relative_text_head segs trailing Hsegs) as (c & rest & -> & Hc).
  - rewrite <- (rev_involutive segs), PathFacts.forallb_rev.
    apply kept_segments, Hk.
  - exact Hc.
Qed.

Lemma normalize_relative (basePath p : string) :
  starts_with_slash (normalize basePath p) = false.
Proof. apply strip_leading_slashes_relative. Qed.

End NormalizeFacts.


(** ** Copies of an object under renamed keys *)

Module RekeyFacts.
Import Obj ObjFacts ObjMore.

Lemma rekey_app {V W} (rename : string -> string) (f : V -> W)
      (o o' : t V) (acc : t W) :
  rekey rename f (o ++ o')%list acc
  = rekey rename f o' (rekey rename f o acc).
Proof. unfold rekey. apply fold_left_app. Qed.

Lemma rekey_In {V W} (rename : string -> string) (f : V -> W)
      (o : t V) (acc : t W) (s : string) (w : W) :
  In (s, w) (rekey rename f o acc) ->
  In (s, w) acc \/ exists k v, In (k, v) o /\ s = rename k /\ w = f v.
Proof.
  unfold rekey. revert acc. induction o as [|[k v] o IH]; simpl; auto.
  intros acc H. apply IH in H. destruct H as [H | (k' & v' & H & Hs & Hw)].
  - apply set_In in H. destruct H as [H | H]; [|auto].
    injection H as -> ->. right. exists k, v. auto.
  - right. exists k', v'. auto.
Qed.

Lemma rekey_keys {V W} (rename : string -> string) (f : V -> W)
      (o : t V) (acc : t W) (s : string) :
  In s (keys (rekey rename f o acc)) <->
  In s (keys acc) \/ (s <> "__proto__" /\ In s (map rename (keys o))).
Proof.
  unfold rekey. revert acc. induction o as [|[k v] o IH]; simpl; intros acc.
  - tauto.
  - rewrite IH, keys_set. intuition congruence.
Qed.

(** Keys renamed to something else leave a property alone. *)
Lemma rekey_get_other {V W} (rename : string -> string) (f : V -> W)
      (o : t V) (acc : t W) (s : string) :
  (forall k, In k (keys o) -> rename k <> s) ->
  get (rekey rename f o acc) s = get acc s.
Proof.
  unfold rekey. revert acc. induction o as [|[k v] o IH]; simpl; auto.
  intros acc H. rewrite IH by auto. rewrite get_set.
  destruct (String.eqb (rename k) "__proto__"); [reflexivity|].
  destruct (String.eqb_spec s (rename k)) as [->|]; [|reflexivity].
  exfalso. apply (H k); auto.
Qed.

(** The last key renamed to [s] decides what [s] holds. *)
Lemma rekey_get_last {V W} (rename : string -> string) (f : V -> W)
      (before after : t V) (k : string) (v : V) (acc : t W) :
  rename k <> "__proto__" ->
  (forall k', In k' (keys after) -> rename k' <> rename k) ->
  get (rekey rename f (before ++ (k, v) :: after)%list acc) (rename k)
  = Some (f v).
Proof.
  intros Hp H. rewrite rekey_app.
  change (rekey rename f ((k, v) :: after) (rekey rename f before acc))
    with (rekey rename f after
                (set (rekey rename f before acc) (rename k) (f v))).
  rewrite rekey_get_other by exact H. apply get_set_same, Hp.
Qed.

(** Nothing is ever held under "__proto__" by a copy that starts empty. *)
Lemma rekey_proto {V W} (rename : string -> string) (f : V -> W) (o : t V) :
  ~ In "__proto__" (keys (rekey rename f o empty)).
Proof. rewrite rekey_keys. simpl. tauto. Qed.

(** The last element of a list with a property that some element has. *)
Lemma last_such {A} (p : A -> bool) (l : list A) :
  (exists x, In x l /\ p x = true) ->
  exists before x after,
    l = (before ++ x :: after)%list /\ p x = true
    /\ forall y, In y after -> p y = false.
Proof.
  induction l as [|a l IH]; intros (x & Hin & Hx); [contradiction|].
  destruct (existsb p l) eqn:E.
  - apply existsb_exists in E. destruct (IH E) as (b & y & r & -> & Hy & Hr).
    exists (a :: b), y, r. auto.
  - exists [], a, l. split; [reflexivity|].
    assert (Hl : forall y, In y l -> p y = false).
    { intros y Hy. destruct (p y) eqn:Ey; [|reflexivity].
      assert (existsb p l = true) by (apply existsb_exists; eauto).
      congruence. }
    split; [|exact Hl].
    destruct Hin as [->|Hin]; [exact Hx|]. rewrite (Hl _ Hin) in Hx.
    discriminate.
Qed.

Lemma NoDup_map_injective {A B} (f : A -> B) (l : list A) (x y : A) :
  NoDup (map f l) -> In x l -> In y l -> f x = f y -> x = y.
Proof.
  induction l as [|a l IH]; simpl; [tauto|].
  intros Hnd Hx Hy Heq. inversion Hnd as [|? ? Hnotin Hnd']; subst.
  destruct Hx as [->|Hx], Hy as [->|Hy]; auto.
  - exfalso. apply Hnotin. rewrite Heq. apply in_map, Hy.
  - exfalso. apply Hnotin. rewrite <- Heq. apply in_map, Hx.
Qed.

(** Two keys renamed alike cost the copy a property. *)
Lemma rekey_shrinks {V W} (rename : string -> string) (f : V -> W)
      (o : t V) (k1 k2 : string) :
  In k1 (keys o) -> In k2 (keys o) -> k1 <> k2 -> rename k1 = rename k2 ->
  List.length (rekey rename f o empty) < List.length o.
Proof.
  intros H1 H2 Hne Heq.
  destruct (Nat.lt_ge_cases (List.length (rekey rename f o empty))
                            (List.length o))
    as [Hlt | Hge]; [exact Hlt | exfalso].
  apply Hne.
  apply (NoDup_map_injective rename (keys o)); auto.
  apply (NoDup_incl_NoDup (l := keys (rekey rename f o empty))).
  - apply wf_NoDup, rekey_wf, wf_nil.
  - unfold keys. rewrite !length_map. exact Hge.
  - intros s Hs. apply rekey_keys in Hs.
    destruct Hs as [Hs | [_ Hs]]; [contradiction | exact Hs].
Qed.

Lemma rekey_fixed {V W} (rename : string -> string) (f : V -> W) (o : t V) :
  wf o -> (forall k, In k (keys o) -> rename k = k) ->
  ~ In "__proto__" (keys o) ->
  rekey rename f o empty = map (fun kv => (fst kv, f (snd kv))) o.
Proof.
  intros Hwf Hfix Hno.
  assert (Hext : forall acc : t W,
             rekey rename f o acc
             = fold_left (fun a kv => set a (fst kv) (f (snd kv))) o acc).
  { unfold rekey. induction o as [|[k v] o IH]; simpl; auto.
    intros acc. rewrite (Hfix k) by (simpl; auto).
    apply IH.
    - unfold wf in *. simpl in Hwf. inversion Hwf; assumption.
    - intros k' Hk'. apply Hfix. simpl. auto.
    - intros Hk'. apply Hno. simpl. auto. }
  rewrite Hext. rewrite (rebuild f o empty); [reflexivity| |exact Hno].
  unfold wf, keys in *. simpl. rewrite map_map. simpl. exact Hwf.
Qed.

End RekeyFacts.

(** ** Normalization *)

Lemma normalizeTargets_rekey (basePath : string)
      (entries : PushManifestEntryCollection) :
  normalizeTargets basePath entries
  = Obj.rekey (normalize basePath) (fun entry => entry) entries Obj.empty.
Proof.
  unfold normalizeTargets, Obj.rekey.
  generalize (@Obj.empty PushManifestEntry) as acc.
  induction entries as [|[k e] entries IH]; simpl; auto.
Qed.

Lemma normalizeManifest_rekey (basePath : string) (pushManifest : PushManifest) :
  normalizeManifest basePath pushManifest
  = Obj.rekey (normalize basePath) (normalizeTargets basePath)
              pushManifest Obj.empty.
Proof.
  unfold normalizeManifest, Obj.rekey.
  generalize (@Obj.empty PushManifestEntryCollection) as acc.
  induction pushManifest as [|[k e] pm IH]; simpl; auto.
Qed.

Lemma normalizeTargets_wf (basePath : string)
      (entries : PushManifestEntryCollection) :
  Obj.wf (normalizeTargets basePath entries).
Proof.
  rewrite normalizeTargets_rekey. apply ObjMore.rekey_wf, ObjFacts.wf_nil.
Qed.

Lemma normalizeManifest_wf (basePath : string) (pushManifest : PushManifest) :
  Obj.wf (normalizeManifest basePath pushManifest).
Proof.
  rewrite normalizeManifest_rekey. apply ObjMore.rekey_wf, ObjFacts.wf_nil.
Qed.

Lemma normalizeTargets_keys (basePath : string)
      (entries : PushManifestEntryCollection) (target : string) :
  In target (Obj.keys (normalizeTargets basePath entries)) <->
  target <> "__proto__"
  /\ exists dependency,
      In dependency (Obj.keys entries)
      /\ normalize basePath dependency = target.
Proof.
  rewrite normalizeTargets_rekey, RekeyFacts.rekey_keys, in_map_iff.
  simpl. split.
  - intros [[] | (Hp & d & Hd & Hin)]. eauto.
  - intros (Hp & d & Hin & Hd). right. eauto.
Qed.

Lemma normalizeTargets_proto (basePath : string)
      (entries : PushManifestEntryCollection) :
  ~ In "__proto__" (Obj.keys (normalizeTargets basePath entries)).
Proof. rewrite normalizeTargets_rekey. apply RekeyFacts.rekey_proto. Qed.

Lemma normalizeManifest_proto (basePath : string)
      (pushManifest : PushManifest) :
  ~ In "__proto__" (Obj.keys (normalizeManifest basePath pushManifest)).
Proof. rewrite normalizeManifest_rekey. apply RekeyFacts.rekey_proto. Qed.

Lemma normalizeManifest_In (basePath : string) (pushManifest : PushManifest)
      (source : string) (targets : PushManifestEntryCollection) :
  In (source, targets) (normalizeManifest basePath pushManifest) ->
  exists key entries,
    In (key, entries) pushManifest
    /\ source = normalize basePath key
    /\ targets = normalizeTargets basePath entries.
Proof.
  rewrite normalizeManifest_rekey. intros H.
  apply RekeyFacts.rekey_In in H. destruct H as [[] | H]. exact H.
Qed.

Lemma map_fixed {A} (f : A -> A) (l : list A) :
  (forall x, In x l -> f x = x) -> map f l = l.
Proof.
  intros H. rewrite <- (map_id l) at 2. apply map_ext_in. exact H.
Qed.

(** Under the empty base path, normalized targets are normalized for
    good. *)
Lemma normalizeTargets_twice (entries : PushManifestEntryCollection) :
  (forall target, In target (Obj.keys entries) -> normalize "" target <> "") ->
  normalizeTargets "" (normalizeTargets "" entries)
  = normalizeTargets "" entries.
Proof.
  intros Hne.
  rewrite (normalizeTargets_rekey "" (normalizeTargets "" entries)).
  rewrite RekeyFacts.rekey_fixed.
  - apply map_fixed. intros [k e] _. reflexivity.
  - apply normalizeTargets_wf.
  - intros k Hk. apply normalizeTargets_keys in Hk.
    destruct Hk as (_ & d & Hd & <-).
    apply NormalizeFacts.normalize_twice. auto.
  - apply normalizeTargets_proto.
Qed.

(** C2, as the code has it: no key and no dependency URL of a normalized
    manifest begins with a slash, whatever the base path; and under the
    empty base path, normalizing again a manifest none of whose keys and
    dependency URLs is normalized to the empty string changes nothing. *)
Theorem normalizeManifest_relative_and_stable :
  (forall basePath pushManifest source targets,
      In (source, targets) (normalizeManifest basePath pushManifest) ->
      starts_with_slash source = false
      /\ forall target,
          In target (Obj.keys targets) -> starts_with_slash target = false)
  /\ (forall pushManifest,
         (forall source entries,
             In (source, entries) pushManifest ->
             normalize "" source <> ""
             /\ forall target,
                 In target (Obj.keys entries) -> normalize "" target <> "") ->
         normalizeManifest "" (normalizeManifest "" pushManifest)
         = normalizeManifest "" pushManifest).
Proof.
  split.
  - intros basePath pm source targets Hin.
    apply normalizeManifest_In in Hin.
    destruct Hin as (key & entries & _ & -> & ->). split.
    + apply NormalizeFacts.normalize_relative.
    + intros target Ht. apply normalizeTargets_keys in Ht.
      destruct Ht as (_ & d & _ & <-).
      apply NormalizeFacts.normalize_relative.
  - intros pm Hne.
    rewrite (normalizeManifest_rekey "" (normalizeManifest "" pm)).
    rewrite RekeyFacts.rekey_fixed.
    + apply map_fixed. intros [s c] Hin. simpl. f_equal.
      apply normalizeManifest_In in Hin.
      destruct Hin as (key & entries & Hin & _ & ->).
      apply normalizeTargets_twice. apply (proj2 (Hne _ _ Hin)).
    + apply normalizeManifest_wf.
    + intros k Hk. unfold Obj.keys in Hk. apply in_map_iff in Hk.
      destruct Hk as ([s c] & <- & Hin). simpl.
      apply normalizeManifest_In in Hin.
      destruct Hin as (key & entries & Hin & -> & _).
      apply NormalizeFacts.normalize_twice. apply (proj1 (Hne _ _ Hin)).
    + apply normalizeManifest_proto.
Qed.

Lemma normalizeManifest_relative_and_stable_sample :
  starts_with_slash "index.html" = false
  /\ normalizeManifest
       "" (normalizeManifest "" [("/index.html", Sample.twice)])
     = normalizeManifest "" [("/index.html", Sample.twice)].
Proof.
  split.
  - refine (proj1 (proj1 normalizeManifest_relative_and_stable
                         "" [("/index.html", Sample.twice)]
                         "index.html" [("a.css", Sample.entry document)] _)).
    vm_compute. left. reflexivity.
  - apply (proj2 normalizeManifest_relative_and_stable).
    intros source entries [H | []]. injection H as <- <-. split.
    + vm_compute. discriminate.
    + intros target [<- | [<- | []]]; vm_compute; discriminate.
Defined.

(** With a base path, each normalization puts the base path in front once
    more. *)
Lemma normalizeManifest_repeats_base_path :
  normalizeManifest "foo" Sample.small = [("foo/a", [])]
  /\ normalizeManifest "foo" (normalizeManifest "foo" Sample.small)
     = [("foo/foo/a", [])]
  /\ normalizeManifest "foo" (normalizeManifest "foo" Sample.small)
     <> normalizeManifest "foo" Sample.small.
Proof. repeat split. discriminate. Qed.

(** Under the empty base path, the root is normalized to the empty string,
    and the empty string to a dot. *)
Lemma normalize_root :
  normalize "" "/" = "" /\ normalize "" "" = "."
  /\ normalizeManifest "" (normalizeManifest "" [("/", [])])
     <> normalizeManifest "" [("/", [])].
Proof. repeat split. discriminate. Qed.

Module MergeFacts.
Import Obj ObjFacts ObjMore RekeyFacts.

(** What a copy under renamed keys holds under a name that two keys
    share. *)
Lemma rekey_merges {V W} (rename : string -> string) (f : V -> W)
      (o : t V) (k1 k2 s : string) :
  In k1 (keys o) -> In k2 (keys o) -> k1 <> k2 ->
  rename k1 = s -> rename k2 = s -> s <> "__proto__" ->
  count_occ string_dec (keys (rekey rename f o empty)) s = 1
  /\ (exists before last v after,
         o = (before ++ (last, v) :: after)%list
         /\ rename last = s
         /\ (forall k, In k (keys after) -> rename k <> s)
         /\ get (rekey rename f o empty) s = Some (f v))
  /\ List.length (rekey rename f o empty) < List.length o.
Proof.
  intros H1 H2 Hne Hs1 Hs2 Hp. split; [|split].
  - apply NoDup_count_occ'.
    + apply wf_NoDup, rekey_wf, wf_nil.
    + apply rekey_keys. right. split; [exact Hp|].
      rewrite <- Hs1. apply in_map, H1.
  - destruct (last_such (fun kv : string * V => String.eqb (rename (fst kv)) s)
                        o) as (before & [last v] & after & Ho & Hlast & Hafter).
    { unfold keys in H1. apply in_map_iff in H1.
      destruct H1 as ([k v] & <- & Hin). exists (k, v).
      split; [exact Hin | simpl; apply String.eqb_eq, Hs1]. }
    simpl in Hlast. apply String.eqb_eq in Hlast.
    exists before, last, v, after. split; [exact Ho|]. split; [exact Hlast|].
    assert (Hafter' : forall k, In k (keys after) -> rename k <> s).
    { intros k Hk. unfold keys in Hk. apply in_map_iff in Hk.
      destruct Hk as ([k' v'] & <- & Hin). apply Hafter in Hin.
      simpl in *. apply String.eqb_neq, Hin. }
    split; [exact Hafter'|].
    rewrite Ho, <- Hlast. apply rekey_get_last.
    + rewrite Hlast. exact Hp.
    + rewrite Hlast. exact Hafter'.
  - apply (rekey_shrinks rename f o k1 k2); congruence.
Qed.

(** A key that alone is renamed to its new name takes its value along. *)
Lemma rekey_get_alone {V W} (rename : string -> string) (f : V -> W)
      (o : t V) (k : string) (v : V) :
  wf o -> get o k = Some v ->
  rename k <> "__proto__" ->
  (forall k', In k' (keys o) -> rename k' = rename k -> k' = k) ->
  get (rekey rename f o empty) (rename k) = Some (f v).
Proof.
  intros Hwf Hget Hp Halone.
  apply get_Some_In in Hget. apply in_split in Hget.
  destruct Hget as (before & after & ->).
  apply rekey_get_last; [exact Hp|]. intros k' Hk' Heq.
  assert (k' = k).
  { apply Halone; [|exact Heq]. unfold keys. rewrite map_app, in_app_iff.
    right. simpl. right. exact Hk'. }
  subst k'. apply wf_NoDup in Hwf. unfold keys in Hwf.
  rewrite map_app in Hwf. simpl in Hwf. apply NoDup_remove_2 in Hwf.
  apply Hwf. rewrite in_app_iff. right. exact Hk'.
Qed.

End MergeFacts.

(** X18. When two distinct URLs of a dependency collection, or two distinct
    keys of a manifest, are normalized to the same string, and that string
    is not "__proto__", the normalized collection or manifest has exactly
    one property under that string; it holds the value of the last of the
    URLs normalized to that string, in the order in which the loop takes
    them; and the output has fewer properties than the input. *)
Theorem distinct_keys_merge_under_a_shared_name :
  (forall basePath (entries : PushManifestEntryCollection) k1 k2 s,
      In k1 (Obj.keys entries) -> In k2 (Obj.keys entries) -> k1 <> k2 ->
      normalize basePath k1 = s -> normalize basePath k2 = s ->
      s <> "__proto__" ->
      count_occ string_dec (Obj.keys (normalizeTargets basePath entries)) s
      = 1
      /\ (exists before last entry after,
             entries = (before ++ (last, entry) :: after)%list
             /\ normalize basePath last = s
             /\ (forall k, In k (Obj.keys after) -> normalize basePath k <> s)
             /\ Obj.get (normalizeTargets basePath entries) s = Some entry)
      /\ List.length (normalizeTargets basePath entries)
         < List.length entries)
  /\ (forall basePath (pushManifest : PushManifest) k1 k2 s,
         In k1 (Obj.keys pushManifest) -> In k2 (Obj.keys pushManifest) ->
         k1 <> k2 ->
         normalize basePath k1 = s -> normalize basePath k2 = s ->
         s <> "__proto__" ->
         count_occ string_dec
                   (Obj.keys (normalizeManifest basePath pushManifest)) s
         = 1
         /\ (exists before last entries after,
                pushManifest = (before ++ (last, entries) :: after)%list
                /\ normalize basePath last = s
                /\ (forall k,
                       In k (Obj.keys after) -> normalize basePath k <> s)
                /\ Obj.get (normalizeManifest basePath pushManifest) s
                   = Some (normalizeTargets basePath entries))
         /\ List.length (normalizeManifest basePath pushManifest)
            < List.length pushManifest).
Proof.
  split.
  - intros basePath entries k1 k2 s. rewrite normalizeTargets_rekey.
    apply MergeFacts.rekey_merges.
  - intros basePath pushManifest k1 k2 s. rewrite normalizeManifest_rekey.
    apply MergeFacts.rekey_merges.
Qed.

Lemma distinct_keys_merge_under_a_shared_name_sample :
  count_occ string_dec (Obj.keys (normalizeTargets "" Sample.twice)) "a.css"
  = 1
  /\ (exists before last entry after,
         Sample.twice = (before ++ (last, entry) :: after)%list
         /\ normalize "" last = "a.css"
         /\ (forall k, In k (Obj.keys after) -> normalize "" k <> "a.css")
         /\ Obj.get (normalizeTargets "" Sample.twice) "a.css" = Some entry)
  /\ List.length (normalizeTargets "" Sample.twice)
     < List.length Sample.twice.
Proof.
  apply (proj1 distinct_keys_merge_under_a_shared_name
               "" Sample.twice "/a.css" "a.css").
  - simpl. auto.
  - simpl. auto.
  - discriminate.
  - reflexivity.
  - reflexivity.
  - discriminate.
Defined.

(** C9, at the input on which the code departs from it: the two distinct
    URLs "/__proto__" and "//__proto__" of a dependency collection are both
    normalized to "__proto__" under the empty base path, and the normalized
    collection has no property under that string, where C9 has exactly one,
    holding the entry of "//__proto__".  The same holds of two such keys of
    a manifest.  The collection is the one resolved for a document that
    imports both URLs, and the manifest normalized from it has an empty
    collection for that document. *)
Theorem normalization_loses_the_proto_key :
  normalize "" "/__proto__" = "__proto__"
  /\ normalize "" "//__proto__" = "__proto__"
  /\ normalizeTargets "" Sample.hidden = []
  /\ count_occ string_dec (Obj.keys (normalizeTargets "" Sample.hidden))
               "__proto__" = 0
  /\ Obj.get (normalizeTargets "" Sample.hidden) "__proto__" = None
  /\ normalizeManifest
       "" [("/__proto__", Sample.hidden); ("//__proto__", Sample.twice)]
     = []
  /\ generatePushManifestEntryForUrl Sample.protoFile "index.html" None
     = Ok Sample.hidden
  /\ normalizeManifest "" [("index.html", Sample.hidden)]
     = [("index.html", [])].
Proof. repeat split. Qed.

(** ** The build *)

Section Build.

Variable urlFromPath : string -> string -> string.

Lemma addFragments_resolved (analyzer : Analyzer) (root : string)
      (ignoreUrls : list string) (fragments : list string)
      (pushManifest result : PushManifest) (fragment : string) :
  addFragments urlFromPath analyzer root ignoreUrls fragments pushManifest
  = Ok result ->
  In fragment fragments ->
  exists entries,
    generatePushManifestEntryForUrl
      analyzer (urlFromPath root fragment) (Some ignoreUrls) = Ok entries.
Proof.
  revert pushManifest. induction fragments as [|f rest IH]; simpl;
    intros pm H Hin; [contradiction|].
  destruct (generatePushManifestEntryForUrl _ (urlFromPath root f) _)
    as [c|e] eqn:Hc; simpl in H; [|discriminate].
  destruct Hin as [->|Hin]; [eauto|]. eapply IH; eauto.
Qed.

Lemma rawPushManifest_wf (this : AddPushManifest) (raw : PushManifest) :
  rawPushManifest urlFromPath this = Ok raw -> Obj.wf raw.
Proof.
  rewrite rawPushManifest_eq.
  destruct (generatePushManifestEntryForUrl _ _ None) as [c|e]; simpl;
    [|discriminate].
  apply (addFragments_invariant urlFromPath (fun pm => Obj.wf pm)).
  - intros pm f entries Hpm _. apply ObjFacts.wf_set, Hpm.
  - apply (ObjFacts.wf_set Obj.empty), ObjFacts.wf_nil.
Qed.

Lemma rawPushManifest_weight (this : AddPushManifest) (raw : PushManifest) :
  rawPushManifest urlFromPath this = Ok raw ->
  Forall (fun sc => Forall (fun ke => weight (snd ke) = Some 1%Z) (snd sc))
         raw.
Proof.
  rewrite rawPushManifest_eq.
  destruct (generatePushManifestEntryForUrl _ _ None) as [c|e] eqn:Hc; simpl;
    [|discriminate].
  apply (addFragments_invariant
           urlFromPath
           (Forall (fun sc : string * PushManifestEntryCollection =>
                      Forall (fun ke => weight (snd ke) = Some 1%Z) (snd sc)))).
  - intros pm f entries Hpm He. apply ObjMore.Forall_set; [|exact Hpm].
    simpl. eapply resolve_Ok_weight, He.
  - apply ObjMore.Forall_set; [|constructor].
    simpl. eapply resolve_Ok_weight, Hc.
Qed.

Lemma generatePushManifest_Ok (this : AddPushManifest)
      (pushManifest : PushManifest) :
  generatePushManifest urlFromPath this = Ok pushManifest ->
  exists raw,
    rawPushManifest urlFromPath this = Ok raw
    /\ pushManifest = normalizeManifest (basePath this) raw.
Proof.
  unfold generatePushManifest.
  destruct (rawPushManifest urlFromPath this) as [raw|e]; simpl;
    [|discriminate].
  intros H. injection H as <-. eauto.
Qed.


End Build.



(** ** The text of a manifest *)

Module ReaderFacts.
Import Reader.

#[local] Arguments String.eqb : simpl never.

Lemma expect_app (token s : string) : expect token (token ++ s) = Some s.
Proof.
  induction token as [|c token IH]; simpl; [destruct s; reflexivity|].
  rewrite Ascii.eqb_refl. exact IH.
Qed.

Lemma unquote_char (c : ascii) (rest : string) :
  unquote_body (JSON.quote_char c ++ rest) = prepend c (unquote_body rest).
Proof.
  destruct c as [[] [] [] [] [] [] [] []]; reflexivity.
Qed.

Lemma unquote_body_quote (s rest : string) :
  unquote_body (JSON.quote_body s ++ String dquote rest) = Some (s, rest).
Proof.
  induction s as [|c s IH].
  - reflexivity.
  - cbn [JSON.quote_body]. rewrite JoinFacts.append_assoc, unquote_char, IH.
    reflexivity.
Qed.

Lemma unquote_quote (k rest : string) :
  unquote (JSON.quote k ++ rest) = Some (k, rest).
Proof.
  unfold JSON.quote. cbn [append unquote].
  change (Ascii.eqb dquote dquote) with true. cbv iota.
  rewrite JoinFacts.append_assoc. apply unquote_body_quote.
Qed.

Lemma skip_spaces (indent s : string) :
  only_spaces indent = true -> skip (indent ++ s) = skip s.
Proof.
  unfold only_spaces. induction indent as [|c indent IH]; simpl;
    [reflexivity|].
  rewrite andb_true_iff. intros [Hc Hrest].
  apply Ascii.eqb_eq in Hc. subst c. apply IH, Hrest.
Qed.

Lemma skip_line (indent s : string) :
  only_spaces indent = true -> skip (String newline (indent ++ s)) = skip s.
Proof. intros H. cbn [skip]. change (is_space newline) with true. cbv iota. apply skip_spaces, H. Qed.

Lemma skip_quote (k s : string) :
  skip (JSON.quote k ++ s) = JSON.quote k ++ s.
Proof. reflexivity. Qed.

Lemma only_spaces_app (a b : string) :
  only_spaces a = true -> only_spaces b = true -> only_spaces (a ++ b) = true.
Proof.
  unfold only_spaces. rewrite PathFacts.chars_app, forallb_app.
  intros -> ->. reflexivity.
Qed.

Lemma length_append (a b : string) :
  String.length (a ++ b) = String.length a + String.length b.
Proof. induction a as [|c a IH]; simpl; [reflexivity|]. rewrite IH. reflexivity. Qed.

Section Properties.

Context {V : Type}.
Variable read_value : string -> string -> option (V * string).
Variable ser : V -> string.

Lemma concat_quoted (sep : string) (kv : string * V) (l : list (string * V)) :
  exists r,
    String.concat sep (map (prop_text ser) (kv :: l)) = String dquote r.
Proof.
  destruct l as [|kv' l]; simpl; unfold prop_text, JSON.property, JSON.quote;
    simpl; eauto.
Qed.

Lemma concat_length (sep : string) (l : list (string * V)) :
  List.length l <= String.length (String.concat sep (map (prop_text ser) l)).
Proof.
  induction l as [|kv l IH]; [simpl; lia|].
  destruct l as [|kv' l].
  - simpl. unfold prop_text, JSON.property, JSON.quote. simpl. lia.
  - change (String.concat sep (map (prop_text ser) (kv :: kv' :: l)))
      with (prop_text ser kv ++ sep
              ++ String.concat sep (map (prop_text ser) (kv' :: l))).
    rewrite !length_append.
    assert (1 <= String.length (prop_text ser kv))
      by (unfold prop_text, JSON.property, JSON.quote; simpl; lia).
    cbn [List.length] in *. lia.
Qed.

Lemma read_properties_text (l : list (string * V)) :
  (forall k v,
      In (k, v) l ->
      forall c r,
        c = ","%char \/ c = newline ->
        read_value k (ser v ++ String c r) = Some (v, String c r)) ->
  (forall k v, In (k, v) l -> forall x, skip (ser v ++ x) = ser v ++ x) ->
  l <> [] ->
  forall fuel inner outer rest,
    List.length l <= fuel ->
    only_spaces inner = true -> only_spaces outer = true ->
    read_properties
      read_value fuel
      (String.concat ("," ++ String newline inner) (map (prop_text ser) l)
         ++ String newline (outer ++ "}" ++ rest))
    = Some (l, rest).
Proof.
  induction l as [|[k v] l IH]; [contradiction|].
  intros Hread Hstart _ fuel inner outer rest Hfuel Hinner Houter.
  destruct fuel as [|fuel]; [simpl in Hfuel; lia|].
  assert (Hhead : forall x,
             read_properties read_value (S fuel) (prop_text ser (k, v) ++ x)
             = match read_value k (ser v ++ x) with
               | None => None
               | Some (v', s3) =>
                   match expect "," (skip s3) with
                   | Some s5 =>
                       match read_properties read_value fuel (skip s5) with
                       | Some (others, s6) => Some ((k, v') :: others, s6)
                       | None => None
                       end
                   | None =>
                       match expect "}" (skip s3) with
                       | Some s5 => Some ([(k, v')], s5)
                       | None => None
                       end
                   end
               end).
  { intros x. cbn [read_properties]. unfold prop_text, JSON.property.
    cbn [fst snd].
    rewrite !JoinFacts.append_assoc, unquote_quote.
    change (expect ":" (skip (": " ++ ser v ++ x)))
      with (Some (" " ++ ser v ++ x)).
    cbv iota beta.
    change (skip (" " ++ ser v ++ x)) with (skip (ser v ++ x)).
    rewrite (Hstart k v) by (simpl; auto).
    reflexivity. }
  destruct l as [|kv' l].
  - cbn [map String.concat]. rewrite Hhead.
    rewrite (Hread k v) by (simpl; auto).
    rewrite skip_line by exact Houter. reflexivity.
  - change (String.concat ("," ++ String newline inner)
                          (map (prop_text ser) ((k, v) :: kv' :: l)))
      with (prop_text ser (k, v)
              ++ ("," ++ String newline inner)
              ++ String.concat ("," ++ String newline inner)
                               (map (prop_text ser) (kv' :: l))).
    rewrite !JoinFacts.append_assoc, Hhead.
    change (("," ++ String newline inner)
              ++ String.concat ("," ++ String newline inner)
                               (map (prop_text ser) (kv' :: l))
              ++ String newline (outer ++ "}" ++ rest))
      with (String ","
                   (String newline
                           (inner
                              ++ String.concat
                                   ("," ++ String newline inner)
                                   (map (prop_text ser) (kv' :: l))
                              ++ String newline (outer ++ "}" ++ rest)))).
    cbn [append].
    rewrite (Hread k v) by (simpl; auto).
    change (skip (String "," ?x)) with (String "," x).
    cbn [expect]. change (Ascii.eqb "," ",") with true. cbv iota.
    rewrite skip_line by exact Hinner.
    destruct (concat_quoted ("," ++ String newline inner) kv' l) as (r & Hr).
    assert (Hskip : forall x,
               skip (String.concat ("," ++ String newline inner)
                                   (map (prop_text ser) (kv' :: l)) ++ x)
               = String.concat ("," ++ String newline inner)
                               (map (prop_text ser) (kv' :: l)) ++ x).
    { intros x. rewrite Hr. reflexivity. }
    rewrite Hskip.
    assert (E : read_properties
                  read_value fuel
                  (String.concat ("," ++ String newline inner)
                                 (map (prop_text ser) (kv' :: l))
                     ++ String newline (outer ++ "}" ++ rest))
                = Some (kv' :: l, rest)).
    { apply IH.
      - intros k0 v0 Hin. apply (Hread k0 v0). simpl in *. tauto.
      - intros k0 v0 Hin. apply (Hstart k0 v0). simpl in *. tauto.
      - discriminate.
      - simpl in *. lia.
      - exact Hinner.
      - exact Houter. }
    cbn [append] in E |- *. rewrite E. reflexivity.
Qed.

Lemma read_object_text (l : list (string * V)) (indent rest : string) :
  (forall k v,
      In (k, v) l ->
      forall c r,
        c = ","%char \/ c = newline ->
        read_value k (ser v ++ String c r) = Some (v, String c r)) ->
  (forall k v, In (k, v) l -> forall x, skip (ser v ++ x) = ser v ++ x) ->
  only_spaces indent = true ->
  read_object read_value (JSON.object indent (map (prop_text ser) l) ++ rest)
  = Some (l, rest).
Proof.
  intros Hread Hstart Hindent. destruct l as [|kv l]; [reflexivity|].
  assert (Htext : JSON.object indent (map (prop_text ser) (kv :: l)) ++ rest
                  = String "{"
                      (String newline
                         ((indent ++ JSON.gap)
                            ++ String.concat
                                 ("," ++ String newline (indent ++ JSON.gap))
                                 (map (prop_text ser) (kv :: l))
                            ++ String newline (indent ++ "}" ++ rest)))).
  { unfold JSON.object. cbn [map]. cbv zeta.
    rewrite !JoinFacts.append_assoc. cbn [append].
    rewrite !JoinFacts.append_assoc. reflexivity. }
  rewrite Htext. unfold read_object.
  change (expect "{" (String "{" ?x)) with (Some x). cbv iota zeta.
  assert (Hgap : only_spaces (indent ++ JSON.gap) = true)
    by (apply only_spaces_app; [exact Hindent | reflexivity]).
  rewrite skip_line by exact Hgap.
  destruct (concat_quoted ("," ++ String newline (indent ++ JSON.gap)) kv l)
    as (r & Hr).
  assert (Hskip : forall x,
             skip (String.concat ("," ++ String newline (indent ++ JSON.gap))
                                 (map (prop_text ser) (kv :: l)) ++ x)
             = String.concat ("," ++ String newline (indent ++ JSON.gap))
                             (map (prop_text ser) (kv :: l)) ++ x).
  { intros x. rewrite Hr. reflexivity. }
  assert (Hclosed : forall x,
             expect "}" (String.concat
                           ("," ++ String newline (indent ++ JSON.gap))
                           (map (prop_text ser) (kv :: l)) ++ x) = None).
  { intros x. rewrite Hr. reflexivity. }
  cbn [append] in Hskip, Hclosed |- *. rewrite Hskip, Hclosed.
  apply (read_properties_text (kv :: l) Hread Hstart);
    try assumption; try discriminate.
  rewrite length_append.
  pose proof (concat_length ("," ++ String newline (indent ++ JSON.gap))
                            (kv :: l)) as Hlen.
  cbn [append] in Hlen |- *. lia.
Qed.

End Properties.

Lemma type_of_text_text (t : ResourceType) :
  type_of_text (ResourceType_text t) = Some t.
Proof. destruct t; reflexivity. Qed.

Lemma stringifyEntry_fields (indent : string) (e : PushManifestEntry) :
  stringifyEntry indent e
  = JSON.object indent (map (prop_text field_text) (fields_of e)).
Proof. destruct e as [[t|] [w|]]; reflexivity. Qed.

Lemma read_field_text (k : string) (f : Field) (e : PushManifestEntry)
      (c : ascii) (r : string) :
  weight e = Some 1%Z -> In (k, f) (fields_of e) ->
  c = ","%char \/ c = newline ->
  read_field k (field_text f ++ String c r) = Some (f, String c r).
Proof.
  intros Hw Hin Hc. unfold fields_of in Hin. rewrite Hw in Hin.
  apply in_app_iff in Hin. destruct Hin as [Hin | [Hin | []]].
  - destruct (type e) as [t|]; [|contradiction].
    destruct Hin as [Hin | []]. injection Hin as <- <-.
    unfold read_field. cbn [field_text].
    change (String.eqb "type" "type") with true. cbv iota.
    rewrite unquote_quote, type_of_text_text. reflexivity.
  - injection Hin as <- <-.
    destruct Hc as [-> | ->]; reflexivity.
Qed.

Lemma field_text_start (f : Field) (x : string) :
  (forall w, f = WeightField w -> w = 1%Z) ->
  skip (field_text f ++ x) = field_text f ++ x.
Proof.
  destruct f as [t|w]; intros H; [reflexivity|].
  rewrite (H w eq_refl). reflexivity.
Qed.

Lemma entry_of_fields_of (e : PushManifestEntry) :
  entry_of_fields (fields_of e) = Some e.
Proof. destruct e as [[t|] [w|]]; reflexivity. Qed.

Lemma read_entry_text (indent rest : string) (e : PushManifestEntry) :
  weight e = Some 1%Z -> only_spaces indent = true ->
  read_entry (stringifyEntry indent e ++ rest) = Some (e, rest).
Proof.
  intros Hw Hindent. unfold read_entry.
  rewrite stringifyEntry_fields.
  rewrite (read_object_text read_field field_text).
  - rewrite entry_of_fields_of. reflexivity.
  - intros k f Hin c r Hc. apply (read_field_text k f e); assumption.
  - intros k f Hin x. apply field_text_start. intros w ->.
    unfold fields_of in Hin. rewrite Hw in Hin.
    apply in_app_iff in Hin. destruct Hin as [Hin | [Hin | []]].
    + destruct (type e); [|contradiction].
      destruct Hin as [Hin | []]. discriminate.
    + injection Hin as _ <-. reflexivity.
  - exact Hindent.
Qed.

Lemma object_start (indent : string) (props : list string) (x : string) :
  skip (JSON.object indent props ++ x) = JSON.object indent props ++ x.
Proof. destruct props; reflexivity. Qed.

Lemma stringifyCollection_props (indent : string)
      (c : PushManifestEntryCollection) :
  stringifyCollection indent c
  = JSON.object indent
      (map (prop_text (stringifyEntry (indent ++ JSON.gap))) c).
Proof.
  unfold stringifyCollection. f_equal. apply map_ext. intros [k e].
  reflexivity.
Qed.

Lemma read_collection_text (indent rest : string)
      (c : PushManifestEntryCollection) :
  Forall (fun ke => weight (snd ke) = Some 1%Z) c ->
  only_spaces indent = true ->
  read_collection (stringifyCollection indent c ++ rest) = Some (c, rest).
Proof.
  intros Hw Hindent. unfold read_collection.
  rewrite stringifyCollection_props.
  rewrite Forall_forall in Hw.
  apply (read_object_text (fun _ => read_entry)
                          (stringifyEntry (indent ++ JSON.gap))).
  - intros k e Hin ch r _. apply read_entry_text.
    + apply (Hw _ Hin).
    + apply only_spaces_app; [exact Hindent | reflexivity].
  - intros k e _ x. unfold stringifyEntry. apply object_start.
  - exact Hindent.
Qed.

Lemma stringify_props (m : PushManifest) :
  stringify m
  = JSON.object "" (map (prop_text (stringifyCollection JSON.gap)) m).
Proof.
  unfold stringify. f_equal. apply map_ext. intros [k c]. reflexivity.
Qed.

(** Reading the text of a manifest gives the manifest back. *)
Lemma read_stringify (m : PushManifest) :
  Forall (fun sc => Forall (fun ke => weight (snd ke) = Some 1%Z) (snd sc)) m ->
  read (stringify m) = Some m.
Proof.
  intros Hw. unfold read. rewrite stringify_props.
  rewrite <- (JoinFacts.append_nil_r (JSON.object "" _)).
  rewrite object_start.
  rewrite Forall_forall in Hw.
  rewrite (read_object_text (fun _ => read_collection)
                            (stringifyCollection JSON.gap)).
  - reflexivity.
  - intros k c Hin ch r _. apply read_collection_text.
    + apply (Hw _ Hin).
    + reflexivity.
  - intros k c _ x. unfold stringifyCollection. apply object_start.
  - reflexivity.
Qed.

End ReaderFacts.

(** ** The stream *)

Section Stream.

Variable urlFromPath : string -> string -> string.

Lemma registerAll_fields (this : AddPushManifest) (input : list File) :
  outPath (registerAll urlFromPath this input) = outPath this
  /\ config (registerAll urlFromPath this input) = config this
  /\ analyzer (registerAll urlFromPath this input) = analyzer this
  /\ basePath (registerAll urlFromPath this input) = basePath this.
Proof.
  unfold registerAll. revert this.
  induction input as [|file input IH]; simpl; intros this; [tauto|].
  destruct (IH (addFile urlFromPath this file)) as (-> & -> & -> & ->).
  tauto.
Qed.

(** Every file is registered and handed on, in order. *)
Lemma forward_all (input : list File) (this : AddPushManifest)
      (yielded : list File) :
  fold_left (forwardFile urlFromPath) input (this, yielded)
  = (registerAll urlFromPath this input, (yielded ++ input)%list).
Proof.
  unfold registerAll. revert this yielded.
  induction input as [|file input IH]; simpl; intros this yielded.
  - rewrite app_nil_r. reflexivity.
  - unfold forwardFile at 2. simpl. rewrite IH, <- app_assoc. reflexivity.
Qed.

Lemma _transformIter_eq (this : AddPushManifest) (input : list File) :
  _transformIter urlFromPath this input
  = match generatePushManifest
            urlFromPath (registerAll urlFromPath this input) with
    | Throw e => (input, Throw e)
    | Ok pushManifest =>
        ((input ++ [ {| path := outPath this;
                        contents := stringify pushManifest |} ])%list,
         Ok tt)
    end.
Proof.
  unfold _transformIter. rewrite forward_all. simpl.
  destruct (registerAll_fields this input) as (-> & _).
  reflexivity.
Qed.

Lemma find_first {A} (p : A -> bool) (l : list A) (x : A) :
  In x l -> p x = true ->
  exists y, find p l = Some y /\ In y l /\ p y = true.
Proof.
  intros Hin Hx. destruct (find p l) as [y|] eqn:E.
  - exists y. apply find_some in E. tauto.
  - eapply find_none in E; [|exact Hin]. congruence.
Qed.

(** The build stops at the first URL without a document. *)
Lemma rawPushManifest_fails (this : AddPushManifest) (failing : string) :
  find (fun u => negb (isDocument (currentAnalyzer this u)))
       (requestedUrls urlFromPath this) = Some failing ->
  rawPushManifest urlFromPath this
  = Throw ("Unable to get document " ++ failing ++ ": "
             ++ failureMessage (currentAnalyzer this failing)).
Proof.
  unfold requestedUrls. simpl. rewrite rawPushManifest_eq.
  destruct (isDocument (currentAnalyzer this (absoluteShellUrl urlFromPath this)))
    eqn:Hdoc; simpl; intros H.
  - destruct (resolve_succeeds _ _ None Hdoc) as (c & ->). simpl.
    apply addFragments_fails, H.
  - injection H as <-. rewrite resolve_fails by exact Hdoc. reflexivity.
Qed.

(** When every URL has a document, the build succeeds. *)
Lemma rawPushManifest_succeeds (this : AddPushManifest) :
  forallb (fun u => isDocument (currentAnalyzer this u))
          (requestedUrls urlFromPath this) = true ->
  exists raw, rawPushManifest urlFromPath this = Ok raw.
Proof.
  unfold requestedUrls. simpl. rewrite andb_true_iff. intros [Hdoc Hrest].
  rewrite rawPushManifest_eq.
  destruct (resolve_succeeds _ _ None Hdoc) as (c & ->). simpl.
  apply addFragments_succeeds, Hrest.
Qed.

(** C4. When the analyzer has no document for a URL that the build
    requests, the resolution of that URL fails with an error that names
    the URL and carries the analyzer's message; the build fails with the
    error of the first such URL; and the stream hands on the files it read
    and throws that error, without a manifest file. *)
Theorem resolution_failure_aborts (this : AddPushManifest)
        (input : list File) (failing : string) :
  In failing (requestedUrls urlFromPath (registerAll urlFromPath this input)) ->
  isDocument (currentAnalyzer (registerAll urlFromPath this input) failing)
  = false ->
  (forall ignoreUrls,
      generatePushManifestEntryForUrl
        (currentAnalyzer (registerAll urlFromPath this input))
        failing ignoreUrls
      = Throw ("Unable to get document " ++ failing ++ ": "
                 ++ failureMessage
                      (currentAnalyzer (registerAll urlFromPath this input)
                                       failing)))
  /\ (forall message,
         currentAnalyzer (registerAll urlFromPath this input) failing
         = IsWarning (Some message) ->
         message <> "" ->
         failureMessage
           (currentAnalyzer (registerAll urlFromPath this input) failing)
         = message)
  /\ exists first,
      In first (requestedUrls urlFromPath
                              (registerAll urlFromPath this input))
      /\ isDocument
           (currentAnalyzer (registerAll urlFromPath this input) first)
         = false
      /\ generatePushManifest urlFromPath
                              (registerAll urlFromPath this input)
         = Throw ("Unable to get document " ++ first ++ ": "
                    ++ failureMessage
                         (currentAnalyzer
                            (registerAll urlFromPath this input) first))
      /\ _transformIter urlFromPath this input
         = (input,
            Throw ("Unable to get document " ++ first ++ ": "
                     ++ failureMessage
                          (currentAnalyzer
                             (registerAll urlFromPath this input) first))).
Proof.
  intros Hin Hdoc. split; [|split].
  - intros ignoreUrls. apply resolve_fails, Hdoc.
  - intros message -> Hne. simpl.
    destruct (String.eqb_spec message ""); [contradiction | reflexivity].
  - destruct (find_first
                (fun u => negb (isDocument
                                  (currentAnalyzer
                                     (registerAll urlFromPath this input) u)))
                _ failing Hin) as (first & Hfind & Hfirst & Hnot).
    { rewrite Hdoc. reflexivity. }
    exists first. apply negb_true_iff in Hnot.
    apply rawPushManifest_fails in Hfind.
    assert (Hbuild : generatePushManifest
                       urlFromPath (registerAll urlFromPath this input)
                     = Throw ("Unable to get document " ++ first ++ ": "
                                ++ failureMessage
                                     (currentAnalyzer
                                        (registerAll urlFromPath this input)
                                        first))).
    { unfold generatePushManifest. rewrite Hfind. reflexivity. }
    repeat split; try assumption.
    rewrite _transformIter_eq, Hbuild. reflexivity.
Qed.

(** Once the manifest is generated, the stream yields it after the files
    it read. *)
Lemma _transformIter_Ok (this : AddPushManifest) (input : list File)
      (raw : PushManifest) :
  rawPushManifest urlFromPath (registerAll urlFromPath this input) = Ok raw ->
  _transformIter urlFromPath this input
  = ((input
        ++ [ {| path := outPath this;
                contents :=
                  stringify (normalizeManifest (basePath this) raw) |} ])%list,
     Ok tt).
Proof.
  intros Hraw. rewrite _transformIter_eq. unfold generatePushManifest.
  rewrite Hraw. simpl.
  destruct (registerAll_fields this input) as (_ & _ & _ & ->).
  reflexivity.
Qed.

(** C7, as the code has it: the stream hands on every file it reads,
    unchanged and in order; once the input is exhausted, when the analyzer
    has a document for the main push entry and for every fragment, the
    manifest is generated and the stream yields one more file, last: at the
    join of the root and the given path, or "push-manifest.json", with the
    normalized manifest, serialized with an indentation of two spaces, as
    its contents; and reading these contents gives the normalized manifest
    back. *)
Theorem manifest_file_is_yielded_last
        (newAnalyzer : JSMap.t File -> Analyzer) (projectConfig : ProjectConfig)
        (outPath basePath : option string) (input : list File) :
  forallb
    (fun entryUrl =>
       isDocument
         (currentAnalyzer
            (registerAll urlFromPath
                         (new newAnalyzer projectConfig outPath basePath)
                         input)
            entryUrl))
    (requestedUrls urlFromPath
                   (new newAnalyzer projectConfig outPath basePath))
  = true ->
  exists raw,
    rawPushManifest
      urlFromPath
      (registerAll urlFromPath
                   (new newAnalyzer projectConfig outPath basePath) input)
    = Ok raw
    /\ _transformIter urlFromPath
                      (new newAnalyzer projectConfig outPath basePath) input
       = ((input
             ++ [ {| path :=
                       Path.join [ root projectConfig;
                                   or_string outPath "push-manifest.json" ];
                     contents :=
                       stringify
                         (normalizeManifest (or_string basePath "") raw)
                  |} ])%list,
          Ok tt)
    /\ Reader.read
         (stringify (normalizeManifest (or_string basePath "") raw))
       = Some (normalizeManifest (or_string basePath "") raw).
Proof.
  intros Hdocs.
  destruct (rawPushManifest_succeeds
              (registerAll urlFromPath
                           (new newAnalyzer projectConfig outPath basePath)
                           input)) as (raw & Hraw).
  { unfold requestedUrls, absoluteShellUrl, mainPushEntrypoint in *.
    destruct (registerAll_fields
                (new newAnalyzer projectConfig outPath basePath) input)
      as (_ & -> & _ & _).
    exact Hdocs. }
  exists raw. split; [exact Hraw|]. split.
  - rewrite (_transformIter_Ok _ _ _ Hraw). reflexivity.
  - apply ReaderFacts.read_stringify.
    apply rawPushManifest_weight in Hraw.
    rewrite normalizeManifest_rekey.
    apply ObjMore.rekey_Forall
      with (P := Forall (fun ke : string * PushManifestEntry =>
                           weight (snd ke) = Some 1%Z));
      [| exact Hraw | constructor].
    intros k entries Hentries. simpl. rewrite normalizeTargets_rekey.
    apply ObjMore.rekey_Forall
      with (P := fun e : PushManifestEntry => weight e = Some 1%Z);
      [| exact Hentries | constructor].
    intros k' e He. exact He.
Qed.

(** C8. Every entry of a collection that a resolution returns has its
    weight set, to 1; and so has every entry of every collection of a
    generated manifest. *)
Theorem weight_is_always_one :
  (forall (analyzer : Analyzer) entryUrl ignoreUrls entries dependency entry,
      generatePushManifestEntryForUrl analyzer entryUrl ignoreUrls
      = Ok entries ->
      In (dependency, entry) entries ->
      weight entry = Some 1%Z)
  /\ (forall this pushManifest source targets dependency entry,
         generatePushManifest urlFromPath this = Ok pushManifest ->
         In (source, targets) pushManifest ->
         In (dependency, entry) targets ->
         weight entry = Some 1%Z).
Proof.
  split.
  - intros analyzer entryUrl ignoreUrls entries dependency entry H Hin.
    apply resolve_Ok_weight in H. rewrite Forall_forall in H.
    apply (H _ Hin).
  - intros this pushManifest source targets dependency entry H Hs Hd.
    destruct (generatePushManifest_Ok _ _ _ H) as (raw & Hraw & ->).
    apply rawPushManifest_weight in Hraw. rewrite Forall_forall in Hraw.
    apply normalizeManifest_In in Hs.
    destruct Hs as (key & entries & Hin & _ & ->).
    specialize (Hraw _ Hin). simpl in Hraw. rewrite Forall_forall in Hraw.
    rewrite normalizeTargets_rekey in Hd.
    apply RekeyFacts.rekey_In in Hd.
    destruct Hd as [[] | (k & e & Hke & _ & ->)].
    apply (Hraw _ Hke).
Qed.

End Stream.

Lemma resolution_failure_aborts_sample :
  _transformIter Sample.urlFromPath
                 (new (Sample.analyzer Sample.imports) Sample.missingFragment
                      None None)
                 Sample.input
  = (Sample.input, Throw "Unable to get document lost.html: not found").
Proof.
  destruct (resolution_failure_aborts
              Sample.urlFromPath
              (new (Sample.analyzer Sample.imports) Sample.missingFragment
                   None None)
              Sample.input "lost.html")
    as (_ & _ & first & Hin & Hdoc & _ & Hiter).
  - simpl. right. left. reflexivity.
  - reflexivity.
  - destruct Hin as [<- | [<- | []]].
    + vm_compute in Hdoc. discriminate.
    + exact Hiter.
Defined.

Lemma manifest_file_is_yielded_last_sample :
  _transformIter Sample.urlFromPath
                 (new (Sample.analyzer Sample.imports)
                      Sample.entrypointOnly None None)
                 Sample.input
  = ((Sample.input
        ++ [ {| path := "/app/push-manifest.json";
                contents := Sample.manifestText |} ])%list,
     Ok tt)
  /\ Reader.read Sample.manifestText
     = Some [ ("index.html",
               [ ("css/app.css", Sample.entry style);
                 ("js/app.js", Sample.entry script) ]) ].
Proof.
  destruct (manifest_file_is_yielded_last
              Sample.urlFromPath (Sample.analyzer Sample.imports)
              Sample.entrypointOnly None None Sample.input)
    as (raw & Hraw & Hiter & Hread).
  - reflexivity.
  - vm_compute in Hraw. injection Hraw as <-.
    split; [exact Hiter | exact Hread].
Defined.

(** A run without a manifest file: the analyzer has no document for the
    fragment lost.html, so the stream hands on the four files it read and
    throws. *)
Lemma no_manifest_file_without_a_document :
  isDocument
    (currentAnalyzer (Sample.stream Sample.missingFragment) "lost.html")
  = false
  /\ _transformIter Sample.urlFromPath
                    (new (Sample.analyzer Sample.imports)
                         Sample.missingFragment None None)
                    Sample.input
     = (Sample.input, Throw "Unable to get document lost.html: not found")
  /\ List.length Sample.input = 4.
Proof. repeat split. Qed.

(** The run of the sample project with its entrypoint alone. *)
Lemma entrypoint_only_run :
  _transformIter Sample.urlFromPath
                 (new (Sample.analyzer Sample.imports) Sample.entrypointOnly
                      None None)
                 Sample.input
  = ((Sample.input
        ++ [ {| path := "/app/push-manifest.json";
                contents :=
                  stringify
                    [ ("index.html",
                       [ ("css/app.css", Sample.entry style);
                         ("js/app.js", Sample.entry script) ]) ] |} ])%list,
     Ok tt).
Proof. reflexivity. Qed.

Lemma weight_is_always_one_sample :
  weight (Sample.entry style) = Some 1%Z.
Proof.
  apply (proj2 (weight_is_always_one Sample.urlFromPath)
               (Sample.stream Sample.withShell)
               [ ("shell.html",
                  [ ("polymer.html", Sample.entry document);
                    ("shell.js", Sample.entry script) ]);
                 ("view.html", [ ("view.css", Sample.entry style) ]) ]
               "view.html" [ ("view.css", Sample.entry style) ]
               "view.css" (Sample.entry style)).
  - reflexivity.
  - simpl. auto.
  - simpl. auto.
Defined.

(** The text of a manifest: nested objects, two more spaces at each
    level. *)
Lemma stringify_sample :
  stringify [ ("index.html", [ ("css/app.css", Sample.entry style) ]) ]
  = "{" ++ String newline
      ("  " ++ JSON.quote "index.html" ++ ": {" ++ String newline
      ("    " ++ JSON.quote "css/app.css" ++ ": {" ++ String newline
      ("      " ++ JSON.quote "type" ++ ": " ++ JSON.quote "style" ++ ","
         ++ String newline
      ("      " ++ JSON.quote "weight" ++ ": 1" ++ String newline
      ("    }" ++ String newline
      ("  }" ++ String newline
      "}"))))))
  /\ stringify [] = "{}"
  /\ JSON.quote "index.html"
     = String dquote ("index.html" ++ String dquote "").
Proof. repeat split. Qed.

(** * Further properties of the code *)

(** ** Extensions and file names *)

Module ExtnameFacts.
Import Path PathFacts.

Lemma rev_chars_app (a b : string) :
  rev (list_ascii_of_string (a ++ b))
  = (rev (list_ascii_of_string b) ++ rev (list_ascii_of_string a))%list.
Proof. rewrite chars_app, rev_app_distr. reflexivity. Qed.

Lemma extname_trailing_slash (p : string) : extname (p ++ "/") = extname p.
Proof. unfold extname. rewrite rev_chars_app. reflexivity. Qed.

Lemma drop_slashes_plain_app (l r : list ascii) :
  l <> [] -> forallb plain l = true ->
  drop_slashes (l ++ r) = (l ++ r)%list.
Proof.
  destruct l as [|x l]; [contradiction|]. intros _ H. simpl in H.
  unfold plain at 1 in H. rewrite !andb_true_iff, !negb_true_iff in H.
  simpl. replace (is_slash x) with false by (symmetry; tauto). reflexivity.
Qed.

Lemma plain_no_dot (l : list ascii) :
  forallb plain l = true -> forallb (fun c => negb (is_dot c)) l = true.
Proof.
  induction l as [|c l IH]; simpl; [reflexivity|].
  unfold plain at 1. rewrite !andb_true_iff. intuition.
Qed.

Lemma rev_nonempty {A} (l : list A) : l <> [] -> rev l <> [].
Proof.
  intros H E. apply H. rewrite <- (rev_involutive l), E. reflexivity.
Qed.

(** A last component without a dot has no extension, whatever the
    directories are called. *)
Lemma extname_plain_name (pre : string) (a : ascii) (e : string) :
  forallb plain (list_ascii_of_string (String a e)) = true ->
  extname (pre ++ String slash (String a e)) = "".
Proof.
  intros H. unfold extname, extname_rev. rewrite rev_chars_app.
  change (list_ascii_of_string (String slash (String a e)))
    with ([slash] ++ list_ascii_of_string (String a e))%list.
  rewrite rev_app_distr, <- app_assoc.
  set (le := list_ascii_of_string (String a e)) in *.
  assert (Hrev : forallb plain (rev le) = true) by (rewrite forallb_rev; exact H).
  rewrite drop_slashes_plain_app
    by (exact Hrev || (apply rev_nonempty; discriminate)).
  rewrite until_slash_app by exact Hrev.
  change (until_slash (rev [slash] ++ rev (list_ascii_of_string pre)))
    with (@nil ascii).
  rewrite app_nil_r, cut_at_dot_none by (apply plain_no_dot, Hrev).
  reflexivity.
Qed.

(** A last component whose only dot is its first character has no
    extension. *)
Lemma extname_rev_hidden (le rp : list ascii) :
  forallb plain le = true ->
  extname_rev (rev le ++ dot :: slash :: rp) = []
  /\ extname_rev (rev le ++ [dot]) = [].
Proof.
  intros H. unfold extname_rev.
  assert (Hrev : forallb plain (rev le) = true) by (rewrite forallb_rev; exact H).
  assert (Hdrop : forall r,
             drop_slashes (rev le ++ dot :: r) = (rev le ++ dot :: r)%list).
  { intros r. destruct (rev le) as [|x l] eqn:E; [reflexivity|].
    rewrite <- E. apply drop_slashes_plain_app; rewrite E;
      [discriminate | exact Hrev]. }
  rewrite !Hdrop, !until_slash_app by exact Hrev.
  simpl until_slash. replace (is_slash dot) with false by reflexivity.
  replace (is_slash slash) with true by reflexivity.
  rewrite cut_at_dot_app by exact Hrev. split; reflexivity.
Qed.

Lemma extname_hidden (pre name : string) :
  forallb plain (list_ascii_of_string name) = true ->
  extname (pre ++ String slash (String dot name)) = ""
  /\ extname (String dot name) = "".
Proof.
  intros H. unfold extname. rewrite rev_chars_app.
  change (list_ascii_of_string (String slash (String dot name)))
    with ([slash] ++ [dot] ++ list_ascii_of_string name)%list.
  change (list_ascii_of_string (String dot name))
    with ([dot] ++ list_ascii_of_string name)%list.
  rewrite !rev_app_distr, <- !app_assoc.
  change (rev [dot] ++ rev [slash] ++ rev (list_ascii_of_string pre))%list
    with (dot :: slash :: rev (list_ascii_of_string pre)).
  change (rev [dot]) with [dot].
  destruct (extname_rev_hidden (list_ascii_of_string name)
                               (rev (list_ascii_of_string pre)) H)
    as [-> ->].
  split; reflexivity.
Qed.

End ExtnameFacts.

(** X1. A file whose name has at least one character before an extension
    of the table is classified by that extension, whatever the directories
    in front of it. *)
Theorem named_file_is_classified_by_extension
        (pre : string) (c : ascii) (ext : string) (t : ResourceType) :
  is_slash c = false ->
  In (ext, t)
     [ (".css", style); (".gif", image); (".html", document);
       (".png", image); (".jpg", image); (".js", script); (".json", script);
       (".svg", image); (".webp", image); (".woff", font);
       (".woff2", font) ] ->
  getResourceTypeFromUrl (pre ++ String c ext) = Some t.
Proof. intros Hc Hin. apply getResourceTypeFromUrl_named; assumption. Qed.

Lemma named_file_is_classified_by_extension_sample :
  getResourceTypeFromUrl ("bower_components/polymer/" ++ String "p" ".html")
  = Some document.
Proof.
  apply (named_file_is_classified_by_extension
           "bower_components/polymer/" "p" ".html" document).
  - reflexivity.
  - simpl. tauto.
Defined.

(** X2. A slash at the end of a URL does not change its type. *)
Theorem trailing_slash_keeps_the_type (url : string) :
  getResourceTypeFromUrl (url ++ "/") = getResourceTypeFromUrl url.
Proof.
  unfold getResourceTypeFromUrl.
  rewrite ExtnameFacts.extname_trailing_slash. reflexivity.
Qed.

(** X3. A file whose name has no dot, or whose only dot is its first
    character, has no type, whatever the directories in front of it are
    called; so a file named ".css" is not a style. *)
Theorem name_without_extension_has_no_type (pre name : string) :
  forallb Path.plain (list_ascii_of_string name) = true ->
  (name <> "" ->
   getResourceTypeFromUrl (pre ++ String slash name) = None)
  /\ getResourceTypeFromUrl (pre ++ String slash (String dot name)) = None
  /\ getResourceTypeFromUrl (String dot name) = None.
Proof.
  intros H. unfold getResourceTypeFromUrl. split; [|split].
  - intros Hne. destruct name as [|a e]; [contradiction|].
    rewrite ExtnameFacts.extname_plain_name by exact H. reflexivity.
  - rewrite (proj1 (ExtnameFacts.extname_hidden pre name H)). reflexivity.
  - rewrite (proj2 (ExtnameFacts.extname_hidden pre name H)). reflexivity.
Qed.

Lemma name_without_extension_has_no_type_sample :
  getResourceTypeFromUrl ("app.v2/" ++ "LICENSE") = None
  /\ getResourceTypeFromUrl ("styles/" ++ ".css") = None
  /\ getResourceTypeFromUrl ".css" = None.
Proof.
  split; [|split].
  - apply (proj1 (name_without_extension_has_no_type "app.v2" "LICENSE"
                                                     eq_refl)).
    discriminate.
  - apply (proj1 (proj2 (name_without_extension_has_no_type
                           "styles" "css" eq_refl))).
  - apply (proj2 (proj2 (name_without_extension_has_no_type
                           "" "css" eq_refl))).
Defined.

(** ** The shape of the URLs that have a type *)

Module ShapeFacts.
Import Path PathFacts ExtnameFacts.

Lemma drop_slashes_app (l r : list ascii) :
  forallb is_slash l = true -> drop_slashes (l ++ r) = drop_slashes r.
Proof.
  induction l as [|c l IH]; simpl; [reflexivity|].
  rewrite andb_true_iff. intros [-> Hl]. apply IH, Hl.
Qed.

(** Slashes at the end of a path do not change its extension. *)
Lemma extname_slashes (p slashes : string) :
  only_slashes slashes = true -> extname (p ++ slashes) = extname p.
Proof.
  unfold only_slashes, extname, extname_rev. intros H.
  rewrite rev_chars_app, drop_slashes_app by (rewrite forallb_rev; exact H).
  reflexivity.
Qed.

Lemma drop_slashes_split (r : list ascii) :
  exists l, r = (l ++ drop_slashes r)%list /\ forallb is_slash l = true.
Proof.
  induction r as [|c r IH]; simpl.
  - exists []. split; reflexivity.
  - destruct (is_slash c) eqn:Hc.
    + destruct IH as (l & Hr & Hl). exists (c :: l). simpl.
      rewrite Hc, Hl, <- Hr. split; reflexivity.
    + exists []. split; reflexivity.
Qed.

Lemma until_slash_split (r : list ascii) :
  exists rest,
    r = (until_slash r ++ rest)%list
    /\ forallb (fun c => negb (is_slash c)) (until_slash r) = true.
Proof.
  induction r as [|c r IH]; simpl.
  - exists []. split; reflexivity.
  - destruct (is_slash c) eqn:Hc.
    + exists (c :: r). split; reflexivity.
    + destruct IH as (rest & Hr & Hl). exists rest. simpl.
      rewrite Hc, Hl, <- Hr. split; reflexivity.
Qed.

Lemma cut_at_dot_split (r ext pre : list ascii) :
  cut_at_dot r = Some (ext, pre) -> r = (ext ++ dot :: pre)%list.
Proof.
  revert ext. induction r as [|c r IH]; simpl; intros ext; [discriminate|].
  destruct (is_dot c) eqn:Hc.
  - intros H. injection H as <- <-. apply Ascii.eqb_eq in Hc. subst c.
    reflexivity.
  - destruct (cut_at_dot r) as [[e q]|]; [|discriminate].
    intros H. injection H as <- <-. rewrite (IH e eq_refl). reflexivity.
Qed.

(** An extension of more than a dot is found only behind a character of
    the last component. *)
Lemma extname_rev_inv (r le : list ascii) :
  extname_rev r = dot :: le -> le <> [] ->
  exists slashes c rp,
    r = (slashes ++ rev le ++ dot :: c :: rp)%list
    /\ forallb is_slash slashes = true
    /\ is_slash c = false.
Proof.
  unfold extname_rev. intros H Hle.
  destruct (drop_slashes_split r) as (slashes & Hr & Hslashes).
  destruct (until_slash_split (drop_slashes r)) as (rest & Hbase & Hplain).
  destruct (cut_at_dot (until_slash (drop_slashes r))) as [[ext pre]|] eqn:Hcut;
    [|discriminate].
  apply cut_at_dot_split in Hcut. rewrite Hcut in Hbase, Hplain.
  assert (Hshape : exists c pre', pre = c :: pre' /\ le = rev ext).
  { destruct pre as [|c pre']; [discriminate|]. exists c, pre'.
    split; [reflexivity|].
    destruct pre' as [|c' pre'']; destruct ext as [|x ext'];
      try (injection H as <-; reflexivity).
    destruct (is_dot c); [discriminate|].
    injection H as <-. contradiction. }
  destruct Hshape as (c & pre' & -> & ->).
  exists slashes, c, (pre' ++ rest)%list. split; [|split].
  - rewrite rev_involutive. rewrite Hr at 1. rewrite Hbase.
    rewrite <- !app_assoc. reflexivity.
  - exact Hslashes.
  - rewrite forallb_app in Hplain. apply andb_true_iff in Hplain.
    destruct Hplain as [_ Hplain]. cbn [forallb] in Hplain.
    rewrite !andb_true_iff in Hplain.
    destruct Hplain as (_ & Hc & _). apply negb_true_iff, Hc.
Qed.

Lemma string_of_list_ascii_app (a b : list ascii) :
  string_of_list_ascii (a ++ b)
  = string_of_list_ascii a ++ string_of_list_ascii b.
Proof. induction a as [|c a IH]; simpl; [reflexivity|]. rewrite IH. reflexivity. Qed.

(** The text of a path with an extension of more than a dot. *)
Lemma extname_inv (path : string) (e : ascii) (ext : string) :
  extname path = String dot (String e ext) ->
  exists pre c slashes,
    path = pre ++ String c (String dot (String e ext) ++ slashes)
    /\ is_slash c = false
    /\ only_slashes slashes = true.
Proof.
  unfold extname. intros H.
  apply (f_equal list_ascii_of_string) in H.
  rewrite list_ascii_of_string_of_list_ascii in H. simpl in H.
  apply extname_rev_inv in H; [|discriminate].
  destruct H as (slashes & c & rp & Hr & Hslashes & Hc).
  exists (string_of_list_ascii (rev rp)), c,
    (string_of_list_ascii (rev slashes)).
  split; [|split].
  - rewrite <- (string_of_list_ascii_of_string path).
    rewrite <- (rev_involutive (list_ascii_of_string path)), Hr.
    rewrite !rev_app_distr. simpl. rewrite rev_app_distr, rev_involutive.
    simpl. rewrite <- !app_assoc. simpl.
    rewrite string_of_list_ascii_app. simpl.
    rewrite string_of_list_ascii_app, string_of_list_ascii_of_string.
    reflexivity.
  - exact Hc.
  - unfold only_slashes. rewrite list_ascii_of_string_of_list_ascii.
    rewrite forallb_rev. exact Hslashes.
Qed.

Lemma extensionToTypeMapping_get_In (ext : string) (t : ResourceType) :
  extensionToTypeMapping_get ext = Some t <-> In (ext, t) extensionToTypeMapping.
Proof.
  unfold extensionToTypeMapping_get, extensionToTypeMapping. simpl. split.
  - repeat match goal with
           | |- context [String.eqb ext ?e] =>
               destruct (String.eqb_spec ext e) as [->|_];
               [intros H; injection H as <-; tauto|]
           end.
    discriminate.
  - intros H.
    repeat (destruct H as [H | H]; [injection H as <- <-; reflexivity|]).
    contradiction.
Qed.

End ShapeFacts.

(** C5, as the code has it: the URLs with a type are those that end, any
    slashes at their end aside, in an extension of the table (.css for a
    style; .gif, .png, .jpg, .svg, .webp for an image; .html for a
    document; .js, .json for a script; .woff, .woff2 for a font) that
    follows a character other than a slash, and their type is the one the
    table gives for that extension; every other URL has no type.  The URL
    is read as a path, to its last character: nothing is cut off as a query
    string or a fragment. *)
Theorem extension_at_the_end_decides_the_type (url : string) :
  (forall t,
      getResourceTypeFromUrl url = Some t
      <-> exists pre c ext slashes,
          url = pre ++ String c (ext ++ slashes)
          /\ is_slash c = false
          /\ Path.only_slashes slashes = true
          /\ In (ext, t)
                [ (".css", style); (".gif", image); (".html", document);
                  (".png", image); (".jpg", image); (".js", script);
                  (".json", script); (".svg", image); (".webp", image);
                  (".woff", font); (".woff2", font) ])
  /\ (getResourceTypeFromUrl url = None
      <-> ~ exists pre c ext slashes,
            url = pre ++ String c (ext ++ slashes)
            /\ is_slash c = false
            /\ Path.only_slashes slashes = true
            /\ In ext [ ".css"; ".gif"; ".html"; ".png"; ".jpg"; ".js";
                        ".json"; ".svg"; ".webp"; ".woff"; ".woff2" ]).
Proof.
  assert (Hsome : forall t,
             getResourceTypeFromUrl url = Some t
             <-> exists pre c ext slashes,
                 url = pre ++ String c (ext ++ slashes)
                 /\ is_slash c = false
                 /\ Path.only_slashes slashes = true
                 /\ In (ext, t) extensionToTypeMapping).
  { intros t. split.
    - unfold getResourceTypeFromUrl. intros H.
      apply ShapeFacts.extensionToTypeMapping_get_In in H.
      assert (Hext : exists e rest,
                 Path.extname url = String dot (String e rest)).
      { unfold extensionToTypeMapping in H. simpl in H.
        repeat (destruct H as [H | H];
                [injection H as H _; rewrite <- H; eauto|]).
        contradiction. }
      destruct Hext as (e & rest & Hext).
      destruct (ShapeFacts.extname_inv _ _ _ Hext)
        as (pre & c & slashes & Hurl & Hc & Hslashes).
      exists pre, c, (String dot (String e rest)), slashes.
      rewrite <- Hext. rewrite <- Hext in Hurl. auto.
    - intros (pre & c & ext & slashes & -> & Hc & Hslashes & Hin).
      change (pre ++ String c (ext ++ slashes))
        with (pre ++ (String c ext ++ slashes)).
      rewrite <- JoinFacts.append_assoc. unfold getResourceTypeFromUrl.
      rewrite ShapeFacts.extname_slashes by exact Hslashes.
      apply (getResourceTypeFromUrl_named pre c ext t Hc Hin). }
  split; [exact Hsome|].
  split.
  - intros Hnone (pre & c & ext & slashes & Hurl & Hc & Hslashes & Hin).
    assert (Ht : exists t, In (ext, t) extensionToTypeMapping).
    { unfold extensionToTypeMapping. simpl in *.
      repeat (destruct Hin as [<- | Hin]; [eexists; tauto|]).
      contradiction. }
    destruct Ht as (t & Ht).
    assert (Hs : getResourceTypeFromUrl url = Some t).
    { apply Hsome. exists pre, c, ext, slashes. auto. }
    congruence.
  - intros Hnot. destruct (getResourceTypeFromUrl url) as [t|] eqn:E;
      [|reflexivity].
    exfalso. apply Hnot.
    destruct (proj1 (Hsome t) eq_refl)
      as (pre & c & ext & slashes & Hurl & Hc & Hslashes & Hin).
    exists pre, c, ext, slashes. repeat split; try assumption.
    apply (in_map fst) in Hin. exact Hin.
Qed.

Lemma extension_at_the_end_decides_the_type_sample :
  getResourceTypeFromUrl "fonts/roboto.woff2//" = Some font.
Proof.
  apply (proj1 (extension_at_the_end_decides_the_type "fonts/roboto.woff2//")
               font).
  exists "fonts/robot", "o"%char, ".woff2", "//".
  repeat split. simpl. tauto.
Defined.

(** A URL with a query string: its file has the extension .css, and the
    URL has no type. *)
Lemma query_string_hides_the_extension :
  getResourceTypeFromUrl "css/app.css" = Some style
  /\ Path.extname "css/app.css?v=3" = ".css?v=3"
  /\ getResourceTypeFromUrl "css/app.css?v=3" = None
  /\ getResourceTypeFromUrl "css/app.css?v=3" <> Some style.
Proof. repeat split. discriminate. Qed.

(** ** What a resolution lists *)

Module ObjFilter.
Import Obj ObjFacts.

Lemma key_before_later (k k0 k1 : string) :
  key_before k k0 = true -> key_before k1 k0 = false ->
  key_before k k1 = true.
Proof.
  unfold key_before.
  destruct (array_index k), (array_index k0), (array_index k1);
    try discriminate; auto.
  rewrite !N.ltb_lt, N.ltb_ge. lia.
Qed.

(** A key that comes before the first key of an object comes first. *)
Lemma define_first {V} (o : t V) (k : string) (v : V) :
  Forall (fun k1 => k <> k1 /\ key_before k k1 = true) (keys o) ->
  define o k v = (k, v) :: o.
Proof.
  destruct o as [|[k1 v1] o]; simpl; [reflexivity|].
  intros H. inversion H as [|? ? [Hne Hb] _]; subst.
  destruct (String.eqb_spec k k1); [contradiction|]. rewrite Hb. reflexivity.
Qed.

Lemma keys_filter {V} (p : string * V -> bool) (o : t V) (k : string) :
  In k (keys (filter p o)) -> In k (keys o).
Proof.
  unfold keys. rewrite !in_map_iff. intros (kv & Hk & Hin).
  apply filter_In in Hin. exists kv. tauto.
Qed.

(** Assigning a key and leaving properties out by their keys commute. *)
Lemma filter_define {V} (p : string -> bool) (o : t V) (k : string) (v : V) :
  wf o ->
  filter (fun kv => p (fst kv)) (define o k v)
  = if p k then define (filter (fun kv => p (fst kv)) o) k v
    else filter (fun kv => p (fst kv)) o.
Proof.
  unfold wf, keys.
  induction o as [|[k0 v0] o IH]; simpl; intros Hwf.
  - destruct (p k); reflexivity.
  - inversion Hwf as [|? ? Hs Hall]; subst.
    destruct (String.eqb_spec k k0) as [->|Hk].
    + simpl. destruct (p k0); [|reflexivity].
      simpl. rewrite String.eqb_refl. reflexivity.
    + destruct (key_before k k0) eqn:Hb.
      * simpl. destruct (p k) eqn:Hpk; [|reflexivity].
        symmetry. apply define_first.
        rewrite Forall_forall. intros k1 Hk1.
        assert (Hin : In k1 (k0 :: map fst o)).
        { apply (keys_filter (fun kv => p (fst kv)) ((k0, v0) :: o)).
          exact Hk1. }
        destruct Hin as [<- | Hin]; [auto|].
        rewrite Forall_forall in Hall. destruct (Hall _ Hin) as [Hne Hlater].
        split.
        -- intros ->. rewrite Hb in Hlater. discriminate.
        -- eapply key_before_later; eassumption.
      * simpl. rewrite IH by assumption.
        destruct (p k0), (p k); simpl; try reflexivity.
        destruct (String.eqb_spec k k0); [contradiction|].
        rewrite Hb. reflexivity.
Qed.

Lemma filter_set {V} (p : string -> bool) (o : t V) (k : string) (v : V) :
  wf o ->
  filter (fun kv => p (fst kv)) (set o k v)
  = if p k then set (filter (fun kv => p (fst kv)) o) k v
    else filter (fun kv => p (fst kv)) o.
Proof.
  intros Hwf. unfold set. destruct (String.eqb k "__proto__").
  - destruct (p k); reflexivity.
  - apply filter_define, Hwf.
Qed.

Lemma get_filter {V} (p : string -> bool) (o : t V) (k : string) :
  p k = true -> get (filter (fun kv => p (fst kv)) o) k = get o k.
Proof.
  intros Hk. induction o as [|[k0 v0] o IH]; simpl; [reflexivity|].
  destruct (String.eqb_spec k k0) as [->|Hne].
  - rewrite Hk. simpl. rewrite String.eqb_refl. reflexivity.
  - destruct (p k0); simpl; [|exact IH].
    destruct (String.eqb_spec k k0); [contradiction | exact IH].
Qed.

Lemma own_get {V} (o : t V) (k : string) :
  match get o k with Some _ => true | None => false end
  = existsb (String.eqb k) (keys o).
Proof.
  induction o as [|[k0 v0] o IH]; simpl; [reflexivity|].
  destruct (String.eqb k k0); [reflexivity | exact IH].
Qed.

Lemma truthy_get {V} (o : t V) (k : string) :
  truthy (read o k) = existsb (String.eqb k) (keys o) || inherited k.
Proof.
  rewrite truthy_read, <- own_get. destruct (get o k); reflexivity.
Qed.

(** A key that is not an array index goes to the end, unless it is there
    already. *)
Lemma keys_set_plain {V} (o : t V) (k : string) (v : V) :
  array_index k = None -> k <> "__proto__" ->
  keys (set o k v)
  = if existsb (String.eqb k) (keys o) then keys o
    else (keys o ++ [k])%list.
Proof.
  intros Hk Hp. rewrite set_define by exact Hp. unfold keys.
  induction o as [|[k0 v0] o IH]; simpl; [reflexivity|].
  destruct (String.eqb_spec k k0) as [->|Hne]; simpl; [reflexivity|].
  unfold key_before. rewrite Hk. simpl. rewrite IH.
  destruct (existsb _ _); reflexivity.
Qed.

End ObjFilter.

Lemma firstOccurrences_ext (seen seen' urls : list string) :
  (forall u, existsb (String.eqb u) seen = existsb (String.eqb u) seen') ->
  firstOccurrences seen urls = firstOccurrences seen' urls.
Proof.
  revert seen seen'. induction urls as [|u rest IH]; simpl; intros s s' H;
    [reflexivity|].
  rewrite (H u). destruct (existsb (String.eqb u) s'); [apply IH, H|].
  f_equal. apply IH. intros x. simpl. rewrite (H x). reflexivity.
Qed.

Lemma firstImportOf_Some (target : string) (analyzedImports : list Import) :
  (exists first, firstImportOf target analyzedImports = Some first)
  <-> In target (map url analyzedImports).
Proof.
  unfold firstImportOf. rewrite in_map_iff. split.
  - intros (first & H). apply find_some in H. destruct H as [Hin Heq].
    apply String.eqb_eq in Heq. eauto.
  - intros (i & Hi & Hin).
    destruct (find _ analyzedImports) as [first|] eqn:E; [eauto|].
    eapply find_none in E; [|exact Hin]. simpl in E.
    rewrite Hi, String.eqb_refl in E. discriminate.
Qed.

Lemma filter_notIgnored_set (ignoreUrls : list string)
      (entries : PushManifestEntryCollection) (k : string)
      (e : PushManifestEntry) :
  Obj.wf entries ->
  filter (notIgnored ignoreUrls) (Obj.set entries k e)
  = if existsb (String.eqb k) ignoreUrls
    then filter (notIgnored ignoreUrls) entries
    else Obj.set (filter (notIgnored ignoreUrls) entries) k e.
Proof.
  intros Hwf.
  pose proof (ObjFilter.filter_set
                (fun k => negb (existsb (String.eqb k) ignoreUrls))
                entries k e Hwf) as E.
  cbv beta in E. unfold notIgnored. rewrite E.
  destruct (existsb (String.eqb k) ignoreUrls); reflexivity.
Qed.

Lemma get_filter_notIgnored (ignoreUrls : list string)
      (entries : PushManifestEntryCollection) (k : string) :
  existsb (String.eqb k) ignoreUrls = false ->
  Obj.get (filter (notIgnored ignoreUrls) entries) k = Obj.get entries k.
Proof.
  intros Hk.
  apply (ObjFilter.get_filter
           (fun k => negb (existsb (String.eqb k) ignoreUrls)) entries k).
  rewrite Hk. reflexivity.
Qed.

Lemma addImport_ignoring (ignoreUrls : list string)
      (entries : PushManifestEntryCollection) (analyzedImport : Import) :
  Obj.wf entries ->
  filter (notIgnored ignoreUrls) (addImport None entries analyzedImport)
  = addImport (Some ignoreUrls) (filter (notIgnored ignoreUrls) entries)
              analyzedImport.
Proof.
  intros Hwf. unfold addImport. cbn [shouldIgnoreFile negb andb].
  destruct (existsb (String.eqb (url analyzedImport)) ignoreUrls) eqn:Hign;
    cbn [negb andb].
  - destruct (truthy _); cbn [negb]; [reflexivity|].
    rewrite filter_notIgnored_set, Hign by exact Hwf. reflexivity.
  - rewrite !truthy_read, get_filter_notIgnored by exact Hign.
    destruct (match Obj.get entries (url analyzedImport) with
              | Some _ => true
              | None => Obj.inherited (url analyzedImport)
              end); cbn [negb]; [reflexivity|].
    rewrite filter_notIgnored_set, Hign by exact Hwf. reflexivity.
Qed.

Lemma resolve_ignoring_filter (ignoreUrls : list string)
      (analyzedImports : list Import) (entries : PushManifestEntryCollection) :
  Obj.wf entries ->
  filter (notIgnored ignoreUrls)
         (fold_left (addImport None) analyzedImports entries)
  = fold_left (addImport (Some ignoreUrls)) analyzedImports
              (filter (notIgnored ignoreUrls) entries).
Proof.
  revert entries. induction analyzedImports as [|i l IH]; simpl;
    intros entries Hwf; [reflexivity|].
  rewrite IH by (apply addImport_wf, Hwf).
  rewrite addImport_ignoring by exact Hwf. reflexivity.
Qed.

(** X4. The collection of a resolution has a key for exactly the URLs that
    the document imports, that are not in the ignore list and that are not
    names of members of [Object.prototype]. *)
Theorem resolution_lists_the_imports_not_ignored
        (analyzer : Analyzer) (entryUrl : string)
        (ignoreUrls : option (list string)) (analyzedImports : list Import) :
  analyzer entryUrl = IsDocument analyzedImports ->
  exists entries,
    generatePushManifestEntryForUrl analyzer entryUrl ignoreUrls = Ok entries
    /\ forall target,
        In target (Obj.keys entries) <->
        In target (map url analyzedImports)
        /\ shouldIgnoreFile ignoreUrls target = false
        /\ Obj.inherited target = false.
Proof.
  intros Hdoc.
  exists (fold_left (addImport ignoreUrls) analyzedImports Obj.empty).
  split.
  - unfold generatePushManifestEntryForUrl. rewrite Hdoc. reflexivity.
  - intros target.
    pose proof (resolve_get ignoreUrls analyzedImports Obj.empty target) as Hget.
    simpl in Hget.
    pose proof (ObjFacts.get_None
                  (fold_left (addImport ignoreUrls) analyzedImports Obj.empty)
                  target) as Hnone.
    rewrite <- firstImportOf_Some.
    destruct (shouldIgnoreFile ignoreUrls target); simpl in Hget.
    + split; [|intros (_ & H & _); discriminate].
      intros Hin. exfalso. apply Hnone; assumption.
    + destruct (Obj.inherited target).
      * split; [|intros (_ & _ & H); discriminate].
        intros Hin. exfalso. apply Hnone; assumption.
      * destruct (firstImportOf target analyzedImports) as [first|].
        -- split; [eauto|]. intros _.
           destruct (in_dec string_dec target
                            (Obj.keys (fold_left (addImport ignoreUrls)
                                                 analyzedImports Obj.empty)))
             as [Hin | Hnot]; [exact Hin|].
           apply Hnone in Hnot. rewrite Hnot in Hget. discriminate.
        -- split; [|intros [(first & H) _]; discriminate].
           intros Hin. exfalso. apply Hnone; assumption.
Qed.

Lemma resolution_lists_the_imports_not_ignored_sample :
  exists entries,
    generatePushManifestEntryForUrl
      Sample.loaded "view.html" (Some ["polymer.html"]) = Ok entries
    /\ forall target,
        In target (Obj.keys entries) <->
        In target ["polymer.html"; "shell.html"; "view.css"; "polymer.html"]
        /\ shouldIgnoreFile (Some ["polymer.html"]) target = false
        /\ Obj.inherited target = false.
Proof.
  apply (resolution_lists_the_imports_not_ignored
           Sample.loaded "view.html" (Some ["polymer.html"])
           [ Sample.edge "polymer.html" ["html-import"];
             Sample.edge "shell.html" ["html-import"];
             Sample.edge "view.css" ["css-import"];
             Sample.edge "polymer.html" ["html-script"] ]).
  reflexivity.
Defined.

(** X5. Resolving a URL with an ignore list gives the collection resolved
    without one, less the properties whose keys are in the list, in the
    same order. *)
Theorem ignore_list_filters_the_collection
        (analyzer : Analyzer) (entryUrl : string) (ignoreUrls : list string)
        (all : PushManifestEntryCollection) :
  generatePushManifestEntryForUrl analyzer entryUrl None = Ok all ->
  generatePushManifestEntryForUrl analyzer entryUrl (Some ignoreUrls)
  = Ok (filter (notIgnored ignoreUrls) all).
Proof.
  intros Hall. apply resolve_Ok in Hall. destruct Hall as (l & Hl & ->).
  unfold generatePushManifestEntryForUrl. rewrite Hl. f_equal.
  rewrite resolve_ignoring_filter by apply ObjFacts.wf_nil. reflexivity.
Qed.

Lemma ignore_list_filters_the_collection_sample :
  generatePushManifestEntryForUrl
    Sample.loaded "view.html" (Some ["shell.html"; "polymer.html"])
  = Ok (filter (notIgnored ["shell.html"; "polymer.html"])
               [ ("polymer.html", Sample.entry document);
                 ("shell.html", Sample.entry document);
                 ("view.css", Sample.entry style) ]).
Proof.
  apply (ignore_list_filters_the_collection
           Sample.loaded "view.html" ["shell.html"; "polymer.html"]).
  reflexivity.
Defined.

Lemma resolve_keys_in_order (ignoreUrls : option (list string))
      (analyzedImports : list Import) (entries : PushManifestEntryCollection) :
  (forall i, In i analyzedImports -> Obj.array_index (url i) = None) ->
  Obj.keys (fold_left (addImport ignoreUrls) analyzedImports entries)
  = (Obj.keys entries
       ++ firstOccurrences
            (Obj.keys entries)
            (filter (fun u => negb (shouldIgnoreFile ignoreUrls u)
                              && negb (Obj.inherited u))
                    (map url analyzedImports)))%list.
Proof.
  revert entries. induction analyzedImports as [|i l IH]; simpl;
    intros entries Hplain.
  - rewrite app_nil_r. reflexivity.
  - rewrite IH by auto. unfold addImport.
    rewrite ObjFilter.truthy_get.
    destruct (shouldIgnoreFile ignoreUrls (url i)); simpl; [reflexivity|].
    destruct (Obj.inherited (url i)) eqn:Hown; simpl.
    { rewrite orb_true_r. reflexivity. }
    rewrite orb_false_r.
    destruct (existsb (String.eqb (url i)) (Obj.keys entries)) eqn:E; simpl;
      [reflexivity|].
    rewrite ObjFilter.keys_set_plain by (auto using inherited_proto).
    rewrite E, <- app_assoc. simpl.
    do 2 f_equal. apply firstOccurrences_ext. intros u.
    rewrite existsb_app. simpl. rewrite orb_false_r. apply orb_comm.
Qed.

(** X6. When no imported URL is an array index, the keys of the collection
    are the imported URLs that are neither ignored nor names of members of
    [Object.prototype], in the order of the imports, each at its first
    occurrence. *)
Theorem resolution_keeps_the_order_of_the_imports
        (analyzer : Analyzer) (entryUrl : string)
        (ignoreUrls : option (list string)) (analyzedImports : list Import)
        (entries : PushManifestEntryCollection) :
  analyzer entryUrl = IsDocument analyzedImports ->
  (forall i, In i analyzedImports -> Obj.array_index (url i) = None) ->
  generatePushManifestEntryForUrl analyzer entryUrl ignoreUrls = Ok entries ->
  Obj.keys entries
  = firstOccurrences
      []
      (filter (fun u => negb (shouldIgnoreFile ignoreUrls u)
                        && negb (Obj.inherited u))
              (map url analyzedImports)).
Proof.
  intros Hdoc Hplain H. unfold generatePushManifestEntryForUrl in H.
  rewrite Hdoc in H. injection H as <-.
  rewrite resolve_keys_in_order by exact Hplain. reflexivity.
Qed.

Lemma resolution_keeps_the_order_of_the_imports_sample :
  Obj.keys [ ("polymer.html", Sample.entry document);
             ("view.css", Sample.entry style) ]
  = firstOccurrences
      []
      (filter (fun u => negb (shouldIgnoreFile (Some ["shell.html"]) u)
                        && negb (Obj.inherited u))
              ["polymer.html"; "shell.html"; "view.css"; "polymer.html"]).
Proof.
  apply (resolution_keeps_the_order_of_the_imports
           Sample.loaded "view.html" (Some ["shell.html"])
           [ Sample.edge "polymer.html" ["html-import"];
             Sample.edge "shell.html" ["html-import"];
             Sample.edge "view.css" ["css-import"];
             Sample.edge "polymer.html" ["html-script"] ]).
  - reflexivity.
  - intros i [<- | [<- | [<- | [<- | []]]]]; reflexivity.
  - reflexivity.
Defined.

(** ** What a manifest holds *)

Lemma resolve_In (ignoreUrls : option (list string))
      (analyzedImports : list Import) (entries : PushManifestEntryCollection)
      (k : string) (e : PushManifestEntry) :
  In (k, e) (fold_left (addImport ignoreUrls) analyzedImports entries) ->
  In (k, e) entries
  \/ exists i,
      In i analyzedImports /\ k = url i
      /\ shouldIgnoreFile ignoreUrls (url i) = false
      /\ e = createPushEntryFromImport i.
Proof.
  revert entries. induction analyzedImports as [|i l IH]; simpl;
    intros entries H; [auto|].
  apply IH in H. destruct H as [H | (j & Hj & Hk & Hign & He)].
  - unfold addImport in H.
    destruct (shouldIgnoreFile ignoreUrls (url i)) eqn:Hign; simpl in H;
      [auto|].
    destruct (truthy _); simpl in H; [auto|].
    apply ObjMore.set_In in H. destruct H as [H | H]; [|auto].
    injection H as -> ->. right. exists i. auto.
  - right. exists j. auto.
Qed.

Section Holds.

Variable urlFromPath : string -> string -> string.

Lemma rawPushManifest_keys (this : AddPushManifest) (raw : PushManifest)
      (key : string) :
  rawPushManifest urlFromPath this = Ok raw ->
  In key (Obj.keys raw) <->
  key <> "__proto__" /\ In key (requestedUrls urlFromPath this).
Proof.
  rewrite rawPushManifest_eq.
  destruct (generatePushManifestEntryForUrl _ _ None) as [c|e]; simpl;
    [|discriminate].
  intros H. rewrite (addFragments_keys _ _ _ _ _ _ _ key H).
  rewrite ObjFacts.keys_set. unfold requestedUrls. simpl.
  intuition congruence.
Qed.

Lemma rawPushManifest_get (this : AddPushManifest) (raw : PushManifest)
      (shellEntries : PushManifestEntryCollection) (key : string) :
  rawPushManifest urlFromPath this = Ok raw ->
  generatePushManifestEntryForUrl
    (currentAnalyzer this) (absoluteShellUrl urlFromPath this) None
  = Ok shellEntries ->
  Obj.get raw key
  = if String.eqb key "__proto__" then None
    else if existsb (String.eqb key)
                    (map (urlFromPath (root (config this)))
                         (fragments (config this)))
    then match generatePushManifestEntryForUrl
                 (currentAnalyzer this) key
                 (Some (absoluteShellUrl urlFromPath this
                          :: Obj.keys shellEntries)) with
         | Ok entries => Some entries
         | Throw _ => None
         end
    else if String.eqb key (absoluteShellUrl urlFromPath this)
         then Some shellEntries else None.
Proof.
  intros Hraw Hshell. rewrite rawPushManifest_eq, Hshell in Hraw.
  simpl in Hraw. rewrite (addFragments_get _ _ _ _ _ _ _ key Hraw).
  rewrite ObjFacts.get_set.
  change (Obj.get Obj.empty key) with (@None PushManifestEntryCollection).
  destruct (String.eqb_spec key "__proto__") as [->|Hp]; cbn [negb].
  - rewrite andb_false_r.
    destruct (String.eqb_spec (absoluteShellUrl urlFromPath this)
                              "__proto__") as [|Hs]; [reflexivity|].
    destruct (String.eqb_spec "__proto__" (absoluteShellUrl urlFromPath this));
      [congruence | reflexivity].
  - rewrite andb_true_r. destruct (existsb _ _); [reflexivity|].
    destruct (String.eqb_spec (absoluteShellUrl urlFromPath this)
                              "__proto__") as [Hs|Hs]; [|reflexivity].
    destruct (String.eqb_spec key (absoluteShellUrl urlFromPath this));
      [congruence | reflexivity].
Qed.

Lemma rawPushManifest_origin (this : AddPushManifest) (raw : PushManifest) :
  rawPushManifest urlFromPath this = Ok raw ->
  Forall (fun kc =>
            exists ignoreUrls,
              generatePushManifestEntryForUrl
                (currentAnalyzer this) (fst kc) ignoreUrls = Ok (snd kc))
         raw.
Proof.
  rewrite rawPushManifest_eq.
  destruct (generatePushManifestEntryForUrl _ _ None) as [c|e] eqn:Hc; simpl;
    [|discriminate].
  apply (addFragments_invariant
           urlFromPath
           (Forall (fun kc : string * PushManifestEntryCollection =>
                      exists ignoreUrls,
                        generatePushManifestEntryForUrl
                          (currentAnalyzer this) (fst kc) ignoreUrls
                        = Ok (snd kc)))).
  - intros pm f entries Hpm He. apply ObjMore.Forall_set; [|exact Hpm].
    simpl. eauto.
  - apply ObjMore.Forall_set; [|constructor]. simpl. eauto.
Qed.

(** X7. A generated manifest has a key for exactly the normalized URLs of
    the main push entry and of the fragments, those left out that are
    "__proto__" before or after normalization. *)
Theorem manifest_keys_are_the_entry_urls
        (this : AddPushManifest) (pushManifest : PushManifest) :
  generatePushManifest urlFromPath this = Ok pushManifest ->
  forall key,
    In key (Obj.keys pushManifest) <->
    key <> "__proto__"
    /\ exists entryUrl,
        In entryUrl (requestedUrls urlFromPath this)
        /\ entryUrl <> "__proto__"
        /\ normalize (basePath this) entryUrl = key.
Proof.
  intros H key. destruct (generatePushManifest_Ok _ _ _ H) as (raw & Hraw & ->).
  rewrite normalizeManifest_rekey, RekeyFacts.rekey_keys, in_map_iff.
  simpl. split.
  - intros [[] | (Hp & u & Hu & Hin)]. split; [exact Hp|].
    apply (rawPushManifest_keys _ _ _ Hraw) in Hin.
    destruct Hin as [Hup Hin]. exists u. auto.
  - intros (Hp & u & Hin & Hup & Hu). right. split; [exact Hp|].
    exists u. split; [exact Hu|].
    apply (rawPushManifest_keys _ _ _ Hraw). split; assumption.
Qed.

Lemma rawPushManifest_documents (this : AddPushManifest) (raw : PushManifest) :
  rawPushManifest urlFromPath this = Ok raw ->
  forallb (fun entryUrl => isDocument (currentAnalyzer this entryUrl))
          (requestedUrls urlFromPath this) = true.
Proof.
  intros Hraw. rewrite rawPushManifest_eq in Hraw.
  destruct (generatePushManifestEntryForUrl _ _ None) as [c|e] eqn:Hc;
    simpl in Hraw; [|discriminate].
  apply forallb_forall. intros u [<- | Hu].
  - eapply resolve_Ok_isDocument, Hc.
  - apply in_map_iff in Hu. destruct Hu as (f & <- & Hf).
    destruct (addFragments_resolved _ _ _ _ _ _ _ _ Hraw Hf) as (c' & Hc').
    eapply resolve_Ok_isDocument, Hc'.
Qed.

(** X8. The manifest is generated exactly when the analyzer has a document
    for the main push entry and for every fragment. *)
Theorem manifest_is_generated_iff_documents_exist (this : AddPushManifest) :
  (exists pushManifest,
      generatePushManifest urlFromPath this = Ok pushManifest)
  <-> forallb (fun entryUrl => isDocument (currentAnalyzer this entryUrl))
              (requestedUrls urlFromPath this) = true.
Proof.
  split.
  - intros (m & H). destruct (generatePushManifest_Ok _ _ _ H) as (raw & Hraw & _).
    eapply rawPushManifest_documents, Hraw.
  - intros H. destruct (rawPushManifest_succeeds _ _ H) as (raw & Hraw).
    exists (normalizeManifest (basePath this) raw).
    unfold generatePushManifest. rewrite Hraw. reflexivity.
Qed.

(** X9. When the shell is listed among the fragments as well, and its URL
    is not "__proto__", the entry under its URL is the collection of the
    fragment pass, and that one is empty: every import of the shell is in
    the ignore list. *)
Theorem shell_listed_as_fragment_has_no_dependencies
        (this : AddPushManifest) (pushManifest : PushManifest) :
  generatePushManifest urlFromPath this = Ok pushManifest ->
  In (absoluteShellUrl urlFromPath this)
     (map (urlFromPath (root (config this))) (fragments (config this))) ->
  absoluteShellUrl urlFromPath this <> "__proto__" ->
  exists raw,
    rawPushManifest urlFromPath this = Ok raw
    /\ Obj.get raw (absoluteShellUrl urlFromPath this) = Some []
    /\ (normalize (basePath this) (absoluteShellUrl urlFromPath this)
        <> "__proto__" ->
        (forall entryUrl,
            In entryUrl (requestedUrls urlFromPath this) ->
            normalize (basePath this) entryUrl
            = normalize (basePath this) (absoluteShellUrl urlFromPath this) ->
            entryUrl = absoluteShellUrl urlFromPath this) ->
        Obj.get pushManifest
                (normalize (basePath this) (absoluteShellUrl urlFromPath this))
        = Some []).
Proof.
  intros H Hin Hp.
  destruct (generatePushManifest_Ok _ _ _ H) as (raw & Hraw & ->).
  exists raw. split; [exact Hraw|].
  pose proof Hraw as Hloop. rewrite rawPushManifest_eq in Hloop.
  destruct (generatePushManifestEntryForUrl _ _ None) as [c|e] eqn:Hc;
    simpl in Hloop; [|discriminate].
  assert (Hget : Obj.get raw (absoluteShellUrl urlFromPath this) = Some []).
  { rewrite (rawPushManifest_get _ _ _ _ Hraw Hc).
    apply String.eqb_neq in Hp. rewrite Hp.
    replace (existsb _ _) with true
      by (symmetry; apply existsb_eqb_In, Hin).
    rewrite (resolve_ignoring_all _ _ _ _ Hc); [reflexivity|].
    intros target Ht. simpl. auto. }
  split; [exact Hget|].
  intros Hnp Halone. rewrite normalizeManifest_rekey.
  change (@nil (string * PushManifestEntry))
    with (normalizeTargets (basePath this) []).
  apply MergeFacts.rekey_get_alone;
    [eapply rawPushManifest_wf, Hraw | exact Hget | exact Hnp |].
  intros k Hk. apply Halone. apply (rawPushManifest_keys _ _ _ Hraw), Hk.
Qed.

(** X10. Every entry of a generated manifest comes from an import: its
    source is the normalized URL of the main push entry or of a fragment,
    its key the normalized URL of an import of that document, and its
    value the entry made from that import. *)
Theorem manifest_entries_come_from_imports
        (this : AddPushManifest) (pushManifest : PushManifest)
        (source : string) (targets : PushManifestEntryCollection)
        (target : string) (entry : PushManifestEntry) :
  generatePushManifest urlFromPath this = Ok pushManifest ->
  In (source, targets) pushManifest ->
  In (target, entry) targets ->
  exists entryUrl analyzedImports analyzedImport,
    In entryUrl (requestedUrls urlFromPath this)
    /\ source = normalize (basePath this) entryUrl
    /\ currentAnalyzer this entryUrl = IsDocument analyzedImports
    /\ In analyzedImport analyzedImports
    /\ target = normalize (basePath this) (url analyzedImport)
    /\ entry = createPushEntryFromImport analyzedImport.
Proof.
  intros H Hs Ht. destruct (generatePushManifest_Ok _ _ _ H) as (raw & Hraw & ->).
  apply normalizeManifest_In in Hs.
  destruct Hs as (key & entries & Hin & -> & ->).
  pose proof (rawPushManifest_origin _ _ Hraw) as Horigin.
  rewrite Forall_forall in Horigin.
  destruct (Horigin _ Hin) as (ignoreUrls & Hres). simpl in Hres.
  apply resolve_Ok in Hres. destruct Hres as (l & Hl & ->).
  rewrite normalizeTargets_rekey in Ht. apply RekeyFacts.rekey_In in Ht.
  destruct Ht as [[] | (k & e & Hke & -> & ->)].
  apply resolve_In in Hke. destruct Hke as [[] | (i & Hi & -> & _ & ->)].
  exists key, l, i. repeat split; try assumption.
  apply (rawPushManifest_keys _ _ _ Hraw). eapply ObjFacts.In_keys, Hin.
Qed.

Lemma existsb_eqb_same (key : string) (l l' : list string) :
  (forall x, In x l <-> In x l') ->
  existsb (String.eqb key) l = existsb (String.eqb key) l'.
Proof.
  intros H.
  destruct (existsb (String.eqb key) l) eqn:E, (existsb (String.eqb key) l')
    eqn:E'; try reflexivity.
  - apply existsb_eqb_In, H, existsb_eqb_In in E. congruence.
  - apply existsb_eqb_In, H, existsb_eqb_In in E'. congruence.
Qed.

(** Under entry URLs that normalization keeps apart, the manifest holds
    under the normalized URL of each of them, "__proto__" apart, its
    normalized collection, and nothing under any other key. *)
Lemma manifest_get (this : AddPushManifest) (raw : PushManifest) :
  rawPushManifest urlFromPath this = Ok raw ->
  (forall u u',
      In u (requestedUrls urlFromPath this) ->
      In u' (requestedUrls urlFromPath this) ->
      normalize (basePath this) u = normalize (basePath this) u' -> u = u') ->
  (forall u,
      In u (requestedUrls urlFromPath this) ->
      normalize (basePath this) u <> "__proto__" ->
      Obj.get (normalizeManifest (basePath this) raw)
              (normalize (basePath this) u)
      = option_map (normalizeTargets (basePath this)) (Obj.get raw u))
  /\ (forall s,
         s = "__proto__"
         \/ ~ In s (map (normalize (basePath this))
                        (requestedUrls urlFromPath this)) ->
         Obj.get (normalizeManifest (basePath this) raw) s = None).
Proof.
  intros Hraw Hinj. split.
  - intros u Hu Hp.
    destruct (Obj.get raw u) as [c|] eqn:Hget.
    + rewrite normalizeManifest_rekey. simpl.
      apply MergeFacts.rekey_get_alone;
        [eapply rawPushManifest_wf, Hraw | exact Hget | exact Hp |].
      intros k Hk Heq. apply Hinj; [|exact Hu|exact Heq].
      apply (rawPushManifest_keys _ _ _ Hraw), Hk.
    + simpl. rewrite normalizeManifest_rekey.
      rewrite RekeyFacts.rekey_get_other; [reflexivity|].
      intros k Hk Heq. apply ObjFacts.get_None in Hget. apply Hget.
      replace u with k; [exact Hk|].
      apply Hinj; [|exact Hu|exact Heq].
      apply (rawPushManifest_keys _ _ _ Hraw), Hk.
  - intros s Hs. apply ObjFacts.get_None. intros Hin.
    destruct Hs as [-> | Hs].
    { exact (normalizeManifest_proto _ _ Hin). }
    apply Hs.
    rewrite normalizeManifest_rekey in Hin.
    apply RekeyFacts.rekey_keys in Hin. destruct Hin as [[] | [_ Hin]].
    apply in_map_iff in Hin. destruct Hin as (u & <- & Hu).
    apply in_map, (rawPushManifest_keys _ _ _ Hraw), Hu.
Qed.

(** X11. The order of the fragments, and a fragment listed more than once,
    change nothing in what the manifest holds: with the same fragments in
    another list, and entry URLs that normalization keeps apart, the
    manifest is generated again and holds the same collection under every
    key. *)
Theorem fragment_order_does_not_matter
        (this : AddPushManifest) (others : list string)
        (pushManifest : PushManifest) :
  (forall fragment,
      In fragment others <-> In fragment (fragments (config this))) ->
  (forall u u',
      In u (requestedUrls urlFromPath this) ->
      In u' (requestedUrls urlFromPath this) ->
      normalize (basePath this) u = normalize (basePath this) u' -> u = u') ->
  generatePushManifest urlFromPath this = Ok pushManifest ->
  exists pushManifest',
    generatePushManifest urlFromPath (withFragments this others)
    = Ok pushManifest'
    /\ forall key, Obj.get pushManifest' key = Obj.get pushManifest key.
Proof.
  intros Hsame Hinj H.
  destruct (generatePushManifest_Ok _ _ _ H) as (raw & Hraw & ->).
  assert (Hurls : forall u,
             In u (requestedUrls urlFromPath (withFragments this others))
             <-> In u (requestedUrls urlFromPath this)).
  { intros u. unfold requestedUrls. simpl.
    change (absoluteShellUrl urlFromPath (withFragments this others))
      with (absoluteShellUrl urlFromPath this).
    rewrite !in_map_iff. split; (intros [Hu | (f & Hf & Hin)]; [auto|]);
      right; exists f; split; auto; apply Hsame, Hin. }
  destruct (rawPushManifest_succeeds urlFromPath (withFragments this others))
    as (raw' & Hraw').
  { apply forallb_forall. intros u Hu. apply Hurls in Hu.
    pose proof (rawPushManifest_documents _ _ Hraw) as Hdocs.
    rewrite forallb_forall in Hdocs. apply (Hdocs _ Hu). }
  exists (normalizeManifest (basePath this) raw'). split.
  { unfold generatePushManifest. rewrite Hraw'. reflexivity. }
  pose proof Hraw as Hshell. rewrite rawPushManifest_eq in Hshell.
  destruct (generatePushManifestEntryForUrl _ _ None) as [c|e] eqn:Hc;
    simpl in Hshell; [|discriminate]. clear Hshell.
  assert (Hget : forall u, Obj.get raw' u = Obj.get raw u).
  { intros u. rewrite (rawPushManifest_get _ _ _ u Hraw Hc).
    rewrite (rawPushManifest_get (withFragments this others) _ c u Hraw' Hc).
    simpl.
    change (absoluteShellUrl urlFromPath (withFragments this others))
      with (absoluteShellUrl urlFromPath this).
    change (currentAnalyzer (withFragments this others))
      with (currentAnalyzer this).
    rewrite (existsb_eqb_same
               u (map (urlFromPath (root (config this))) others)
               (map (urlFromPath (root (config this)))
                    (fragments (config this)))); [reflexivity|].
    intros x. rewrite !in_map_iff.
    split; intros (f & Hf & Hin); exists f; split; auto; apply Hsame, Hin. }
  destruct (manifest_get this raw Hraw Hinj) as [Hin Hout].
  destruct (manifest_get (withFragments this others) raw' Hraw')
    as [Hin' Hout'].
  { intros u u' Hu Hu'. apply Hinj; apply Hurls; assumption. }
  intros key.
  destruct (string_dec key "__proto__") as [Hp | Hp].
  { rewrite (Hout key) by auto. apply Hout'. auto. }
  destruct (in_dec string_dec key
                   (map (normalize (basePath this))
                        (requestedUrls urlFromPath this))) as [Hk | Hk].
  - apply in_map_iff in Hk. destruct Hk as (u & <- & Hu).
    rewrite (Hin u Hu Hp).
    change (basePath this) with (basePath (withFragments this others)) at 1 2.
    rewrite (Hin' u) by (try apply Hurls; assumption).
    simpl. rewrite Hget. reflexivity.
  - rewrite (Hout key) by auto.
    apply Hout'. right.
    change (basePath (withFragments this others)) with (basePath this).
    intros Hk'. apply Hk.
    apply in_map_iff in Hk'. destruct Hk' as (u & <- & Hu).
    apply in_map, Hurls, Hu.
Qed.

End Holds.

Lemma manifest_keys_are_the_entry_urls_sample :
  In "view.html" ["shell.html"; "view.html"] <->
  "view.html" <> "__proto__"
  /\ exists entryUrl,
      In entryUrl ["shell.html"; "view.html"]
      /\ entryUrl <> "__proto__"
      /\ normalize "" entryUrl = "view.html".
Proof.
  apply (manifest_keys_are_the_entry_urls
           Sample.urlFromPath (Sample.stream Sample.withShell)
           [ ("shell.html",
              [ ("polymer.html", Sample.entry document);
                ("shell.js", Sample.entry script) ]);
             ("view.html", [ ("view.css", Sample.entry style) ]) ]
           eq_refl "view.html").
Defined.

Lemma manifest_is_generated_iff_documents_exist_sample :
  exists pushManifest,
    generatePushManifest Sample.urlFromPath (Sample.stream Sample.withShell)
    = Ok pushManifest.
Proof.
  apply (proj2 (manifest_is_generated_iff_documents_exist
                  Sample.urlFromPath (Sample.stream Sample.withShell))).
  reflexivity.
Defined.

Lemma shell_listed_as_fragment_has_no_dependencies_sample :
  exists raw,
    rawPushManifest Sample.urlFromPath (Sample.stream Sample.shellAsFragment)
    = Ok raw
    /\ Obj.get raw "shell.html" = Some []
    /\ (normalize "" "shell.html" <> "__proto__" ->
        (forall entryUrl,
            In entryUrl ["shell.html"; "shell.html"; "view.html"] ->
            normalize "" entryUrl = normalize "" "shell.html" ->
            entryUrl = "shell.html") ->
        Obj.get [ ("shell.html", []);
                  ("view.html", [ ("view.css", Sample.entry style) ]) ]
                (normalize "" "shell.html")
        = Some []).
Proof.
  apply (shell_listed_as_fragment_has_no_dependencies
           Sample.urlFromPath (Sample.stream Sample.shellAsFragment)
           [ ("shell.html", []);
             ("view.html", [ ("view.css", Sample.entry style) ]) ]).
  - reflexivity.
  - simpl. auto.
  - discriminate.
Defined.

Lemma manifest_entries_come_from_imports_sample :
  exists entryUrl analyzedImports analyzedImport,
    In entryUrl ["shell.html"; "view.html"]
    /\ "view.html" = normalize "" entryUrl
    /\ Sample.loaded entryUrl = IsDocument analyzedImports
    /\ In analyzedImport analyzedImports
    /\ "view.css" = normalize "" (url analyzedImport)
    /\ Sample.entry style = createPushEntryFromImport analyzedImport.
Proof.
  apply (manifest_entries_come_from_imports
           Sample.urlFromPath (Sample.stream Sample.withShell)
           [ ("shell.html",
              [ ("polymer.html", Sample.entry document);
                ("shell.js", Sample.entry script) ]);
             ("view.html", [ ("view.css", Sample.entry style) ]) ]
           "view.html" [ ("view.css", Sample.entry style) ]
           "view.css" (Sample.entry style)).
  - reflexivity.
  - simpl. auto.
  - simpl. auto.
Defined.

Lemma fragment_order_does_not_matter_sample :
  exists pushManifest',
    generatePushManifest
      Sample.urlFromPath
      (withFragments (Sample.stream Sample.shellAsFragment)
                     ["/app/view.html"; "/app/shell.html"; "/app/view.html"])
    = Ok pushManifest'
    /\ forall key,
        Obj.get pushManifest' key
        = Obj.get [ ("shell.html", []);
                    ("view.html", [ ("view.css", Sample.entry style) ]) ]
                  key.
Proof.
  apply (fragment_order_does_not_matter
           Sample.urlFromPath (Sample.stream Sample.shellAsFragment)
           ["/app/view.html"; "/app/shell.html"; "/app/view.html"]
           [ ("shell.html", []);
             ("view.html", [ ("view.css", Sample.entry style) ]) ]).
  - intros fragment. simpl. tauto.
  - intros u u' Hu Hu'. simpl in Hu, Hu'.
    destruct Hu as [<- | [<- | [<- | []]]];
      destruct Hu' as [<- | [<- | [<- | []]]];
      vm_compute; intros E; (reflexivity || discriminate E).
  - reflexivity.
Defined.

(** ** URLs made of names *)

Module CleanFacts.
Import Path JoinFacts.

#[local] Arguments String.eqb : simpl never.

Lemma named_segment (s : string) : named s = true -> segment s = true.
Proof. unfold named. rewrite andb_true_iff. tauto. Qed.

Lemma named_segments (l : list string) :
  forallb named l = true -> forallb segment l = true.
Proof.
  induction l as [|s l IH]; simpl; [reflexivity|].
  rewrite !andb_true_iff. intros [Hs Hl].
  split; [apply named_segment, Hs | auto].
Qed.

Lemma normalize_step_named (allow : bool) (res : list string) (s : string) :
  named s = true -> normalize_step allow res s = s :: res.
Proof.
  unfold named, segment, normalize_step.
  rewrite !andb_true_iff, !negb_true_iff.
  intros [[[_ ->] ->] ->]. reflexivity.
Qed.

Lemma fold_named (allow : bool) (l res : list string) :
  forallb named l = true ->
  fold_left (normalize_step allow) l res = (rev l ++ res)%list.
Proof.
  revert res. induction l as [|s l IH]; simpl; intros res H; [reflexivity|].
  apply andb_true_iff in H. destruct H as [Hs Hl].
  rewrite normalize_step_named, IH, <- app_assoc by assumption. reflexivity.
Qed.

Lemma concat_app (l1 l2 : list string) :
  l1 <> [] -> l2 <> [] ->
  String.concat "/" (l1 ++ l2)
  = String.concat "/" l1 ++ String slash (String.concat "/" l2).
Proof.
  intros H1 H2. induction l1 as [|s l1 IH]; [contradiction|].
  destruct l1 as [|s' r].
  - destruct l2 as [|t l2]; [contradiction|]. reflexivity.
  - change ((s :: s' :: r) ++ l2)%list with (s :: ((s' :: r) ++ l2))%list.
    change ((s' :: r) ++ l2)%list with (s' :: (r ++ l2))%list in *.
    rewrite !concat_cons2, IH by discriminate.
    rewrite append_assoc. reflexivity.
Qed.

Lemma split_slash_concat_app (l : list string) (r : string) :
  l <> [] -> forallb no_slash l = true ->
  split_slash (String.concat "/" l ++ String slash r)
  = (l ++ split_slash r)%list.
Proof.
  induction l as [|s l IH]; [contradiction|]. intros _ H.
  cbn [forallb] in H. apply andb_true_iff in H. destruct H as [Hs Hl].
  destruct l as [|s' l'].
  - apply split_slash_app, Hs.
  - rewrite concat_cons2, append_assoc.
    change (String slash (String.concat "/" (s' :: l')) ++ String slash r)
      with (String slash (String.concat "/" (s' :: l') ++ String slash r)).
    rewrite split_slash_app by exact Hs.
    rewrite IH by (discriminate || exact Hl). reflexivity.
Qed.

(** [path.posix.normalize] read on the segments that its scan keeps. *)
Lemma normalize_by_segments (s : string) (segs : list string) :
  s <> "" ->
  fold_left (normalize_step (negb (starts_with_slash s))) (split_slash s) []
  = rev segs ->
  segs <> [] -> forallb segment segs = true ->
  Path.normalize s
  = (if starts_with_slash s then "/" else "")
      ++ relative_text segs (ends_with_slash s).
Proof.
  intros Hs Hfold Hne Hsegs.
  unfold Path.normalize, normalizeString, normalize_segments.
  destruct (String.eqb_spec s ""); [contradiction|].
  rewrite Hfold, rev_involutive.
  destruct (concat_head segs Hne Hsegs) as (c & rest & Heq & _).
  rewrite Heq. replace (String.eqb (String c rest) "") with false
    by reflexivity.
  rewrite <- Heq. reflexivity.
Qed.

Lemma relative_names (segs : list string) :
  segs <> [] -> forallb named segs = true ->
  Path.normalize (String.concat "/" segs) = String.concat "/" segs.
Proof.
  intros Hne H. pose proof (named_segments _ H) as Hsegs.
  destruct (concat_head segs Hne Hsegs) as (c & rest & Heq & Hc).
  rewrite (normalize_by_segments _ segs); try assumption.
  - rewrite Heq at 1. cbn [starts_with_slash]. rewrite Hc.
    rewrite ends_with_slash_concat by assumption.
    unfold relative_text. rewrite append_nil_r. reflexivity.
  - rewrite Heq. discriminate.
  - rewrite Heq at 1. cbn [starts_with_slash]. rewrite Hc. cbn [negb].
    rewrite split_slash_concat by (exact Hne || apply segments_no_slash, Hsegs).
    rewrite fold_named, app_nil_r by exact H. reflexivity.
Qed.

Lemma absolute_names (segs : list string) :
  segs <> [] -> forallb named segs = true ->
  Path.normalize (String slash (String.concat "/" segs))
  = String slash (String.concat "/" segs).
Proof.
  intros Hne H. pose proof (named_segments _ H) as Hsegs.
  destruct (concat_head segs Hne Hsegs) as (c & rest & Heq & Hc).
  rewrite (normalize_by_segments _ segs); try assumption.
  - cbn [starts_with_slash]. replace (is_slash slash) with true by reflexivity.
    rewrite ends_with_slash_cons by (rewrite Heq; discriminate).
    rewrite ends_with_slash_concat by assumption.
    unfold relative_text. rewrite append_nil_r. reflexivity.
  - discriminate.
  - cbn [starts_with_slash split_slash].
    replace (is_slash slash) with true by reflexivity. cbn [negb fold_left].
    rewrite split_slash_concat by (exact Hne || apply segments_no_slash, Hsegs).
    change (normalize_step false [] "") with (@nil string).
    rewrite fold_named, app_nil_r by exact H. reflexivity.
Qed.

(** A doubled slash between two runs of names is read as one. *)
Lemma doubled_slash_names (l1 l2 : list string) :
  l1 <> [] -> l2 <> [] ->
  forallb named l1 = true -> forallb named l2 = true ->
  Path.normalize
    (String.concat "/" l1 ++ String slash (String slash (String.concat "/" l2)))
  = String.concat "/" (l1 ++ l2).
Proof.
  intros H1 H2 Hn1 Hn2.
  pose proof (named_segments _ Hn1) as Hs1.
  pose proof (named_segments _ Hn2) as Hs2.
  assert (Hn : forallb named (l1 ++ l2) = true)
    by (rewrite forallb_app, Hn1, Hn2; reflexivity).
  assert (Hne : (l1 ++ l2)%list <> [])
    by (destruct l1; [contradiction | discriminate]).
  destruct (concat_head l1 H1 Hs1) as (c & rest & Heq & Hc).
  destruct (concat_head l2 H2 Hs2) as (c2 & rest2 & Heq2 & _).
  rewrite (normalize_by_segments _ (l1 ++ l2));
    try assumption; try (apply named_segments, Hn).
  - rewrite Heq at 1. cbn [append starts_with_slash]. rewrite Hc.
    rewrite ends_with_slash_app by discriminate.
    rewrite ends_with_slash_cons by discriminate.
    rewrite ends_with_slash_cons by (rewrite Heq2; discriminate).
    rewrite ends_with_slash_concat by assumption.
    unfold relative_text. rewrite append_nil_r. reflexivity.
  - rewrite Heq. discriminate.
  - rewrite Heq at 1. cbn [append starts_with_slash]. rewrite Hc. cbn [negb].
    rewrite split_slash_concat_app
      by (exact H1 || apply segments_no_slash, Hs1).
    cbn [split_slash]. replace (is_slash slash) with true by reflexivity.
    rewrite split_slash_concat by (exact H2 || apply segments_no_slash, Hs2).
    rewrite fold_left_app, (fold_named true l1) by exact Hn1.
    cbn [fold_left].
    change (normalize_step true (rev l1 ++ []) "") with (rev l1 ++ [])%list.
    rewrite fold_named, app_nil_r, rev_app_distr by exact Hn2. reflexivity.
Qed.

Lemma concat_not_empty (segs : list string) :
  segs <> [] -> forallb named segs = true ->
  String.eqb (String.concat "/" segs) "" = false
  /\ starts_with_slash (String.concat "/" segs) = false.
Proof.
  intros Hne H.
  destruct (concat_head segs Hne (named_segments _ H)) as (c & rest & -> & Hc).
  split; [reflexivity | exact Hc].
Qed.

Lemma join_two (a b : string) :
  a <> "" -> b <> "" ->
  Path.join [a; b] = Path.normalize (a ++ String slash b).
Proof.
  intros Ha Hb. unfold Path.join. cbn [filter].
  destruct (String.eqb_spec a ""); [contradiction|].
  destruct (String.eqb_spec b ""); [contradiction|].
  reflexivity.
Qed.

End CleanFacts.

(** X12. For a base path and a URL made of names, normalization puts the
    segments of the base path in front of those of the URL, joined by
    single slashes, and a slash at the head of the URL is dropped; under
    the empty base path the URL comes back without its leading slash. *)
Theorem normalize_puts_the_base_path_in_front (base segs : list string) :
  segs <> [] ->
  forallb Path.named base = true -> forallb Path.named segs = true ->
  normalize (String.concat "/" base) (String.concat "/" segs)
  = String.concat "/" (base ++ segs)
  /\ normalize (String.concat "/" base)
               (String slash (String.concat "/" segs))
     = String.concat "/" (base ++ segs).
Proof.
  intros Hne Hbase Hsegs.
  destruct (CleanFacts.concat_not_empty segs Hne Hsegs) as [Hfull Hrel].
  assert (Hall : forallb Path.named (base ++ segs) = true)
    by (rewrite forallb_app, Hbase, Hsegs; reflexivity).
  assert (Hne' : (base ++ segs)%list <> [])
    by (destruct base; [exact Hne | discriminate]).
  destruct (CleanFacts.concat_not_empty _ Hne' Hall) as [_ Hrel'].
  assert (Hp : String.concat "/" segs <> "")
    by (intros E; rewrite E in Hfull; discriminate).
  unfold normalize. destruct base as [|b base].
  - cbn [String.concat app]. rewrite !NormalizeFacts.join_one. split.
    + rewrite CleanFacts.relative_names by assumption.
      apply JoinFacts.strip_leading_slashes_id, Hrel.
    + rewrite CleanFacts.absolute_names by assumption.
      cbn [strip_leading_slashes].
      replace (is_slash slash) with true by reflexivity.
      apply JoinFacts.strip_leading_slashes_id, Hrel.
  - destruct (CleanFacts.concat_not_empty (b :: base)) as [Hb _];
      [discriminate | exact Hbase |].
    assert (Hb' : String.concat "/" (b :: base) <> "")
      by (intros E; rewrite E in Hb; discriminate).
    rewrite !CleanFacts.join_two by (assumption || discriminate). split.
    + rewrite <- CleanFacts.concat_app by (discriminate || exact Hne).
      rewrite CleanFacts.relative_names by assumption.
      apply JoinFacts.strip_leading_slashes_id, Hrel'.
    + rewrite CleanFacts.doubled_slash_names
        by (discriminate || assumption).
      apply JoinFacts.strip_leading_slashes_id, Hrel'.
Qed.

Lemma normalize_puts_the_base_path_in_front_sample :
  normalize "static/v2" "css/app.css" = "static/v2/css/app.css"
  /\ normalize "static/v2" "/css/app.css" = "static/v2/css/app.css".
Proof.
  apply (normalize_puts_the_base_path_in_front
           ["static"; "v2"] ["css"; "app.css"]).
  - discriminate.
  - reflexivity.
  - reflexivity.
Defined.

(** ** Normalization that keeps the keys apart *)

Module ApartFacts.
Import Obj ObjFacts ObjMore RekeyFacts.

Lemma NoDup_map_on {A B} (f : A -> B) (l : list A) :
  NoDup l ->
  (forall x y, In x l -> In y l -> f x = f y -> x = y) ->
  NoDup (map f l).
Proof.
  induction l as [|a l IH]; simpl; intros Hnd Hinj; [constructor|].
  inversion Hnd as [|? ? Hnotin Hnd']; subst. constructor.
  - intros Hin. apply in_map_iff in Hin. destruct Hin as (x & Hx & Hin).
    apply Hnotin. rewrite <- (Hinj x a); auto.
  - apply IH; auto.
Qed.

Lemma rekey_length {V W} (rename : string -> string) (f : V -> W) (o : t V) :
  List.length (rekey rename f o empty) <= List.length o.
Proof.
  assert (H : List.length (keys (rekey rename f o empty))
              <= List.length (map rename (keys o))).
  { apply NoDup_incl_length.
    - apply wf_NoDup, rekey_wf, wf_nil.
    - intros s Hs. apply rekey_keys in Hs.
      destruct Hs as [Hs | [_ Hs]]; [contradiction | assumption]. }
  unfold keys in H. rewrite !length_map in H. exact H.
Qed.

(** Keys that stay apart under the renaming, and away from "__proto__",
    keep every property. *)
Lemma rekey_apart {V W} (rename : string -> string) (f : V -> W) (o : t V) :
  wf o ->
  (forall k k',
      In k (keys o) -> In k' (keys o) -> rename k = rename k' -> k = k') ->
  (forall k, In k (keys o) -> rename k <> "__proto__") ->
  List.length (rekey rename f o empty) = List.length o
  /\ forall k,
      In k (keys o) ->
      get (rekey rename f o empty) (rename k) = option_map f (get o k).
Proof.
  intros Hwf Hinj Hp. split.
  - apply Nat.le_antisymm; [apply rekey_length|].
    assert (H : List.length (map rename (keys o))
                <= List.length (keys (rekey rename f o empty))).
    { apply NoDup_incl_length.
      - apply NoDup_map_on; [apply wf_NoDup, Hwf | exact Hinj].
      - intros s Hs. apply rekey_keys. right. split; [|exact Hs].
        apply in_map_iff in Hs. destruct Hs as (k & <- & Hk).
        apply Hp, Hk. }
    unfold keys in H. rewrite !length_map in H. exact H.
  - intros k Hk. destruct (get o k) as [v|] eqn:Hget.
    + simpl. apply MergeFacts.rekey_get_alone; auto.
    + apply get_None in Hget. contradiction.
Qed.

End ApartFacts.

(** X13. Normalization never adds a property; and when it keeps the URLs
    of a collection apart, or the keys of a manifest, and normalizes none
    of them to "__proto__", it keeps every property: the output has as many
    properties as the input, and each normalized URL holds what the URL
    held. *)
Theorem normalization_keeps_what_it_keeps_apart :
  (forall basePath (entries : PushManifestEntryCollection),
      List.length (normalizeTargets basePath entries) <= List.length entries)
  /\ (forall basePath (entries : PushManifestEntryCollection),
         Obj.wf entries ->
         (forall k k',
             In k (Obj.keys entries) -> In k' (Obj.keys entries) ->
             normalize basePath k = normalize basePath k' -> k = k') ->
         (forall k,
             In k (Obj.keys entries) -> normalize basePath k <> "__proto__") ->
         List.length (normalizeTargets basePath entries)
         = List.length entries
         /\ forall k,
             In k (Obj.keys entries) ->
             Obj.get (normalizeTargets basePath entries)
                     (normalize basePath k)
             = Obj.get entries k)
  /\ (forall basePath (pushManifest : PushManifest),
         Obj.wf pushManifest ->
         (forall k k',
             In k (Obj.keys pushManifest) -> In k' (Obj.keys pushManifest) ->
             normalize basePath k = normalize basePath k' -> k = k') ->
         (forall k,
             In k (Obj.keys pushManifest) ->
             normalize basePath k <> "__proto__") ->
         List.length (normalizeManifest basePath pushManifest)
         = List.length pushManifest
         /\ forall k,
             In k (Obj.keys pushManifest) ->
             Obj.get (normalizeManifest basePath pushManifest)
                     (normalize basePath k)
             = option_map (normalizeTargets basePath)
                          (Obj.get pushManifest k)).
Proof.
  split; [|split].
  - intros basePath entries. rewrite normalizeTargets_rekey.
    apply ApartFacts.rekey_length.
  - intros basePath entries Hwf Hinj Hp. rewrite normalizeTargets_rekey.
    destruct (ApartFacts.rekey_apart (normalize basePath)
                                     (fun e : PushManifestEntry => e)
                                     entries Hwf Hinj Hp) as [Hlen Hget].
    split; [exact Hlen|]. intros k Hk. rewrite (Hget k Hk).
    destruct (Obj.get entries k); reflexivity.
  - intros basePath pushManifest Hwf Hinj Hp. rewrite normalizeManifest_rekey.
    apply ApartFacts.rekey_apart; assumption.
Qed.

Lemma normalization_keeps_what_it_keeps_apart_sample :
  List.length (normalizeTargets
                 "" [ ("/css/app.css", Sample.entry style);
                      ("js/app.js", Sample.entry script) ])
  = 2
  /\ forall k,
      In k ["/css/app.css"; "js/app.js"] ->
      Obj.get (normalizeTargets
                 "" [ ("/css/app.css", Sample.entry style);
                      ("js/app.js", Sample.entry script) ])
              (normalize "" k)
      = Obj.get [ ("/css/app.css", Sample.entry style);
                  ("js/app.js", Sample.entry script) ] k.
Proof.
  apply (proj1 (proj2 normalization_keeps_what_it_keeps_apart)
               "" [ ("/css/app.css", Sample.entry style);
                    ("js/app.js", Sample.entry script) ]).
  - repeat constructor; simpl; intuition discriminate.
  - intros k k' [<- | [<- | []]] [<- | [<- | []]]; vm_compute;
      intros E; (reflexivity || discriminate E).
  - intros k [<- | [<- | []]]; vm_compute; discriminate.
Defined.

(** ** The constructor and the file map *)

(** X14. For a root and an output path made of names, the root absolute,
    the manifest file is the output path under the root; without an output
    path it is "push-manifest.json" under the root. *)
Theorem manifest_path_is_under_the_root
        (newAnalyzer : JSMap.t File -> Analyzer) (projectConfig : ProjectConfig)
        (out base : option string) (rootSegs pathSegs : list string) :
  rootSegs <> [] -> pathSegs <> [] ->
  forallb Path.named rootSegs = true -> forallb Path.named pathSegs = true ->
  root projectConfig = String slash (String.concat "/" rootSegs) ->
  or_string out "push-manifest.json" = String.concat "/" pathSegs ->
  outPath (new newAnalyzer projectConfig out base)
  = root projectConfig
      ++ String slash (or_string out "push-manifest.json").
Proof.
  intros Hr Hp Hroot Hpath Eroot Epath. unfold new. cbn [outPath].
  destruct (CleanFacts.concat_not_empty pathSegs Hp Hpath) as [Hfull _].
  rewrite CleanFacts.join_two.
  - rewrite Eroot, Epath.
    change (String slash (String.concat "/" rootSegs)
              ++ String slash (String.concat "/" pathSegs))
      with (String slash (String.concat "/" rootSegs
                            ++ String slash (String.concat "/" pathSegs))).
    rewrite <- CleanFacts.concat_app by assumption.
    apply CleanFacts.absolute_names.
    + destruct rootSegs; [contradiction | discriminate].
    + rewrite forallb_app, Hroot, Hpath. reflexivity.
  - rewrite Eroot. discriminate.
  - rewrite Epath. intros E. rewrite E in Hfull. discriminate.
Qed.

Lemma manifest_path_is_under_the_root_sample :
  outPath (new (Sample.analyzer Sample.imports) Sample.withShell None None)
  = "/app" ++ String slash "push-manifest.json".
Proof.
  apply (manifest_path_is_under_the_root
           (Sample.analyzer Sample.imports) Sample.withShell None None
           ["app"] ["push-manifest.json"]);
    (reflexivity || discriminate).
Defined.

Module JSMapFacts.
Import JSMap.

Lemma map_get_set {V} (m : t V) (k k' : string) (v : V) :
  get (set m k v) k' = if String.eqb k' k then Some v else get m k'.
Proof.
  induction m as [|[k0 v0] m IH]; simpl; [reflexivity|].
  destruct (String.eqb_spec k k0) as [->|Hk]; simpl.
  - destruct (String.eqb k' k0); reflexivity.
  - rewrite IH. destruct (String.eqb_spec k' k0) as [->|]; [|reflexivity].
    destruct (String.eqb_spec k0 k); [congruence | reflexivity].
Qed.

End JSMapFacts.

Section Files.

Variable urlFromPath : string -> string -> string.

Lemma registerAll_app (this : AddPushManifest) (before after : list File) :
  registerAll urlFromPath this (before ++ after)
  = registerAll urlFromPath (registerAll urlFromPath this before) after.
Proof. unfold registerAll. apply fold_left_app. Qed.

Lemma registerAll_other (this : AddPushManifest) (input : list File)
      (u : string) :
  (forall file,
      In file input -> urlFromPath (root (config this)) (path file) <> u) ->
  JSMap.get (files (registerAll urlFromPath this input)) u
  = JSMap.get (files this) u.
Proof.
  unfold registerAll. revert this.
  induction input as [|file input IH]; simpl; intros this H; [reflexivity|].
  rewrite IH by (intros f Hf; apply (H f); auto).
  simpl. rewrite JSMapFacts.map_get_set.
  destruct (String.eqb_spec u (urlFromPath (root (config this)) (path file)))
    as [->|]; [|reflexivity].
  exfalso. apply (H file); auto.
Qed.

(** X15. After the stream has read its input, the file map holds under
    each URL the last file read with that URL, and under any other URL
    what it held before. *)
Theorem file_map_holds_the_last_file_of_each_url (this : AddPushManifest) :
  (forall before file after,
      (forall later,
          In later after ->
          urlFromPath (root (config this)) (path later)
          <> urlFromPath (root (config this)) (path file)) ->
      JSMap.get (files (registerAll urlFromPath this
                                    (before ++ file :: after)))
                (urlFromPath (root (config this)) (path file))
      = Some file)
  /\ (forall input u,
         (forall file,
             In file input ->
             urlFromPath (root (config this)) (path file) <> u) ->
         JSMap.get (files (registerAll urlFromPath this input)) u
         = JSMap.get (files this) u).
Proof.
  split.
  - intros before file after Hafter.
    rewrite registerAll_app.
    change (registerAll urlFromPath (registerAll urlFromPath this before)
                        (file :: after))
      with (registerAll urlFromPath
                        (addFile urlFromPath
                                 (registerAll urlFromPath this before) file)
                        after).
    destruct (registerAll_fields urlFromPath this before)
      as (_ & Hconfig & _ & _).
    rewrite registerAll_other.
    + simpl. rewrite Hconfig, JSMapFacts.map_get_set, String.eqb_refl.
      reflexivity.
    + simpl. rewrite Hconfig. exact Hafter.
  - intros input u. apply registerAll_other.
Qed.

(** X16. Whatever the analyzer does, the stream yields the files it read,
    unchanged and in order, before anything else: after them comes the
    manifest file alone when the generator returns, and nothing when it
    throws. *)
Theorem files_are_forwarded_whatever_happens
        (this : AddPushManifest) (input : list File) :
  firstn (List.length input) (fst (_transformIter urlFromPath this input))
  = input
  /\ ((exists e,
          _transformIter urlFromPath this input = (input, Throw e)
          /\ generatePushManifest urlFromPath
                                  (registerAll urlFromPath this input)
             = Throw e)
      \/ (exists manifestFile,
             _transformIter urlFromPath this input
             = ((input ++ [manifestFile])%list, Ok tt)
             /\ path manifestFile = outPath this)).
Proof.
  rewrite _transformIter_eq.
  destruct (generatePushManifest urlFromPath
                                 (registerAll urlFromPath this input))
    as [m|e]; simpl; split.
  - rewrite firstn_app, Nat.sub_diag, firstn_all. simpl.
    apply app_nil_r.
  - right. eexists. split; reflexivity.
  - apply firstn_all.
  - left. exists e. split; reflexivity.
Qed.

End Files.

Lemma file_map_holds_the_last_file_of_each_url_sample :
  JSMap.get
    (files (registerAll
              Sample.urlFromPath
              (new (Sample.analyzer Sample.imports) Sample.withShell None None)
              ([ Sample.file "/app/index.html"]
                 ++ {| path := "/app/shell.html"; contents := "v2" |}
                 :: [ Sample.file "/app/view.html" ])))
    "shell.html"
  = Some {| path := "/app/shell.html"; contents := "v2" |}.
Proof.
  apply (proj1 (file_map_holds_the_last_file_of_each_url
                  Sample.urlFromPath
                  (new (Sample.analyzer Sample.imports) Sample.withShell
                       None None))
               [ Sample.file "/app/index.html" ]
               {| path := "/app/shell.html"; contents := "v2" |}
               [ Sample.file "/app/view.html" ]).
  intros later [<- | []]. discriminate.
Defined.

(** ** What the build asks of the analyzer *)

Section Asks.

Variable urlFromPath : string -> string -> string.

Lemma resolve_same (analyzer analyzer' : Analyzer) (entryUrl : string)
      (ignoreUrls : option (list string)) :
  analyzer' entryUrl = analyzer entryUrl ->
  generatePushManifestEntryForUrl analyzer' entryUrl ignoreUrls
  = generatePushManifestEntryForUrl analyzer entryUrl ignoreUrls.
Proof. unfold generatePushManifestEntryForUrl. intros ->. reflexivity. Qed.

Lemma addFragments_same (analyzer analyzer' : Analyzer) (root : string)
      (ignoreUrls : list string) (fragments : list string)
      (pushManifest : PushManifest) :
  (forall fragment,
      In fragment fragments ->
      analyzer' (urlFromPath root fragment)
      = analyzer (urlFromPath root fragment)) ->
  addFragments urlFromPath analyzer' root ignoreUrls fragments pushManifest
  = addFragments urlFromPath analyzer root ignoreUrls fragments pushManifest.
Proof.
  revert pushManifest. induction fragments as [|f rest IH]; simpl;
    intros pm H; [reflexivity|].
  rewrite (resolve_same analyzer analyzer') by auto.
  destruct (generatePushManifestEntryForUrl analyzer _ _); simpl;
    [apply IH; auto | reflexivity].
Qed.

(** X17. The build asks the analyzer for the documents of the main push
    entry and of the fragments and for no other: an analyzer that answers
    alike for those URLs gives the same manifest, or the same error,
    whatever it answers for the documents that they import. *)
Theorem only_the_entry_urls_are_analyzed
        (this : AddPushManifest) (other : JSMap.t File -> Analyzer) :
  (forall entryUrl,
      In entryUrl (requestedUrls urlFromPath this) ->
      other (files this) entryUrl = currentAnalyzer this entryUrl) ->
  generatePushManifest urlFromPath (withAnalyzer this other)
  = generatePushManifest urlFromPath this.
Proof.
  intros Hsame. unfold generatePushManifest.
  change (basePath (withAnalyzer this other)) with (basePath this).
  rewrite !rawPushManifest_eq.
  change (absoluteShellUrl urlFromPath (withAnalyzer this other))
    with (absoluteShellUrl urlFromPath this).
  change (currentAnalyzer (withAnalyzer this other)) with (other (files this)).
  change (config (withAnalyzer this other)) with (config this).
  rewrite (resolve_same (currentAnalyzer this) (other (files this)))
    by (apply Hsame; unfold requestedUrls; simpl; auto).
  destruct (generatePushManifestEntryForUrl (currentAnalyzer this) _ None)
    as [c|e]; simpl; [|reflexivity].
  rewrite (addFragments_same (currentAnalyzer this) (other (files this)));
    [reflexivity|].
  intros f Hf. apply Hsame. unfold requestedUrls. simpl. right.
  apply in_map, Hf.
Qed.

End Asks.

Lemma only_the_entry_urls_are_analyzed_sample :
  generatePushManifest
    Sample.urlFromPath
    (withAnalyzer
       (Sample.stream Sample.withShell)
       (fun files entryUrl =>
          if String.eqb entryUrl "polymer.html"
          then IsDocument [ Sample.edge "polymer-element.js" ["html-script"] ]
          else Sample.analyzer Sample.imports files entryUrl))
  = generatePushManifest Sample.urlFromPath (Sample.stream Sample.withShell).
Proof.
  apply (only_the_entry_urls_are_analyzed
           Sample.urlFromPath (Sample.stream Sample.withShell)).
  intros entryUrl [<- | [<- | []]]; reflexivity.
Defined.

(** ** Names that objects inherit *)

(** X19. An import whose URL is the name of a member of
    [Object.prototype] gets no entry: the collection reads as having one
    already. *)
Theorem inherited_names_get_no_entry
        (analyzer : Analyzer) (entryUrl : string)
        (ignoreUrls : option (list string))
        (entries : PushManifestEntryCollection) (target : string) :
  generatePushManifestEntryForUrl analyzer entryUrl ignoreUrls = Ok entries ->
  Obj.inherited target = true ->
  Obj.get entries target = None.
Proof.
  intros H Hin. apply resolve_Ok in H. destruct H as (l & _ & ->).
  rewrite resolve_get. simpl. rewrite Hin, orb_true_r. reflexivity.
Qed.

Lemma inherited_names_get_no_entry_sample :
  Obj.get [ ("css/app.css", Sample.entry style) ] "constructor" = None.
Proof.
  apply (inherited_names_get_no_entry
           Sample.inheritedNames "index.html" None
           [ ("css/app.css", Sample.entry style) ] "constructor");
    reflexivity.
Defined.

Section Proto.

Variable urlFromPath : string -> string -> string.

(** X21. No collection of a generated manifest stands under "__proto__",
    and no entry of such a collection does. *)
Theorem proto_is_never_a_key
        (this : AddPushManifest) (pushManifest : PushManifest) :
  generatePushManifest urlFromPath this = Ok pushManifest ->
  ~ In "__proto__" (Obj.keys pushManifest)
  /\ forall source targets,
      In (source, targets) pushManifest ->
      ~ In "__proto__" (Obj.keys targets).
Proof.
  intros H. destruct (generatePushManifest_Ok _ _ _ H) as (raw & _ & ->).
  split; [apply normalizeManifest_proto|].
  intros source targets Hin. apply normalizeManifest_In in Hin.
  destruct Hin as (key & entries & _ & _ & ->).
  apply normalizeTargets_proto.
Qed.

End Proto.

Lemma proto_is_never_a_key_sample :
  ~ In "__proto__" ["shell.html"; "view.html"]
  /\ forall source targets,
      In (source, targets)
         [ ("shell.html",
            [ ("polymer.html", Sample.entry document);
              ("shell.js", Sample.entry script) ]);
           ("view.html", [ ("view.css", Sample.entry style) ]) ] ->
      ~ In "__proto__" (Obj.keys targets).
Proof.
  apply (proto_is_never_a_key
           Sample.urlFromPath (Sample.stream Sample.withShell)
           [ ("shell.html",
              [ ("polymer.html", Sample.entry document);
                ("shell.js", Sample.entry script) ]);
             ("view.html", [ ("view.css", Sample.entry style) ]) ]).
  reflexivity.
Defined.

(** ** What a serialized manifest holds *)

(** X20. The text of a manifest whose entries have weight 1 reads back as
    that manifest; so two such manifests with the same text are the same
    manifest. *)
Theorem serialized_manifest_reads_back :
  (forall m : PushManifest,
      Forall (fun sc =>
                Forall (fun ke => weight (snd ke) = Some 1%Z) (snd sc)) m ->
      Reader.read (stringify m) = Some m)
  /\ (forall m m' : PushManifest,
         Forall (fun sc =>
                   Forall (fun ke => weight (snd ke) = Some 1%Z) (snd sc)) m ->
         Forall (fun sc =>
                   Forall (fun ke => weight (snd ke) = Some 1%Z) (snd sc)) m' ->
         stringify m = stringify m' -> m = m').
Proof.
  split; [exact ReaderFacts.read_stringify|].
  intros m m' Hm Hm' Heq.
  apply ReaderFacts.read_stringify in Hm, Hm'.
  rewrite Heq, Hm' in Hm. injection Hm as <-. reflexivity.
Qed.

Lemma serialized_manifest_reads_back_sample :
  Reader.read
    (stringify [ ("view.html", [ ("view.css", Sample.entry style) ]);
                 ("empty.html", []) ])
  = Some [ ("view.html", [ ("view.css", Sample.entry style) ]);
           ("empty.html", []) ].
Proof.
  apply (proj1 serialized_manifest_reads_back).
  repeat constructor.
Defined.
